(** * ts_library.py: staleness reconciliation between Ninja and tsc

    A shallow embedding of [third_party/typescript/ts_library.py] and the
    properties of its configuration writer, its artifact snapshot and its
    timestamp reconciler.

    Conventions of the model.
    - Paths are POSIX paths ([os.path] is [posixpath]); a file is identified
      by its path string (no symbolic links, no case folding).
    - A modification time is the value [os.stat(p).st_mtime] reports and
      [os.utime] accepts; it is modelled as an integer number of ticks.
    - The text of a file is what [fp.read()] returns for it in text mode:
      its bytes decoded, with the line endings CR LF and CR read as LF
      ([Str.universal_newlines]). Two files whose bytes differ in their
      line endings only have the same text, and the run cannot tell them
      apart. [json.dumps] writes no carriage return, so the text that is
      written for the configuration is the text read back from it.
    - Python exceptions are explicit: a computation returns a value or raises,
      and threads the state of the operating system and a trace of the
      system calls it made.
    - The run is alone on its files: nothing changes between two of its
      system calls but what the run or the compiler it started does.
    - Opening a file for writing fails at the paths the state lists as
      unwritable and nowhere else; [os.utime] on a file that exists
      succeeds (the run owns its artifacts) and makes [st_mtime] report the
      value it was given; access times are not part of the state; a
      process that is started returns.
    - The listing of the TypeScript library directory, which a remote run
      makes, is taken from the surroundings and leaves no event in the
      trace. *)

From Stdlib Require Import ZArith String Ascii List Bool Lia.
From stdpp Require Import gmap strings list fin_maps pretty.

Set Default Proof Using "Type".

(** ** Python strings *)

Module Str.

(** [s.startswith(pre)] *)
Fixpoint startswith (s pre : string) : bool :=
  match pre, s with
  | EmptyString, _ => true
  | String _ _, EmptyString => false
  | String a pre', String b s' => Ascii.eqb a b && startswith s' pre'
  end.

(** [s[::-1]] *)
Fixpoint rev (s : string) : string :=
  match s with
  | EmptyString => EmptyString
  | String c r => rev r +:+ String c EmptyString
  end.

(** [s.endswith(suf)] *)
Definition endswith (s suf : string) : bool :=
  startswith (rev s) (rev suf).

(** [s[i:]] for [0 <= i] *)
Fixpoint from (i : nat) (s : string) : string :=
  match i, s with
  | O, _ => s
  | S _, EmptyString => EmptyString
  | S j, String _ r => from j r
  end.

(** [s[:i]] for [0 <= i] *)
Fixpoint upto (i : nat) (s : string) : string :=
  match i, s with
  | O, _ => EmptyString
  | S _, EmptyString => EmptyString
  | S j, String c r => String c (upto j r)
  end.

(** [s.rfind(c)] for a one-character [c]: the highest index of [c] in [s],
    or [-1]. *)
Fixpoint rfind (s : string) (c : ascii) : Z :=
  match s with
  | EmptyString => (-1)%Z
  | String a r =>
      let i := rfind r c in
      if (0 <=? i)%Z then (i + 1)%Z
      else if Ascii.eqb a c then 0%Z else (-1)%Z
  end.

(** [s.rstrip(c)] for a one-character [c] *)
Fixpoint rstrip (s : string) (c : ascii) : string :=
  match s with
  | EmptyString => EmptyString
  | String a r =>
      match rstrip r c with
      | EmptyString => if Ascii.eqb a c then EmptyString else String a EmptyString
      | r' => String a r'
      end
  end.

(** [c * n] *)
Fixpoint repeat (c : ascii) (n : nat) : string :=
  match n with
  | O => EmptyString
  | S k => String c (repeat c k)
  end.

(** The scan of [s.replace(old, new)] for a non-empty [old]: left to
    right, every match is replaced and the scan resumes behind it. [skip]
    counts the characters of the current match that are still to be
    passed over. *)
Fixpoint replace_from (old new : string) (skip : nat) (s : string) : string :=
  match s with
  | EmptyString => EmptyString
  | String c r =>
      match skip with
      | S k => replace_from old new k r
      | O =>
          if startswith s old
          then new +:+ replace_from old new (String.length old - 1) r
          else String c (replace_from old new 0 r)
      end
  end.

(** With an empty [old], Python puts [new] before every character and at
    the end. *)
Fixpoint interleave (new s : string) : string :=
  match s with
  | EmptyString => new
  | String c r => new +:+ String c (interleave new r)
  end.

(** [s.replace(old, new)] *)
Definition replace (s old new : string) : string :=
  match old with
  | EmptyString => interleave new s
  | String _ _ => replace_from old new 0 s
  end.

(** The number of positions of [s] at which [pat] occurs. *)
Fixpoint occurrences (s pat : string) : nat :=
  match s with
  | EmptyString => 0
  | String _ r => (if startswith s pat then 1 else 0) + occurrences r pat
  end.

(** [c in s] *)
Fixpoint contains (s : string) (c : ascii) : bool :=
  match s with
  | EmptyString => false
  | String a r => Ascii.eqb a c || contains r c
  end.

(** [sep.join(l)] *)
Fixpoint join (sep : string) (l : list string) : string :=
  match l with
  | [] => EmptyString
  | [x] => x
  | x :: r => x +:+ sep +:+ join sep r
  end.

(** Carriage return and line feed. *)
Definition CR : ascii := "013"%char.
Definition LF : ascii := "010"%char.

(** What a file opened for reading in text mode ([newline=None]) gives
    for the characters it holds: CR LF and a CR alone are read as LF. *)
Fixpoint universal_newlines (s : string) : string :=
  match s with
  | EmptyString => EmptyString
  | String c r =>
      if Ascii.eqb c CR
      then String LF
             match r with
             | EmptyString => EmptyString
             | String c' r' =>
                 if Ascii.eqb c' LF then universal_newlines r' else universal_newlines r
             end
      else String c (universal_newlines r)
  end.

End Str.

(** ** [posixpath] *)

Module Path.

Definition sep : ascii := "/"%char.

(** One step of the loop of [posixpath.join]. *)
Definition join2 (path b : string) : string :=
  if Str.startswith b (String sep EmptyString) then b
  else if (path =? EmptyString)%string || Str.endswith path (String sep EmptyString)
       then path +:+ b
       else path +:+ String sep b.

(** [os.path.join(a, *p)] *)
Definition join (a : string) (p : list string) : string :=
  fold_left join2 p a.

(** [os.path.basename(p)] *)
Definition basename (p : string) : string :=
  let i := (Str.rfind p sep + 1)%Z in
  Str.from (Z.to_nat i) p.

(** [os.path.dirname(p)] *)
Definition dirname (p : string) : string :=
  let i := (Str.rfind p sep + 1)%Z in
  let head := Str.upto (Z.to_nat i) p in
  if negb (head =? EmptyString)%string
     && negb (head =? Str.repeat sep (String.length head))%string
  then Str.rstrip head sep
  else head.

End Path.


(** ** Python dictionaries

    A [dict] keeps its keys in insertion order; assigning to a key that is
    present keeps its place. *)

Module Dict.

Definition t (V : Type) : Type := list (string * V).

(** [d.get(k)] *)
Fixpoint get {V : Type} (d : t V) (k : string) : option V :=
  match d with
  | [] => None
  | (k', v) :: r => if (k' =? k)%string then Some v else get r k
  end.

(** [d[k] = v] *)
Fixpoint setitem {V : Type} (d : t V) (k : string) (v : V) : t V :=
  match d with
  | [] => [(k, v)]
  | (k', v') :: r =>
      if (k' =? k)%string then (k, v) :: r else (k', v') :: setitem r k v
  end.

(** The keys in iteration order: [for k in d]. *)
Definition keys {V : Type} (d : t V) : list string := map fst d.

End Dict.

(** The values [json.loads] produces and [json.dumps] accepts. *)
#[local] Set Warnings "-register-all".
Inductive json : Type :=
| JNull
| JBool (b : bool)
| JInt (z : Z)
| JStr (s : string)
| JList (l : list json)
| JDict (d : list (string * json)).
#[local] Set Warnings "+register-all".

(** ** The operating system *)

(** A directory entry: its modification time, its text ([None] when the
    bytes do not decode) and whether it can be opened for reading (a
    directory, or a file without the permission, cannot). The text is
    what a reader in text mode gets, line endings translated. *)
Record file : Type := File {
  st_mtime : Z;
  text : option string;
  readable : bool;
}.

(** The readable file that holds the ASCII characters [bytes]. *)
Definition file_of_bytes (t : Z) (bytes : string) : file :=
  File t (Some (Str.universal_newlines bytes)) true.

Record os_state : Type := OS {
  files : gmap string file;
  (** the paths at which opening a file for writing fails *)
  unwritable : gset string;
  (** the time the next write is stamped with *)
  clock : Z;
}.

Inductive exn : Type :=
| FileNotFoundError (p : string)
| PermissionError (p : string)
| UnicodeDecodeError (p : string)
| JSONDecodeError
| KeyError (k : string)
| TypeError.

(** What a run does to the outside world, in order. *)
Inductive event : Type :=
| SysExists (p : string)
| SysStat (p : string)
| SysOpenRead (p : string)
| SysWrite (p : string) (data : string)
| SysWriteFailed (p : string)
| SysUtime (p : string) (t : Z)
| SysPopen (argv : list string)
| Print (s : string)
| PrintExn (e : exn).

Record world : Type := World {
  os : os_state;
  trace : list event;
}.

Inductive result (A : Type) : Type :=
| Ok (a : A)
| Raise (e : exn).
Arguments Ok {A} a.
Arguments Raise {A} e.

(** A Python computation. *)
Definition IO (A : Type) : Type := world -> result A * world.

#[export] Instance IO_ret : MRet IO := fun A a w => (Ok a, w).

#[export] Instance IO_bind : MBind IO := fun A B f m w =>
  match m w with
  | (Ok a, w') => f a w'
  | (Raise e, w') => (Raise e, w')
  end.

Definition raise {A : Type} (e : exn) : IO A := fun w => (Raise e, w).

(** [try: body / except Exception as e: handler] *)
Definition try_except {A : Type} (body : IO A) (handler : exn -> IO A) : IO A :=
  fun w =>
    match body w with
    | (Ok a, w') => (Ok a, w')
    | (Raise e, w') => handler e w'
    end.

(** [for x in l: body], threading the loop's variables. *)
Fixpoint for_each {A S : Type} (l : list A) (body : S -> A -> IO S) (s : S) : IO S :=
  match l with
  | [] => mret s
  | x :: r => s' ← body s x; for_each r body s'
  end.

Definition log (e : event) (w : world) : world :=
  {| os := os w; trace := trace w ++ [e] |}.

Definition set_files (fs : gmap string file) (o : os_state) : os_state :=
  {| files := fs; unwritable := unwritable o; clock := clock o |}.

(** [os.path.exists(p)] *)
Definition os_path_exists (p : string) : IO bool := fun w =>
  (Ok (match files (os w) !! p with Some _ => true | None => false end),
   log (SysExists p) w).

(** [os.stat(p).st_mtime] *)
Definition os_stat_st_mtime (p : string) : IO Z := fun w =>
  match files (os w) !! p with
  | Some f => (Ok (st_mtime f), log (SysStat p) w)
  | None => (Raise (FileNotFoundError p), log (SysStat p) w)
  end.

(** [open(p)] *)
Definition open_r (p : string) : IO file := fun w =>
  match files (os w) !! p with
  | Some f =>
      if readable f then (Ok f, log (SysOpenRead p) w)
      else (Raise (PermissionError p), log (SysOpenRead p) w)
  | None => (Raise (FileNotFoundError p), log (SysOpenRead p) w)
  end.

(** [fp.read()] on a file opened in text mode: the decoded text, line
    endings translated *)
Definition fp_read (p : string) (fp : file) : IO string :=
  match text fp with
  | Some s => mret s
  | None => raise (UnicodeDecodeError p)
  end.

(** [with open(p, encoding="utf8") as fp: ... fp.read()] *)
Definition read_text (p : string) : IO string :=
  fp ← open_r p; fp_read p fp.

(** [with open(p, 'w', encoding="utf8") as fp: fp.write(s)], for a text
    [s] without carriage return, as [json.dumps] makes it: the file then
    reads [s] *)
Definition write_text (p s : string) : IO unit := fun w =>
  if bool_decide (p ∈ unwritable (os w))
  then (Raise (PermissionError p), log (SysWriteFailed p) w)
  else
    let o := os w in
    let r := match files o !! p with Some f => readable f | None => true end in
    (Ok tt,
     {| os := {| files := <[p := File (clock o) (Some s) r]> (files o);
                 unwritable := unwritable o;
                 clock := (clock o + 1)%Z |};
        trace := trace w ++ [SysWrite p s] |}).

(** [os.utime(p, (t, t))], for [t] a value of [st_mtime]: the file
    reports [t] from then on *)
Definition os_utime (p : string) (t : Z) : IO unit := fun w =>
  match files (os w) !! p with
  | Some f =>
      (Ok tt,
       {| os := set_files (<[p := File t (text f) (readable f)]> (files (os w))) (os w);
          trace := trace w ++ [SysUtime p t] |})
  | None => (Raise (FileNotFoundError p), log (SysUtime p t) w)
  end.

(** [print(s)] and [print(e)] for an exception [e] *)
Definition print (s : string) : IO unit := fun w => (Ok tt, log (Print s) w).
Definition print_exn (e : exn) : IO unit := fun w => (Ok tt, log (PrintExn e) w).

(** [d[k]] and [d[k] = v] on a value of [json.loads] *)
Definition getitem (d : json) (k : string) : IO json :=
  match d with
  | JDict l =>
      match Dict.get l k with
      | Some v => mret v
      | None => raise (KeyError k)
      end
  | _ => raise TypeError
  end.

Definition setitem (d : json) (k : string) (v : json) : IO json :=
  match d with
  | JDict l => mret (JDict (Dict.setitem l k v))
  | _ => raise TypeError
  end.

(** [d[k1][k2] = v]: the inner dictionary is updated in place, so [d]
    sees the update. *)
Definition setitem2 (d : json) (k1 k2 : string) (v : json) : IO json :=
  inner ← getitem d k1;
  inner' ← setitem inner k2 v;
  setitem d k1 inner'.

(** The command line, as [argparse] hands it over. *)
Record options : Type := Options {
  sources : option (list string);
  deps : option (list string);
  front_end_directory : string;
  tsconfig_output_location : string;
  test_only : bool;
  no_emit : bool;
  verify_lib_check : bool;
  is_web_worker : bool;
  module : string;
  use_rbe : bool;
  rewrapper_binary : option string;
  rewrapper_cfg : option string;
  rewrapper_exec_root : option string;
}.

(** What [parser.parse_args()] makes of a command line: the options, or
    one of the two exits of [argparse], for [-h] and for a command line
    it rejects (an unknown or incomplete argument, a required one that is
    missing). *)
Inductive parse_result : Type :=
| Namespace (opts : options)
| HelpExit (help : string)
| ErrorExit (message : string).

(** What the script takes from its surroundings: the library functions it
    calls and does not define, and the processes it starts. *)
Record env : Type := Env {
  (** [__file__] *)
  script_file : string;
  (** [devtools_paths.node_path()] *)
  node_path : string;
  (** [os.getcwd()] *)
  getcwd : string;
  (** [os.path.relpath(path, start)] *)
  relpath : string -> string -> string;
  (** [os.listdir(dir)] *)
  listdir : string -> list string;
  (** [json.loads(s)]; [None] when it raises *)
  json_loads : string -> option json;
  (** [json.dumps(doc)] *)
  json_dumps : json -> string;
  (** [subprocess.Popen(argv, ...).communicate()]: the return code, the
      two output streams and what the process did to the file system *)
  Popen : list string -> os_state -> (Z * string * string) * os_state;
}.

(** ** The script *)

Section Script.

Context (E : env).

Definition _CURRENT_DIR : string := Path.join (Path.dirname (script_file E)) [].

Definition ROOT_DIRECTORY_OF_REPOSITORY : string :=
  Path.join _CURRENT_DIR [".."; ".."].

Definition TSC_LOCATION : string :=
  Path.join ROOT_DIRECTORY_OF_REPOSITORY ["node_modules"; "typescript"; "bin"; "tsc"].

Definition NODE_LOCATION : string := node_path E.

Definition BASE_TS_CONFIG_LOCATION : string :=
  Path.join ROOT_DIRECTORY_OF_REPOSITORY ["tsconfig.base.json"].

Definition TYPES_NODE_MODULES_DIRECTORY : string :=
  Path.join ROOT_DIRECTORY_OF_REPOSITORY ["node_modules"; "@types"].

Definition GLOBAL_TYPESCRIPT_DEFINITION_FILES : list string :=
  [ Path.join ROOT_DIRECTORY_OF_REPOSITORY ["front_end"; "legacy"; "legacy-defs.d.ts"];
    Path.join ROOT_DIRECTORY_OF_REPOSITORY ["front_end"; "global_typings"; "global_defs.d.ts"];
    Path.join ROOT_DIRECTORY_OF_REPOSITORY
      ["front_end"; "global_typings"; "request_idle_callback.d.ts"];
    Path.join ROOT_DIRECTORY_OF_REPOSITORY
      ["front_end"; "global_typings"; "intl_display_names.d.ts"];
    Path.join ROOT_DIRECTORY_OF_REPOSITORY ["node_modules"; "@types"; "filesystem"; "index.d.ts"];
    Path.join ROOT_DIRECTORY_OF_REPOSITORY ["node_modules"; "@types"; "codemirror"; "index.d.ts"];
    Path.join ROOT_DIRECTORY_OF_REPOSITORY ["front_end"; "legacy"; "codemirror-legacy.d.ts"] ].

(** [subprocess.Popen(argv, ...)] followed by [process.communicate()].
    An argument that is [None] makes [Popen] raise. *)
Definition popen_communicate (argv : list (option string)) : IO (Z * string * string) :=
  fun w =>
    match mapM id argv with
    | None => (Raise TypeError, w)
    | Some args =>
        let '(out, o) := Popen E args (os w) in
        (Ok out, {| os := o; trace := trace w ++ [SysPopen args] |})
    end.

Definition runTsc (tsconfig_location : string) : IO (Z * string) :=
  '(returncode, stdout, stderr) ←
    popen_communicate
      [Some NODE_LOCATION; Some TSC_LOCATION; Some "-p"; Some tsconfig_location];
  mret (returncode, stdout +:+ stderr).

(** [path.relpath(x, start)], where [start] may be [None] *)
Definition relpath_from (x : string) (start : option string) : string :=
  relpath E x (default "." start).

Definition runTscRemote (tsconfig_location : string) (all_ts_files : list string)
    (rewrapper_binary rewrapper_cfg rewrapper_exec_root : option string)
    (test_only : bool) : IO (Z * string) :=
  let relative_ts_file_paths :=
    map (fun x => relpath_from x rewrapper_exec_root) all_ts_files in
  let tsc_lib_directory :=
    Path.join ROOT_DIRECTORY_OF_REPOSITORY ["node_modules"; "typescript"; "lib"] in
  let all_d_ts_files :=
    map (fun f => relpath_from (Path.join tsc_lib_directory [f]) rewrapper_exec_root)
        (List.filter (fun f => Str.endswith f ".d.ts") (listdir E tsc_lib_directory)) in
  let all_d_ts_files :=
    if test_only
    then all_d_ts_files ++ [relpath_from TYPES_NODE_MODULES_DIRECTORY rewrapper_exec_root]
    else all_d_ts_files in
  let relative_node_location := relpath E NODE_LOCATION (getcwd E) in
  let relative_tsc_location := relpath E TSC_LOCATION (getcwd E) in
  let relative_tsconfig_location := relpath E tsconfig_location (getcwd E) in
  let relative_tsc_directory :=
    relpath_from (Path.join ROOT_DIRECTORY_OF_REPOSITORY ["node_modules"; "typescript"])
                 rewrapper_exec_root in
  let inputs :=
    Str.join ","
      ([ relative_node_location;
         relative_tsc_location;
         Path.join relative_tsc_directory ["lib"; "tsc.js"];
         relpath E tsconfig_location (getcwd E) ]
       ++ relative_ts_file_paths ++ all_d_ts_files) in
  '(returncode, stdout, stderr) ←
    popen_communicate
      [ rewrapper_binary; Some "-cfg"; rewrapper_cfg; Some "-exec_root";
        rewrapper_exec_root; Some "-labels=type=tool"; Some "-inputs"; Some inputs;
        Some "-output_directories";
        Some (relpath_from (Path.dirname tsconfig_location) rewrapper_exec_root);
        Some "--"; Some relative_node_location;
        Some relative_tsc_location; Some "-p"; Some relative_tsconfig_location ];
  mret (returncode, stdout +:+ stderr).

Definition maybe_update_tsconfig_file (tsconfig_output_location : string)
    (tsconfig : json) : IO Z :=
  exists_ ← os_path_exists tsconfig_output_location;
  old_contents ←
    (if exists_ : bool
     then s ← read_text tsconfig_output_location; mret (Some s)
     else mret None);
  let new_contents := json_dumps E tsconfig in
  returned ←
    (if match old_contents with
        | None => true
        | Some old => negb (new_contents =? old)%string
        end
     then
       try_except
         (write_text tsconfig_output_location new_contents;; mret None)
         (fun e =>
            print ("Encountered error while writing generated tsconfig in location "
                   +:+ tsconfig_output_location +:+ ":");;
            print_exn e;;
            mret (Some 1%Z))
     else mret None);
  match returned with
  | Some code => mret code
  | None => mret 0%Z
  end.

(** The snapshot: generated file name to (modification time, text). *)
Definition metadata : Type := Dict.t (Z * string).

(** The name the snapshot looks for, for a source and an extension. *)
Definition gen_fname (src_fname ext : string) : string :=
  Path.basename (Str.replace src_fname ".ts" ext).

Definition compute_previous_generated_file_metadata (sources : list string)
    (tsconfig_output_directory : string) : IO metadata :=
  for_each sources
    (fun gen_files src_fname =>
       for_each [".d.ts"; ".js"; ".map"]
         (fun gen_files ext =>
            let gen_fname := gen_fname src_fname ext in
            let gen_path := Path.join tsconfig_output_directory [gen_fname] in
            exists_ ← os_path_exists gen_path;
            if exists_ : bool
            then
              mtime ← os_stat_st_mtime gen_path;
              contents ← read_text gen_path;
              mret (Dict.setitem gen_files gen_fname (mtime, contents))
            else mret gen_files)
         gen_files)
    [].

Definition maybe_reset_timestamps_on_generated_files
    (previously_generated_file_metadata : metadata)
    (tsconfig_output_directory : string) : IO unit :=
  for_each (Dict.keys previously_generated_file_metadata)
    (fun _ gen_fname =>
       let gen_path := Path.join tsconfig_output_directory [gen_fname] in
       exists_ ← os_path_exists gen_path;
       if exists_ : bool
       then
         match Dict.get previously_generated_file_metadata gen_fname with
         | None => raise (KeyError gen_fname)
         | Some (old_mtime, old_contents) =>
             new_contents ← read_text gen_path;
             if (new_contents =? old_contents)%string
             then os_utime gen_path old_mtime
             else mret tt
         end
       else mret tt)
    tt.

(** The assignments of [main] to the configuration document. *)
Definition synthesize (opts : options) (tsconfig : json)
    (tsconfig_output_location : string) (all_ts_files : list string) : IO json :=
  let tsconfig_output_directory := Path.dirname tsconfig_output_location in
  let tsbuildinfo_name := Path.basename tsconfig_output_location +:+ ".tsbuildinfo" in
  let get_relative_path_from_output_directory := fun file_to_resolve =>
    relpath E (Path.join (getcwd E) [file_to_resolve]) tsconfig_output_directory in
  tsconfig ← setitem tsconfig "files"
    (JList (map (fun x => JStr (get_relative_path_from_output_directory x)) all_ts_files));
  tsconfig ←
    match deps opts with
    | Some ds =>
        setitem tsconfig "references"
          (JList (map (fun src => JDict [("path", JStr src)]) ds))
    | None => mret tsconfig
    end;
  tsconfig ← setitem2 tsconfig "compilerOptions" "module" (JStr (module opts));
  tsconfig ←
    (if negb (verify_lib_check opts)
     then setitem2 tsconfig "compilerOptions" "skipLibCheck" (JBool true)
     else mret tsconfig);
  tsconfig ← setitem2 tsconfig "compilerOptions" "rootDir"
    (JStr (get_relative_path_from_output_directory (front_end_directory opts)));
  tsconfig ← setitem2 tsconfig "compilerOptions" "typeRoots"
    (JList (if test_only opts
            then [JStr (get_relative_path_from_output_directory
                          TYPES_NODE_MODULES_DIRECTORY)]
            else []));
  tsconfig ←
    (if test_only opts
     then setitem2 tsconfig "compilerOptions" "moduleResolution" (JStr "node")
     else mret tsconfig);
  tsconfig ←
    (if no_emit opts
     then setitem2 tsconfig "compilerOptions" "emitDeclarationOnly" (JBool true)
     else mret tsconfig);
  tsconfig ← setitem2 tsconfig "compilerOptions" "outDir" (JStr ".");
  tsconfig ← setitem2 tsconfig "compilerOptions" "tsBuildInfoFile" (JStr tsbuildinfo_name);
  setitem2 tsconfig "compilerOptions" "lib"
    (JList (JStr "esnext" ::
            (if is_web_worker opts
             then [JStr "webworker"; JStr "webworker.iterable"]
             else [JStr "dom"; JStr "dom.iterable"]))).

(** The statement [if use_remote_execution: ... else: ...] of [main]:
    the compiler invocation, on the remote service or here. *)
Definition run_compiler (opts : options) (all_ts_files : list string)
    (tsconfig_location : string) : IO (Z * string) :=
  let use_remote_execution :=
    use_rbe opts &&
    match deps opts with
    | None => true
    | Some ds => (length ds =? 0)%nat
    end in
  if use_remote_execution
  then runTscRemote tsconfig_location all_ts_files
         (rewrapper_binary opts) (rewrapper_cfg opts) (rewrapper_exec_root opts)
         (test_only opts)
  else runTsc tsconfig_location.

(** [main] from the snapshot on; [tsconfig_location] is its
    [tsconfig_output_location], the joined path. *)
Definition compile_and_reconcile (opts : options) (srcs all_ts_files : list string)
    (tsconfig_location : string) : IO Z :=
  let tsconfig_output_directory := Path.dirname tsconfig_location in
  previously_generated_file_metadata ←
    compute_previous_generated_file_metadata srcs tsconfig_output_directory;
  '(found_errors, stderr) ← run_compiler opts all_ts_files tsconfig_location;
  maybe_reset_timestamps_on_generated_files
    previously_generated_file_metadata tsconfig_output_directory;;
  if negb (found_errors =? 0)%Z
  then
    print "";;
    print ("TypeScript compilation failed. Used tsconfig "
           +:+ tsconfig_output_location opts);;
    print "";;
    print stderr;;
    print "";;
    mret 1%Z
  else mret 0%Z.

(** [main] from the call of [maybe_update_tsconfig_file] on. *)
Definition persist_and_compile (opts : options) (tsconfig : json)
    (srcs all_ts_files : list string) (tsconfig_location : string) : IO Z :=
  code ← maybe_update_tsconfig_file tsconfig_location tsconfig;
  if (code =? 1)%Z then mret 1%Z
  else if (length srcs =? 0)%nat && negb (verify_lib_check opts) then mret 0%Z
  else compile_and_reconcile opts srcs all_ts_files tsconfig_location.

Definition main (opts : options) : IO Z :=
  root_tsconfig ← open_r BASE_TS_CONFIG_LOCATION;
  loaded ←
    try_except
      (s ← fp_read BASE_TS_CONFIG_LOCATION root_tsconfig;
       match json_loads E s with
       | Some doc => mret (Some doc)
       | None => raise JSONDecodeError
       end)
      (fun e =>
         print "Encountered error while loading root tsconfig:";;
         print_exn e;;
         mret None);
  match loaded with
  | None => mret 1%Z
  | Some tsconfig =>
      let tsconfig_output_location :=
        Path.join (getcwd E) [tsconfig_output_location opts] in
      let srcs := default [] (sources opts) in
      let all_ts_files := srcs ++ GLOBAL_TYPESCRIPT_DEFINITION_FILES in
      tsconfig ← synthesize opts tsconfig tsconfig_output_location all_ts_files;
      persist_and_compile opts tsconfig srcs all_ts_files tsconfig_output_location
  end.

(** [sys.exit(main())] from the point where [parser.parse_args()] has
    returned [opts]: the exit status of the process. An exception nobody
    caught ends the process with a traceback and status 1. *)
Definition script (opts : options) (w : world) : Z * world :=
  match main opts w with
  | (Ok code, w') => (code, w')
  | (Raise e, w') => (1%Z, log (PrintExn e) w')
  end.

(** [sys.exit(main())] from the command line. [parser.parse_args()] ends
    the process itself when it does not return: with status 0 after
    printing the help, with status 2 after printing the usage and what is
    wrong with the command line. *)
Definition run (parse_args : list string -> parse_result) (argv : list string)
    (w : world) : Z * world :=
  match parse_args argv with
  | Namespace opts => script opts w
  | HelpExit help => (0%Z, log (Print help) w)
  | ErrorExit message => (2%Z, log (Print message) w)
  end.

End Script.

(** ** Vocabulary of the properties *)

(** A name is relative when it does not start with the separator; file
    names are. *)
Definition relative (k : string) : Prop :=
  Str.startswith k (String Path.sep EmptyString) = false.

(** What [os.path.join(dir, k)] puts before a relative [k]. *)
Definition join_head (dir : string) : string :=
  if (dir =? EmptyString)%string || Str.endswith dir (String Path.sep EmptyString)
  then dir else dir +:+ String Path.sep EmptyString.

(** The second character of a text, if it has one. *)
Definition second (s : string) : option ascii :=
  match s with
  | String _ (String b _) => Some b
  | _ => None
  end.

(** The body of the loops of [compute_previous_generated_file_metadata],
    for one generated file name. *)
Definition capture_step (tsconfig_output_directory : string)
    (gen_files : metadata) (gen_fname : string) : IO metadata :=
  let gen_path := Path.join tsconfig_output_directory [gen_fname] in
  exists_ ← os_path_exists gen_path;
  if exists_ : bool
  then
    mtime ← os_stat_st_mtime gen_path;
    contents ← read_text gen_path;
    mret (Dict.setitem gen_files gen_fname (mtime, contents))
  else mret gen_files.

(** The body of the loop of [maybe_reset_timestamps_on_generated_files]. *)
Definition reset_step (previously_generated_file_metadata : metadata)
    (tsconfig_output_directory : string) (_ : unit) (gen_fname : string) : IO unit :=
  let gen_path := Path.join tsconfig_output_directory [gen_fname] in
  exists_ ← os_path_exists gen_path;
  if exists_ : bool
  then
    match Dict.get previously_generated_file_metadata gen_fname with
    | None => raise (KeyError gen_fname)
    | Some (old_mtime, old_contents) =>
        new_contents ← read_text gen_path;
        if (new_contents =? old_contents)%string
        then os_utime gen_path old_mtime
        else mret tt
    end
  else mret tt.

(** The generated file names the snapshot looks for, in the order of the
    loops. *)
Definition expected_names (sources : list string) : list string :=
  flat_map (fun src_fname => map (gen_fname src_fname) [".d.ts"; ".js"; ".map"]) sources.

(** What the snapshot records of the file [dir/k]: its modification time
    and its text. *)
Definition entry (o : os_state) (dir k : string) : option (Z * string) :=
  match files o !! Path.join dir [k] with
  | Some f =>
      match text f with
      | Some c => Some (st_mtime f, c)
      | None => None
      end
  | None => None
  end.

(** The file [dir/k] exists and reading it raises. *)
Definition unreadable (o : os_state) (dir k : string) : Prop :=
  exists f, files o !! Path.join dir [k] = Some f
            /\ (readable f = false \/ text f = None).

(** What of a file is not its modification time. *)
Definition content (f : file) : option string * bool := (text f, readable f).

(** The world after [os.utime(p, (t, t))] on the file [f] at [p]. *)
Definition touched (p : string) (t : Z) (f : file) (w : world) : world :=
  {| os := set_files (<[p := File t (text f) (readable f)]> (files (os w))) (os w);
     trace := trace w ++ [SysUtime p t] |}.

(** The system calls of the reconciler: on the file of a snapshot key,
    and none that writes text. *)
Definition reconcile_event (dir : string) (ks : list string) (e : event) : Prop :=
  exists k, k ∈ ks
            /\ (e = SysExists (Path.join dir [k])
                \/ e = SysOpenRead (Path.join dir [k])
                \/ exists t, e = SysUtime (Path.join dir [k]) t).

(** From [w] to [w'] nothing changed but modification times of files of
    the keys [ks], and no other file was looked at. *)
Definition reconcile_frame (dir : string) (ks : list string) (w w' : world) : Prop :=
  unwritable (os w') = unwritable (os w)
  /\ clock (os w') = clock (os w)
  /\ (forall q, content <$> (files (os w') !! q) = content <$> (files (os w) !! q))
  /\ (forall q, (forall k, k ∈ ks -> Path.join dir [k] <> q) ->
                files (os w') !! q = files (os w) !! q)
  /\ exists evs, trace w' = trace w ++ evs /\ Forall (reconcile_event dir ks) evs.


(** The paths and lists [main] computes from its options. *)
Definition output_location (E : env) (opts : options) : string :=
  Path.join (getcwd E) [tsconfig_output_location opts].

Definition output_directory (E : env) (opts : options) : string :=
  Path.dirname (output_location E opts).

Definition given_sources (opts : options) : list string := default [] (sources opts).

Definition all_ts_files (E : env) (opts : options) : list string :=
  given_sources opts ++ GLOBAL_TYPESCRIPT_DEFINITION_FILES E.

(** The world in which [main] makes the document and calls
    [maybe_update_tsconfig_file]: the base configuration was opened. *)
Definition loaded (E : env) (w : world) : world :=
  log (SysOpenRead (BASE_TS_CONFIG_LOCATION E)) w.

(** The base configuration is there and loads, and [tsconfig] is the
    document [main] makes of it. *)
Definition configured (E : env) (opts : options) (w : world) (tsconfig : json) : Prop :=
  exists f s doc,
    files (os w) !! BASE_TS_CONFIG_LOCATION E = Some f
    /\ readable f = true
    /\ text f = Some s
    /\ json_loads E s = Some doc
    /\ (synthesize E opts doc (output_location E opts) (all_ts_files E opts)
          (loaded E w)).1 = Ok tsconfig.

(** A computation that leaves the world as it is. *)
Definition pure_io {A : Type} (m : IO A) : Prop := forall w, (m w).2 = w.

(** The world after [p] was written with [s]. *)
Definition written (p s : string) (w : world) : world :=
  {| os := {| files := <[p := File (clock (os w)) (Some s)
                                   (match files (os w) !! p with
                                    | Some f => readable f
                                    | None => true
                                    end)]> (files (os w));
              unwritable := unwritable (os w);
              clock := (clock (os w) + 1)%Z |};
     trace := trace w ++ [SysWrite p s] |}.

(** The world after writing the configuration [p] failed and
    [maybe_update_tsconfig_file] said so. *)
Definition write_reported (p : string) (w : world) : world :=
  log (PrintExn (PermissionError p))
    (log (Print ("Encountered error while writing generated tsconfig in location "
                 +:+ p +:+ ":"))
       (log (SysWriteFailed p) w)).

(** What [maybe_update_tsconfig_file] does once it knows it has to write. *)
Definition persist (loc new : string) (w : world) : result Z * world :=
  if bool_decide (loc ∈ unwritable (os w))
  then (Ok 1%Z, write_reported loc w)
  else (Ok 0%Z, written loc new w).

(** The world after [main] reported that the compiler failed. *)
Definition failure_reported (opts : options) (stderr : string) (w : world) : world :=
  log (Print "")
    (log (Print stderr)
       (log (Print "")
          (log (Print ("TypeScript compilation failed. Used tsconfig "
                       +:+ tsconfig_output_location opts))
             (log (Print "") w)))).

(** The number of writes among events. *)
Definition writes (evs : list event) : nat :=
  length (List.filter (fun e => match e with SysWrite _ _ => true | _ => false end) evs).

(** From [w] to [w'] no process was started. *)
Definition no_popen (w w' : world) : Prop :=
  exists evs, trace w' = trace w ++ evs /\ Forall (fun e => forall argv, e <> SysPopen argv) evs.

(** A template that is an object with an object of compiler options is
    turned into a document. *)
Definition well_formed (doc : json) : Prop :=
  exists d co, doc = JDict d /\ Dict.get d "compilerOptions" = Some (JDict co).

(** [doc[k]] of a document that is an object, if it has the key. *)
Definition field (doc : json) (k : string) : option json :=
  match doc with
  | JDict d => Dict.get d k
  | _ => None
  end.

(** [doc['compilerOptions'][k]], if both keys are there. *)
Definition compiler_option (doc : json) (k : string) : option json :=
  match field doc "compilerOptions" with
  | Some co => field co k
  | None => None
  end.

(** The path [main] writes for [file_to_resolve]:
    [get_relative_path_from_output_directory]. *)
Definition relative_to_output (E : env) (loc file_to_resolve : string) : string :=
  relpath E (Path.join (getcwd E) [file_to_resolve]) (Path.dirname loc).

(** What the assignments of [main] leave under the key [k] of a document
    made from the template [doc]: the later assignment wins, and a key
    [main] does not assign keeps what the template has. *)
Definition synthesized_field (E : env) (opts : options) (doc : json) (loc : string)
    (all_files : list string) (k : string) : option json :=
  let f0 := field doc k in
  let f1 :=
    if ("files" =? k)%string
    then Some (JList (map (fun x => JStr (relative_to_output E loc x)) all_files))
    else f0 in
  match deps opts with
  | Some ds =>
      if ("references" =? k)%string
      then Some (JList (map (fun src => JDict [("path", JStr src)]) ds))
      else f1
  | None => f1
  end.

(** The same for the key [k] of its [compilerOptions]. *)
Definition synthesized_option (E : env) (opts : options) (doc : json) (loc : string)
    (k : string) : option json :=
  let o0 := compiler_option doc k in
  let o1 := if ("module" =? k)%string then Some (JStr (module opts)) else o0 in
  let o2 :=
    if negb (verify_lib_check opts)
    then (if ("skipLibCheck" =? k)%string then Some (JBool true) else o1)
    else o1 in
  let o3 :=
    if ("rootDir" =? k)%string
    then Some (JStr (relative_to_output E loc (front_end_directory opts)))
    else o2 in
  let o4 :=
    if ("typeRoots" =? k)%string
    then Some (JList (if test_only opts
                      then [JStr (relative_to_output E loc (TYPES_NODE_MODULES_DIRECTORY E))]
                      else []))
    else o3 in
  let o5 :=
    if test_only opts
    then (if ("moduleResolution" =? k)%string then Some (JStr "node") else o4)
    else o4 in
  let o6 :=
    if no_emit opts
    then (if ("emitDeclarationOnly" =? k)%string then Some (JBool true) else o5)
    else o5 in
  let o7 := if ("outDir" =? k)%string then Some (JStr ".") else o6 in
  let o8 :=
    if ("tsBuildInfoFile" =? k)%string
    then Some (JStr (Path.basename loc +:+ ".tsbuildinfo"))
    else o7 in
  if ("lib" =? k)%string
  then Some (JList (JStr "esnext" ::
                    (if is_web_worker opts
                     then [JStr "webworker"; JStr "webworker.iterable"]
                     else [JStr "dom"; JStr "dom.iterable"])))
  else o8.


(** ** Sample runs *)

(** A stand-in for [json.dumps]: it writes every field, in order. *)
Fixpoint sample_dumps (doc : json) : string :=
  match doc with
  | JNull => "null"
  | JBool b => if b then "true" else "false"
  | JInt z => pretty z
  | JStr s => "'" +:+ s +:+ "'"
  | JList l => "[" +:+ Str.join ", " (map sample_dumps l) +:+ "]"
  | JDict d =>
      "{" +:+ Str.join ", " (map (fun kv => "'" +:+ kv.1 +:+ "': " +:+ sample_dumps kv.2) d)
          +:+ "}"
  end.

(** The files of a checkout built once before: the base configuration,
    and the script and the declarations of [a.ts] in the output
    directory [/w/out]. *)
Definition sample_files : gmap string file :=
  <["/src/third_party/typescript/../../tsconfig.base.json" := File 1 (Some "base") true]>
  (<["/w/out/a.js" := File 10 (Some "var a;") true]>
  (<["/w/out/a.d.ts" := File 10 (Some "declare var a;") true]> ∅)).

(** What a compiler run leaves: the same script written again, changed
    declarations and a new source map. *)
Definition sample_compile (o : os_state) : os_state :=
  {| files := <["/w/out/a.js" := File 20 (Some "var a;") true]>
              (<["/w/out/a.d.ts" := File 21 (Some "declare let a;") true]>
              (<["/w/out/a.js.map" := File 22 (Some "{}") true]> (files o)));
     unwritable := unwritable o;
     clock := (clock o + 3)%Z |}.

(** Surroundings in which the compiler ends with [returncode] and writes
    [stdout]. *)
Definition sample_env (returncode : Z) (stdout : string) : env :=
  {| script_file := "/src/third_party/typescript/ts_library.py";
     node_path := "/usr/bin/node";
     getcwd := "/w";
     relpath := fun path start => path;
     listdir := fun dir => ["lib.d.ts"; "tsc.js"];
     json_loads := fun s =>
       if (s =? "base")%string then Some (JDict [("compilerOptions", JDict [])]) else None;
     json_dumps := sample_dumps;
     Popen := fun argv o => ((returncode, stdout, EmptyString), sample_compile o) |}.

Definition sample_options (srcs : list string) : options :=
  {| sources := Some srcs;
     deps := None;
     front_end_directory := "front_end";
     tsconfig_output_location := "out/tsconfig.json";
     test_only := false;
     no_emit := false;
     verify_lib_check := false;
     is_web_worker := false;
     module := "esnext";
     use_rbe := false;
     rewrapper_binary := None;
     rewrapper_cfg := None;
     rewrapper_exec_root := None |}.

Definition sample_before : world :=
  {| os := {| files := sample_files; unwritable := ∅; clock := 12 |}; trace := [] |}.

Definition sample_after : world :=
  {| os := sample_compile (os sample_before); trace := [] |}.

(** The same checkout with a script of [a.ts] that cannot be opened. *)
Definition sample_locked : world :=
  {| os := {| files := <["/w/out/a.js" := File 10 (Some "var a;") false]> sample_files;
              unwritable := ∅;
              clock := 12 |};
     trace := [] |}.

(** The same checkout with a configuration that cannot be written. *)
Definition sample_readonly : world :=
  {| os := {| files := sample_files; unwritable := {["/w/out/tsconfig.json"]}; clock := 12 |};
     trace := [] |}.

Definition sample_snapshot : metadata :=
  [("a.d.ts", (10%Z, "declare var a;")); ("a.js", (10%Z, "var a;"))].


(** The same checkout with the configuration of an empty document
    already in place. *)
Definition sample_current : world :=
  {| os := {| files := <["/w/out/tsconfig.json" := File 5 (Some "{}") true]> sample_files;
              unwritable := ∅;
              clock := 12 |};
     trace := [] |}.

(** The document [main] makes of the sample template for no source. *)
Definition sample_tsconfig : json :=
  Eval vm_compute in
    match (synthesize (sample_env 0 "") (sample_options [])
             (JDict [("compilerOptions", JDict [])])
             (output_location (sample_env 0 "") (sample_options []))
             (all_ts_files (sample_env 0 "") (sample_options []))
             sample_before).1 with
    | Ok doc => doc
    | Raise _ => JNull
    end.


(** A template with fields of its own, besides the compiler options. *)
Definition sample_template : json :=
  JDict [("compilerOptions",
          JDict [("strict", JBool true); ("skipLibCheck", JBool false); ("outDir", JStr "gen")]);
         ("exclude", JList [JStr "node_modules"]);
         ("files", JList [JStr "old.ts"])].

(** The sample surroundings with [json.loads] giving [template] for the
    base configuration. *)
Definition sample_env_loading (template : json) : env :=
  {| script_file := script_file (sample_env 0 "");
     node_path := node_path (sample_env 0 "");
     getcwd := getcwd (sample_env 0 "");
     relpath := relpath (sample_env 0 "");
     listdir := listdir (sample_env 0 "");
     json_loads := fun s => if (s =? "base")%string then Some template else None;
     json_dumps := sample_dumps;
     Popen := Popen (sample_env 0 "") |}.

(** The sample options with [--verify-lib-check]. *)
Definition sample_options_verify (srcs : list string) : options :=
  {| sources := Some srcs;
     deps := Some ["../core/tsconfig.json"];
     front_end_directory := "front_end";
     tsconfig_output_location := "out/tsconfig.json";
     test_only := true;
     no_emit := false;
     verify_lib_check := true;
     is_web_worker := true;
     module := "commonjs";
     use_rbe := true;
     rewrapper_binary := None;
     rewrapper_cfg := None;
     rewrapper_exec_root := None |}.

(** The same checkout with a base configuration that is not JSON. *)
Definition sample_garbled : world :=
  {| os := {| files := <["/src/third_party/typescript/../../tsconfig.base.json"
                         := File 1 (Some "{") true]> sample_files;
              unwritable := ∅;
              clock := 12 |};
     trace := [] |}.

(** An output directory whose script of [a.ts] holds the statement
    [var a;] and a line ending, and has the modification time [t]. *)
Definition sample_line_ending (t : Z) (ending : string) : world :=
  {| os := {| files := <["/w/out/a.js" := file_of_bytes t ("var a;" +:+ ending)]> ∅;
              unwritable := ∅;
              clock := 30 |};
     trace := [] |}.

(** The condition [use_remote_execution] of [main]. *)
Definition use_remote_execution (opts : options) : bool :=
  use_rbe opts &&
  match deps opts with
  | None => true
  | Some ds => (length ds =? 0)%nat
  end.

(** The files of the keys have the snapshotted time where they have the
    snapshotted text. *)
Definition settled (snap : metadata) (dir : string) (o : os_state) : Prop :=
  forall k t c f,
    Dict.get snap k = Some (t, c) ->
    files o !! Path.join dir [k] = Some f ->
    readable f = true -> text f = Some c ->
    st_mtime f = t.

(** The file of an expected artifact of the run. *)
Definition artifact (E : env) (opts : options) (p : string) : Prop :=
  exists k, k ∈ expected_names (given_sources opts)
            /\ p = Path.join (output_directory E opts) [k].

(** What a run may do to the outside world: look at the base
    configuration, at the configuration and at the expected artifacts,
    write the configuration, set the time of an expected artifact, start
    a process and print. *)
Definition confined (E : env) (opts : options) (e : event) : Prop :=
  match e with
  | SysExists p => p = output_location E opts \/ artifact E opts p
  | SysStat p => artifact E opts p
  | SysOpenRead p =>
      p = BASE_TS_CONFIG_LOCATION E \/ p = output_location E opts \/ artifact E opts p
  | SysWrite p _ | SysWriteFailed p => p = output_location E opts
  | SysUtime p _ => artifact E opts p
  | SysPopen _ | Print _ | PrintExn _ => True
  end.

(** All that a computation adds to the trace satisfies [P]. *)
Definition emits {A : Type} (P : event -> Prop) (m : IO A) : Prop :=
  forall w, exists evs, trace (m w).2 = trace w ++ evs /\ Forall P evs.

(** An event that prints nothing. *)
Definition silent (e : event) : Prop :=
  match e with
  | Print _ | PrintExn _ => False
  | _ => True
  end.

(** A computation whose result is 0 exactly when it printed nothing, and
    which prints nothing when it raises. *)
Definition reports (m : IO Z) : Prop :=
  forall w, exists evs,
    trace (m w).2 = trace w ++ evs
    /\ match (m w).1 with
       | Ok code => code = 0%Z <-> Forall silent evs
       | Raise _ => Forall silent evs
       end.

(** * Properties *)

(** ** Strings and paths on examples *)

Example startswith_ex : Str.startswith "a.ts" "a." = true /\ Str.startswith "a" "a." = false.
Proof. split; reflexivity. Qed.

Example endswith_ex : Str.endswith "lib.dom.d.ts" ".d.ts" = true /\ Str.endswith "tsc.js" ".d.ts" = false.
Proof. split; reflexivity. Qed.

Example replace_ex :
  Str.replace "front_end/a.ts" ".ts" ".d.ts" = "front_end/a.d.ts"
  /\ Str.replace "a.ts.ts" ".ts" ".js" = "a.js.js"
  /\ Str.replace "aaa" "aa" "b" = "ba"
  /\ Str.replace "abc" "" "-" = "-a-b-c-".
Proof. repeat split; reflexivity. Qed.

Example path_ex :
  Path.join "out" ["a.js"] = "out/a.js"
  /\ Path.join "out/" ["a.js"] = "out/a.js"
  /\ Path.join "" ["a.js"] = "a.js"
  /\ Path.join "out" ["/abs/a.js"] = "/abs/a.js"
  /\ Path.join "root" [".."; ".."] = "root/../.."
  /\ Path.basename "gen/front_end/a.ts" = "a.ts"
  /\ Path.basename "a.ts" = "a.ts"
  /\ Path.basename "gen/" = ""
  /\ Path.dirname "gen/front_end/tsconfig.json" = "gen/front_end"
  /\ Path.dirname "/tsconfig.json" = "/"
  /\ Path.dirname "//a" = "//"
  /\ Path.dirname "a//b" = "a"
  /\ Path.dirname "tsconfig.json" = "".
Proof. repeat split; reflexivity. Qed.

(** ** Strings *)

Lemma app_String (c : ascii) (s t : string) : String c s +:+ t = String c (s +:+ t).
Proof. reflexivity. Qed.

Lemma app_empty_l (s : string) : EmptyString +:+ s = s.
Proof. reflexivity. Qed.

Lemma app_empty_r (s : string) : s +:+ EmptyString = s.
Proof. induction s as [|c s IH]; [reflexivity|]. rewrite app_String, IH. reflexivity. Qed.

Lemma app_assoc_str (s t u : string) : (s +:+ t) +:+ u = s +:+ (t +:+ u).
Proof. induction s as [|c s IH]; [reflexivity|]. rewrite !app_String, IH. reflexivity. Qed.

Lemma length_app_str (s t : string) :
  String.length (s +:+ t) = String.length s + String.length t.
Proof. induction s as [|c s IH]; [reflexivity|]. rewrite app_String. simpl. lia. Qed.

Lemma startswith_app (pre r : string) : Str.startswith (pre +:+ r) pre = true.
Proof.
  induction pre as [|c pre IH]; [destruct r; reflexivity|].
  rewrite app_String. simpl. rewrite Ascii.eqb_refl, IH. reflexivity.
Qed.

Lemma startswith_inv (s pre : string) :
  Str.startswith s pre = true -> exists r, s = pre +:+ r.
Proof.
  revert s. induction pre as [|c pre IH]; intros s H.
  - exists s. reflexivity.
  - destruct s as [|b s]; [discriminate|]. simpl in H.
    apply andb_true_iff in H as [Hc Hs]. apply Ascii.eqb_eq in Hc. subst b.
    destruct (IH _ Hs) as [r ->]. exists r. reflexivity.
Qed.

Lemma from_app (pre r : string) : Str.from (String.length pre) (pre +:+ r) = r.
Proof. induction pre as [|c pre IH]; [destruct r; reflexivity|]. exact IH. Qed.

(** Passing over [k] characters is resuming the scan [k] characters on. *)
Lemma replace_from_skip (old new : string) (k : nat) (s : string) :
  Str.replace_from old new k s = Str.replace_from old new 0 (Str.from k s).
Proof.
  revert k. induction s as [|c s IH]; intros [|k]; try reflexivity.
  simpl Str.from. rewrite <- IH. reflexivity.
Qed.

(** The two equations of the scan. *)
Lemma replace_from_match (old new r : string) :
  old <> EmptyString ->
  Str.replace_from old new 0 (old +:+ r) = new +:+ Str.replace_from old new 0 r.
Proof.
  intros Hne. destruct old as [|c old]; [congruence|].
  pose proof (startswith_app (String c old) r) as Hs.
  rewrite app_String in *. cbn [Str.replace_from]. rewrite Hs.
  rewrite replace_from_skip. simpl String.length.
  replace (S (String.length old) - 1) with (String.length old) by lia.
  rewrite from_app. reflexivity.
Qed.

Lemma replace_from_miss (old new : string) (c : ascii) (r : string) :
  Str.startswith (String c r) old = false ->
  Str.replace_from old new 0 (String c r) = String c (Str.replace_from old new 0 r).
Proof. intros H. cbn [Str.replace_from]. rewrite H. reflexivity. Qed.

Lemma startswith_length (s pre : string) :
  Str.startswith s pre = true -> String.length pre <= String.length s.
Proof.
  intros H. destruct (startswith_inv _ _ H) as [r ->]. rewrite length_app_str. lia.
Qed.

Lemma contains_app (a b : string) (c : ascii) :
  Str.contains (a +:+ b) c = Str.contains a c || Str.contains b c.
Proof.
  induction a as [|x a IH]; [reflexivity|].
  rewrite app_String. simpl. rewrite IH, orb_assoc. reflexivity.
Qed.

(** A pattern without [c] matches across a [c] only in front of it. *)
Lemma startswith_cut (h b old : string) (c : ascii) :
  Str.contains old c = false ->
  Str.startswith (h +:+ String c b) old = Str.startswith h old.
Proof.
  revert h. induction old as [|a old IH]; intros h Hc.
  - destruct h; reflexivity.
  - simpl in Hc. apply orb_false_iff in Hc as [Ha Hold].
    destruct h as [|x h].
    + rewrite app_empty_l. simpl. rewrite Ha. reflexivity.
    + rewrite app_String. simpl. rewrite (IH h Hold). reflexivity.
Qed.

(** Replacing a pattern without [c] by a text works on each side of a [c]
    on its own. *)
Lemma replace_from_cut (old new h b : string) (c : ascii) (k : nat) :
  old <> EmptyString ->
  Str.contains old c = false ->
  k <= String.length h ->
  Str.replace_from old new k (h +:+ String c b)
  = Str.replace_from old new k h +:+ String c (Str.replace_from old new 0 b).
Proof.
  intros Hne Hc. revert k. induction h as [|x h IH]; intros k Hk.
  - simpl in Hk. replace k with 0 by lia. rewrite app_empty_l.
    rewrite replace_from_miss; [reflexivity|].
    destruct old as [|a old]; [congruence|]. simpl in Hc |- *.
    apply orb_false_iff in Hc as [-> _]. reflexivity.
  - rewrite app_String. destruct k as [|k].
    + cbn [Str.replace_from]. rewrite <- app_String, (startswith_cut _ _ _ _ Hc).
      destruct (Str.startswith (String x h) old) eqn:Hs.
      * rewrite IH, app_assoc_str; [reflexivity|].
        apply startswith_length in Hs. simpl in Hs. lia.
      * rewrite IH by lia. reflexivity.
    + cbn [Str.replace_from]. apply IH. simpl in Hk. lia.
Qed.

Lemma replace_from_contains (old new s : string) (c : ascii) (k : nat) :
  Str.contains s c = false ->
  Str.contains new c = false ->
  Str.contains (Str.replace_from old new k s) c = false.
Proof.
  intros Hs Hn. revert k Hs. induction s as [|x s IH]; intros k Hs; [reflexivity|].
  simpl in Hs. apply orb_false_iff in Hs as [Hx Hs].
  destruct k as [|k]; cbn [Str.replace_from]; [|auto].
  destruct (Str.startswith (String x s) old).
  - rewrite contains_app, Hn, IH by assumption. reflexivity.
  - simpl. rewrite Hx, IH by assumption. reflexivity.
Qed.

(** ** Paths *)

Lemma rfind_absent (s : string) (c : ascii) :
  Str.contains s c = false -> Str.rfind s c = (-1)%Z.
Proof.
  induction s as [|a s IH]; intros H; [reflexivity|].
  simpl in H. apply orb_false_iff in H as [Ha Hs].
  simpl. rewrite (IH Hs), Ha. reflexivity.
Qed.

Lemma rfind_app (h b : string) (c : ascii) :
  Str.contains b c = false ->
  Str.rfind (h +:+ String c b) c = Z.of_nat (String.length h).
Proof.
  intros Hb. induction h as [|x h IH].
  - rewrite app_empty_l. simpl. rewrite (rfind_absent _ _ Hb), Ascii.eqb_refl. reflexivity.
  - rewrite app_String. cbn [Str.rfind]. rewrite IH.
    destruct (0 <=? Z.of_nat (String.length h))%Z eqn:H; [simpl String.length; lia|].
    apply Z.leb_gt in H. lia.
Qed.

Lemma basename_plain (p : string) :
  Str.contains p Path.sep = false -> Path.basename p = p.
Proof. intros H. unfold Path.basename. rewrite (rfind_absent _ _ H). reflexivity. Qed.

Lemma basename_app (h b : string) :
  Str.contains b Path.sep = false -> Path.basename (h +:+ String Path.sep b) = b.
Proof.
  intros H. unfold Path.basename. rewrite (rfind_app _ _ _ H).
  replace (Z.to_nat (Z.of_nat (String.length h) + 1)) with (String.length (h +:+ String Path.sep EmptyString)).
  - rewrite <- (from_app (h +:+ String Path.sep EmptyString) b) at 2.
    rewrite app_assoc_str. reflexivity.
  - rewrite length_app_str. simpl. lia.
Qed.

(** A path is a file name, or a head, a separator and a file name. *)
Lemma path_split (p : string) :
  Str.contains p Path.sep = false
  \/ exists h b, p = h +:+ String Path.sep b /\ Str.contains b Path.sep = false.
Proof.
  induction p as [|a p IH]; [left; reflexivity|].
  destruct IH as [Hp | (h & b & -> & Hb)].
  - destruct (Ascii.eqb a Path.sep) eqn:Ha.
    + right. apply Ascii.eqb_eq in Ha. subst a. exists EmptyString, p. split; [reflexivity|assumption].
    + left. simpl. rewrite Ha, Hp. reflexivity.
  - right. exists (String a h), b. split; [reflexivity|assumption].
Qed.

Lemma basename_no_sep (p : string) : Str.contains (Path.basename p) Path.sep = false.
Proof.
  destruct (path_split p) as [Hp | (h & b & -> & Hb)].
  - rewrite basename_plain; assumption.
  - rewrite basename_app; assumption.
Qed.

(** The base name of the replaced path is the replaced base name, for a
    pattern and a replacement without separator. *)
Lemma basename_replace (p old new : string) :
  old <> EmptyString ->
  Str.contains old Path.sep = false ->
  Str.contains new Path.sep = false ->
  Path.basename (Str.replace p old new) = Str.replace (Path.basename p) old new.
Proof.
  intros Hne Ho Hn.
  assert (Hr : forall s, Str.replace s old new = Str.replace_from old new 0 s)
    by (intros s; destruct old; [congruence|reflexivity]).
  rewrite !Hr. clear Hr.
  destruct (path_split p) as [Hp | (h & b & -> & Hb)].
  - rewrite (basename_plain p Hp). apply basename_plain.
    apply replace_from_contains; assumption.
  - rewrite (basename_app h b Hb).
    rewrite (replace_from_cut old new h b Path.sep 0 Hne Ho) by lia.
    apply basename_app. apply replace_from_contains; assumption.
Qed.


Lemma no_sep_relative (k : string) : Str.contains k Path.sep = false -> relative k.
Proof.
  unfold relative. destruct k as [|a k]; [reflexivity|].
  cbn [Str.startswith Str.contains].
  intros H. apply orb_false_iff in H as [Ha _].
  rewrite Ascii.eqb_sym, Ha. reflexivity.
Qed.


Lemma join_relative (dir k : string) :
  relative k -> Path.join dir [k] = join_head dir +:+ k.
Proof.
  unfold relative, Path.join, Path.join2, join_head. simpl. intros ->.
  destruct ((dir =? EmptyString)%string || _); [reflexivity|].
  rewrite app_assoc_str. reflexivity.
Qed.

Lemma join_inj (dir k k' : string) :
  relative k -> relative k' -> Path.join dir [k] = Path.join dir [k'] -> k = k'.
Proof.
  intros Hk Hk'. rewrite !join_relative by assumption. apply String.app_inj.
Qed.

(** ** Occurrences of a pattern *)

Lemma startswith_refl (s : string) : Str.startswith s s = true.
Proof. rewrite <- (app_empty_r s) at 1. apply startswith_app. Qed.

Lemma occurrences_suffix (stem old : string) :
  old <> EmptyString -> 1 <= Str.occurrences (stem +:+ old) old.
Proof.
  intros Hne. induction stem as [|c stem IH].
  - rewrite app_empty_l. destruct old as [|a old]; [congruence|].
    cbn [Str.occurrences]. rewrite startswith_refl. lia.
  - rewrite app_String. cbn [Str.occurrences]. lia.
Qed.

(** A name in which the pattern occurs once, at its end: the replacement
    is put in the place of that end. *)
Lemma replace_once (stem old new : string) :
  old <> EmptyString ->
  Str.occurrences (stem +:+ old) old = 1 ->
  Str.replace (stem +:+ old) old new = stem +:+ new.
Proof.
  intros Hne.
  replace (Str.replace (stem +:+ old) old new)
    with (Str.replace_from old new 0 (stem +:+ old))
    by (destruct old; [congruence|reflexivity]).
  induction stem as [|c stem IH]; intros Hocc.
  - rewrite !app_empty_l. rewrite <- (app_empty_r old) at 2.
    rewrite replace_from_match by assumption. apply app_empty_r.
  - rewrite !app_String in *. cbn [Str.occurrences] in Hocc.
    pose proof (occurrences_suffix stem old Hne) as Hge.
    destruct (Str.startswith (String c (stem +:+ old)) old) eqn:Hs; [lia|].
    rewrite (replace_from_miss _ _ _ _ Hs), IH by lia. reflexivity.
Qed.


(** A name ending in [.ts] in which [.ts] occurs also before the end:
    replacing every [.ts], by a text whose second character is not [t],
    gives a name that does not even start with what is before the last
    [.ts]. *)
Lemma replace_twice (stem ext tail : string) (b : ascii) :
  second ext = Some b -> b <> "t"%char ->
  2 <= Str.occurrences (stem +:+ ".ts") ".ts" ->
  Str.replace (stem +:+ ".ts") ".ts" ext <> stem +:+ tail.
Proof.
  intros Hb Hne. change (Str.replace (stem +:+ ".ts") ".ts" ext)
    with (Str.replace_from ".ts" ext 0 (stem +:+ ".ts")).
  induction stem as [|c stem IH]; intros Hocc.
  - exfalso. vm_compute in Hocc. lia.
  - rewrite !app_String in *. cbn [Str.occurrences] in Hocc.
    destruct (Str.startswith (String c (stem +:+ ".ts")) ".ts") eqn:Hs.
    + destruct (startswith_inv _ _ Hs) as [r Hr].
      cbn [Str.replace_from]. rewrite Hs.
      destruct stem as [|t stem]; [discriminate Hr|].
      rewrite !app_String in Hr. injection Hr as -> -> _.
      destruct ext as [|x [|y ext]]; try discriminate Hb.
      injection Hb as ->. rewrite !app_String. intros H. congruence.
    + rewrite (replace_from_miss _ _ _ _ Hs). intros H. injection H as H.
      revert H. apply IH. lia.
Qed.

(** ** Dictionaries *)

Lemma get_setitem {V : Type} (d : Dict.t V) (k k' : string) (v : V) :
  Dict.get (Dict.setitem d k v) k' = if (k =? k')%string then Some v else Dict.get d k'.
Proof.
  induction d as [|[k0 v0] d IH]; simpl.
  - reflexivity.
  - destruct (String.eqb_spec k0 k) as [->|Hne]; simpl.
    + destruct (k =? k')%string; reflexivity.
    + rewrite IH. destruct (String.eqb_spec k0 k') as [->|Hne'].
      * destruct (String.eqb_spec k k'); [congruence|reflexivity].
      * reflexivity.
Qed.

Lemma get_keys {V : Type} (d : Dict.t V) (k : string) :
  k ∈ Dict.keys d <-> is_Some (Dict.get d k).
Proof.
  unfold Dict.keys. induction d as [|[k0 v0] d IH]; simpl.
  - split; [intros H; inversion H | intros [? H]; discriminate].
  - rewrite elem_of_cons, IH. destruct (String.eqb_spec k0 k) as [->|Hne].
    + split; eauto.
    + split; [intros [?|?]; [congruence|assumption] | auto].
Qed.

(** ** Computations *)

Lemma bind_run {A B : Type} (m : IO A) (f : A -> IO B) (w : world) :
  (m ≫= f) w =
  match m w with
  | (Ok a, w') => f a w'
  | (Raise e, w') => (Raise e, w')
  end.
Proof. reflexivity. Qed.

Lemma for_each_cons {A S : Type} (x : A) (l : list A) (body : S -> A -> IO S) (s : S) (w : world) :
  for_each (x :: l) body s w =
  match body s x w with
  | (Ok s', w') => for_each l body s' w'
  | (Raise e, w') => (Raise e, w')
  end.
Proof. reflexivity. Qed.

Lemma for_each_app {A S : Type} (l1 l2 : list A) (body : S -> A -> IO S) (s : S) (w : world) :
  for_each (l1 ++ l2) body s w =
  match for_each l1 body s w with
  | (Ok s', w') => for_each l2 body s' w'
  | (Raise e, w') => (Raise e, w')
  end.
Proof.
  revert s w. induction l1 as [|x l1 IH]; intros s w; [reflexivity|].
  simpl app. rewrite !for_each_cons. destruct (body s x w) as [[s'|e] w']; [apply IH|reflexivity].
Qed.

(** The two loops of the snapshot are one loop over the expected names. *)
Lemma capture_loop (srcs : list string) (dir : string) (g : metadata) (w : world) :
  for_each srcs
    (fun gen_files src_fname =>
       for_each [".d.ts"; ".js"; ".map"]
         (fun gen_files ext => capture_step dir gen_files (gen_fname src_fname ext))
         gen_files) g w
  = for_each (expected_names srcs) (capture_step dir) g w.
Proof.
  revert g w. induction srcs as [|src srcs IH]; intros g w; [reflexivity|].
  rewrite for_each_cons. cbn [expected_names flat_map]. rewrite for_each_app.
  fold (expected_names srcs).
  replace (for_each (map (gen_fname src) [".d.ts"; ".js"; ".map"]) (capture_step dir) g w)
    with (for_each [".d.ts"; ".js"; ".map"]
            (fun gen_files ext => capture_step dir gen_files (gen_fname src ext)) g w)
    by reflexivity.
  destruct (for_each _ _ g w) as [[g'|e] w']; [apply IH|reflexivity].
Qed.

Lemma capture_unfold (srcs : list string) (dir : string) (w : world) :
  compute_previous_generated_file_metadata srcs dir w
  = for_each (expected_names srcs) (capture_step dir) [] w.
Proof. rewrite <- capture_loop. reflexivity. Qed.

Lemma reset_unfold (snap : metadata) (dir : string) (w : world) :
  maybe_reset_timestamps_on_generated_files snap dir w
  = for_each (Dict.keys snap) (reset_step snap dir) tt w.
Proof. reflexivity. Qed.

(** ** The snapshot *)

Lemma os_log (e : event) (w : world) : os (log e w) = os w.
Proof. reflexivity. Qed.

Lemma trace_log (e : event) (w : world) : trace (log e w) = trace w ++ [e].
Proof. reflexivity. Qed.

Lemma capture_step_run (dir : string) (g : metadata) (k : string) (w : world) :
  capture_step dir g k w =
  let p := Path.join dir [k] in
  let w3 := log (SysOpenRead p) (log (SysStat p) (log (SysExists p) w)) in
  match files (os w) !! p with
  | None => (Ok g, log (SysExists p) w)
  | Some f =>
      if readable f
      then match text f with
           | Some c => (Ok (Dict.setitem g k (st_mtime f, c)), w3)
           | None => (Raise (UnicodeDecodeError p), w3)
           end
      else (Raise (PermissionError p), w3)
  end.
Proof.
  unfold capture_step, read_text, os_path_exists, os_stat_st_mtime, open_r, fp_read,
    raise, mbind, IO_bind, mret, IO_ret.
  cbv zeta. rewrite ?os_log.
  destruct (files (os w) !! Path.join dir [k]) as [f|] eqn:Hf; [|reflexivity].
  repeat (progress (cbv beta iota zeta; rewrite ?os_log, ?Hf)).
  destruct (readable f); [|reflexivity].
  destruct (text f); reflexivity.
Qed.

(** Taking the snapshot leaves the file system as it is. *)
Lemma capture_step_os (dir : string) (g : metadata) (k : string) (w : world) :
  os (capture_step dir g k w).2 = os w.
Proof.
  rewrite capture_step_run. cbv zeta.
  destruct (files (os w) !! _) as [f|]; [|reflexivity].
  destruct (readable f); [|reflexivity]. destruct (text f); reflexivity.
Qed.

Lemma capture_names_os (dir : string) (names : list string) (g : metadata) (w : world) :
  os (for_each names (capture_step dir) g w).2 = os w.
Proof.
  revert g w. induction names as [|k names IH]; intros g w; [reflexivity|].
  rewrite for_each_cons. pose proof (capture_step_os dir g k w) as Hos.
  destruct (capture_step dir g k w) as [[g'|e] w1]; simpl in Hos.
  - rewrite IH. exact Hos.
  - exact Hos.
Qed.

(** When the loop returns, the snapshot holds, for each expected name
    whose file exists, what [entry] says, and every such file was read. *)
Lemma capture_names_ok (dir : string) (names : list string) (g snap : metadata) (w w' : world) :
  for_each names (capture_step dir) g w = (Ok snap, w') ->
  forall k,
    (k ∈ names -> ~ unreadable (os w) dir k)
    /\ ((k ∈ names /\ is_Some (entry (os w) dir k)
         /\ Dict.get snap k = entry (os w) dir k)
        \/ ((k ∉ names \/ entry (os w) dir k = None)
            /\ Dict.get snap k = Dict.get g k)).
Proof.
  revert g w. induction names as [|k0 names IH]; intros g w Hrun k.
  - injection Hrun as <- <-. split; [intros H; inversion H|].
    right. split; [left; intros H; inversion H | reflexivity].
  - rewrite for_each_cons in Hrun.
    rewrite capture_step_run in Hrun. cbv zeta in Hrun.
    unfold entry, unreadable in *.
    destruct (files (os w) !! Path.join dir [k0]) as [f|] eqn:Hf.
    + destruct (readable f) eqn:Hr; [|discriminate Hrun].
      destruct (text f) as [c|] eqn:Ht; [|discriminate Hrun].
      specialize (IH _ _ Hrun k). rewrite ?os_log in IH.
      destruct IH as [IHr IHg]. split.
      * intros Hin. apply elem_of_cons in Hin as [->|Hin]; [|auto].
        intros (f' & Hf' & Hbad). rewrite Hf in Hf'. injection Hf' as <-.
        destruct Hbad; congruence.
      * destruct IHg as [(Hin & Hsome & Hget) | (Hno & Hget)].
        -- left. split; [apply elem_of_cons; auto|]. split; assumption.
        -- rewrite get_setitem in Hget.
           destruct (String.eqb_spec k0 k) as [->|Hne].
           ++ left. rewrite Hf, Ht. split; [apply elem_of_cons; auto|].
              split; [eauto|assumption].
           ++ right. split; [|assumption].
              destruct Hno as [Hno|Hno]; [left|right; assumption].
              rewrite elem_of_cons. intros [?|?]; [congruence|auto].
    + specialize (IH _ _ Hrun k). rewrite ?os_log in IH.
      destruct IH as [IHr IHg]. split.
      * intros Hin. apply elem_of_cons in Hin as [->|Hin]; [|auto].
        intros (f' & Hf' & _). congruence.
      * destruct IHg as [(Hin & Hsome & Hget) | (Hno & Hget)].
        -- left. split; [apply elem_of_cons; auto|]. split; assumption.
        -- right. split; [|assumption].
           destruct (String.eqb_spec k0 k) as [->|Hne].
           ++ right. rewrite Hf. reflexivity.
           ++ destruct Hno as [Hno|Hno]; [left|right; assumption].
              rewrite elem_of_cons. intros [?|?]; [congruence|auto].
Qed.

(** When the loop raises, it does so at an expected name whose file
    exists and cannot be read, with the exception of that read. *)
Lemma capture_names_raise (dir : string) (names : list string) (g : metadata)
    (w w' : world) (e : exn) :
  for_each names (capture_step dir) g w = (Raise e, w') ->
  exists k, k ∈ names /\ unreadable (os w) dir k
            /\ (e = PermissionError (Path.join dir [k])
                \/ e = UnicodeDecodeError (Path.join dir [k])).
Proof.
  revert g w. induction names as [|k0 names IH]; intros g w Hrun; [discriminate|].
  rewrite for_each_cons in Hrun.
  rewrite capture_step_run in Hrun. cbv zeta in Hrun. unfold unreadable in *.
  destruct (files (os w) !! Path.join dir [k0]) as [f|] eqn:Hf.
  - destruct (readable f) eqn:Hr.
    + destruct (text f) as [c|] eqn:Ht.
      * destruct (IH _ _ Hrun) as (k & Hin & Hbad & He).
        rewrite ?os_log in Hbad. exists k. split; [apply elem_of_cons; auto|]. auto.
      * injection Hrun as <- _. exists k0. split; [apply elem_of_cons; auto|].
        split; [exists f; auto | auto].
    + injection Hrun as <- _. exists k0. split; [apply elem_of_cons; auto|].
      split; [exists f; auto | auto].
  - destruct (IH _ _ Hrun) as (k & Hin & Hbad & He).
    rewrite ?os_log in Hbad. exists k. split; [apply elem_of_cons; auto|]. auto.
Qed.

(** ** The reconciler *)

Lemma reset_step_run (snap : metadata) (dir k : string) (u : unit) (w : world) :
  reset_step snap dir u k w =
  let p := Path.join dir [k] in
  let w2 := log (SysOpenRead p) (log (SysExists p) w) in
  match files (os w) !! p with
  | None => (Ok tt, log (SysExists p) w)
  | Some f =>
      match Dict.get snap k with
      | None => (Raise (KeyError k), log (SysExists p) w)
      | Some (t, c) =>
          if readable f
          then match text f with
               | Some c' =>
                   if (c' =? c)%string then (Ok tt, touched p t f w2) else (Ok tt, w2)
               | None => (Raise (UnicodeDecodeError p), w2)
               end
          else (Raise (PermissionError p), w2)
      end
  end.
Proof.
  unfold reset_step, read_text, os_path_exists, os_utime, open_r, fp_read,
    raise, mbind, IO_bind, mret, IO_ret.
  cbv zeta.
  destruct (files (os w) !! Path.join dir [k]) as [f|] eqn:Hf; [|reflexivity].
  destruct (Dict.get snap k) as [[t c]|]; [|reflexivity].
  repeat (progress (cbv beta iota zeta; rewrite ?os_log, ?Hf)).
  destruct (readable f); [|reflexivity].
  destruct (text f) as [c'|]; [|reflexivity].
  destruct (c' =? c)%string; [|reflexivity].
  repeat (progress (cbv beta iota zeta; rewrite ?os_log, ?Hf)). reflexivity.
Qed.

Lemma reconcile_frame_refl (dir : string) (ks : list string) (w : world) :
  reconcile_frame dir ks w w.
Proof.
  repeat split; try reflexivity. exists []. rewrite app_nil_r. split; [reflexivity|constructor].
Qed.

Lemma reconcile_frame_trans (dir : string) (ks : list string) (a b c : world) :
  reconcile_frame dir ks a b -> reconcile_frame dir ks b c -> reconcile_frame dir ks a c.
Proof.
  intros (Hu1 & Hc1 & Hk1 & Hf1 & evs1 & Ht1 & He1) (Hu2 & Hc2 & Hk2 & Hf2 & evs2 & Ht2 & He2).
  split; [congruence|]. split; [congruence|].
  split; [intros q; rewrite Hk2; apply Hk1|]. split.
  - intros q Hq. rewrite Hf2 by assumption. apply Hf1. assumption.
  - exists (evs1 ++ evs2). rewrite Ht2, Ht1, app_assoc. split; [reflexivity|].
    apply Forall_app. split; assumption.
Qed.

Lemma reconcile_frame_log (dir : string) (ks : list string) (w : world) (e : event) :
  reconcile_event dir ks e -> reconcile_frame dir ks w (log e w).
Proof.
  intros He. repeat split; try reflexivity.
  exists [e]. split; [reflexivity|]. constructor; [assumption|constructor].
Qed.

Lemma reconcile_frame_touched (dir : string) (ks : list string) (k : string)
    (t : Z) (f : file) (w : world) :
  k ∈ ks -> files (os w) !! Path.join dir [k] = Some f ->
  reconcile_frame dir ks w (touched (Path.join dir [k]) t f w).
Proof.
  intros Hin Hf. unfold touched.
  split; [reflexivity|]. split; [reflexivity|]. cbn [os files set_files trace]. split; [|split].
  - intros q. destruct (decide (Path.join dir [k] = q)) as [<-|Hne].
    + rewrite lookup_insert_eq, Hf. reflexivity.
    + rewrite lookup_insert_ne by assumption. reflexivity.
  - intros q Hq. rewrite lookup_insert_ne; [reflexivity|]. apply Hq. assumption.
  - exists [SysUtime (Path.join dir [k]) t]. split; [reflexivity|].
    constructor; [|constructor]. exists k. split; [assumption|]. right. right. eauto.
Qed.

(** One turn of the loop: nothing but the modification time of the file
    of its key can change. *)
Lemma reset_step_frame (snap : metadata) (dir : string) (ks : list string)
    (k : string) (u : unit) (w : world) :
  k ∈ ks -> reconcile_frame dir ks w (reset_step snap dir u k w).2.
Proof.
  intros Hin. rewrite reset_step_run. cbv zeta.
  assert (He : reconcile_frame dir ks w (log (SysExists (Path.join dir [k])) w)).
  { apply reconcile_frame_log. exists k. auto. }
  assert (Hr : reconcile_frame dir ks w
                 (log (SysOpenRead (Path.join dir [k])) (log (SysExists (Path.join dir [k])) w))).
  { eapply reconcile_frame_trans; [exact He|]. apply reconcile_frame_log. exists k. auto. }
  destruct (files (os w) !! Path.join dir [k]) as [f|] eqn:Hf; [|exact He].
  destruct (Dict.get snap k) as [[t c]|]; [|exact He].
  destruct (readable f); [|exact Hr].
  destruct (text f) as [c'|]; [|exact Hr].
  destruct (c' =? c)%string; [|exact Hr].
  eapply reconcile_frame_trans; [exact Hr|].
  apply reconcile_frame_touched; assumption.
Qed.

(** A property of every turn that composes holds of the loop. *)
Lemma for_each_rel {A S : Type} (I : world -> Prop) (R : world -> world -> Prop)
    (l : list A) (body : S -> A -> IO S) :
  (forall w, R w w) ->
  (forall a b c, R a b -> R b c -> R a c) ->
  (forall s x w, x ∈ l -> I w -> R w (body s x w).2 /\ I (body s x w).2) ->
  forall s w, I w -> R w (for_each l body s w).2 /\ I (for_each l body s w).2.
Proof.
  intros Hrefl Htrans. induction l as [|x l IH]; intros Hstep s w HI.
  - split; [apply Hrefl|exact HI].
  - rewrite for_each_cons.
    destruct (Hstep s x w (list_elem_of_here _ _) HI) as [HR HI1].
    destruct (body s x w) as [[s'|e] w1]; simpl in HR, HI1; [|split; assumption].
    destruct (IH (fun s y w Hy => Hstep s y w (list_elem_of_further _ _ _ Hy)) s' w1 HI1)
      as [HR2 HI2].
    split; [eapply Htrans; eassumption|exact HI2].
Qed.

Lemma reset_frame (snap : metadata) (dir : string) (w : world) :
  reconcile_frame dir (Dict.keys snap) w
    (maybe_reset_timestamps_on_generated_files snap dir w).2.
Proof.
  rewrite reset_unfold.
  apply (for_each_rel (fun _ => True) (reconcile_frame dir (Dict.keys snap))).
  - apply reconcile_frame_refl.
  - apply reconcile_frame_trans.
  - intros s x w0 Hx _. split; [apply reset_step_frame; assumption|exact I].
  - exact I.
Qed.




Lemma frame_other (dir k q : string) (w w' : world) :
  Path.join dir [k] <> q ->
  reconcile_frame dir [k] w w' -> files (os w') !! q = files (os w) !! q.
Proof.
  intros Hne (_ & _ & _ & Hf & _). apply Hf. intros k' Hk'.
  apply list_elem_of_singleton in Hk'. subst k'. assumption.
Qed.

(** The file of a key whose text is the snapshotted one gets the
    snapshotted modification time. *)
Lemma reset_restores (snap : metadata) (dir : string) (ks : list string)
    (k0 : string) (t : Z) (c : string) (w w' : world) (f : file) :
  Forall relative ks -> relative k0 ->
  Dict.get snap k0 = Some (t, c) ->
  files (os w) !! Path.join dir [k0] = Some f ->
  text f = Some c -> readable f = true ->
  k0 ∈ ks \/ st_mtime f = t ->
  for_each ks (reset_step snap dir) tt w = (Ok tt, w') ->
  files (os w') !! Path.join dir [k0] = Some (File t (Some c) true).
Proof.
  intros Hrel Hk0 Hget. revert w f.
  induction ks as [|x ks IH]; intros w f Hf Ht Hr Hin Hrun.
  - injection Hrun as <-. destruct Hin as [Hin|Hm]; [inversion Hin|].
    rewrite Hf. destruct f; simpl in *. congruence.
  - rewrite for_each_cons in Hrun. apply Forall_cons in Hrel as [Hx Hrel].
    destruct (decide (x = k0)) as [->|Hne].
    + rewrite reset_step_run in Hrun. cbv zeta in Hrun.
      rewrite Hf, Hget, Hr, Ht, String.eqb_refl in Hrun.
      eapply (IH Hrel _ (File t (Some c) true)); [|reflexivity|reflexivity|auto|exact Hrun].
      unfold touched. cbn [os files set_files]. rewrite lookup_insert_eq, Ht, Hr. reflexivity.
    + assert (Hp : Path.join dir [x] <> Path.join dir [k0]).
      { intros Heq. apply Hne. eapply join_inj; eassumption. }
      pose proof (reset_step_frame snap dir [x] x tt w (list_elem_of_here _ _)) as Hfr.
      destruct (reset_step snap dir tt x w) as [[[]|e] w1]; [|discriminate Hrun].
      simpl in Hfr. pose proof (frame_other _ _ _ _ _ Hp Hfr) as Hsame.
      eapply (IH Hrel w1 f); [congruence|assumption|assumption| |exact Hrun].
      destruct Hin as [Hin|Hm]; [|auto].
      apply elem_of_cons in Hin as [?|?]; [congruence|auto].
Qed.


(** Whether a file can be read is not changed by changing times. *)
Lemma unreadable_frame (dir : string) (ks : list string) (k : string) (w w' : world) :
  reconcile_frame dir ks w w' -> unreadable (os w') dir k -> unreadable (os w) dir k.
Proof.
  intros (_ & _ & Hc & _) (f' & Hf' & Hbad). specialize (Hc (Path.join dir [k])).
  rewrite Hf' in Hc. destruct (files (os w) !! Path.join dir [k]) as [f|] eqn:Hf;
    [|discriminate Hc].
  exists f. split; [exact Hf|]. injection Hc as Ht Hr. rewrite <- Ht, <- Hr. exact Hbad.
Qed.

(** The reconciler returns when the files of the snapshot that are still
    there can be read. *)
Lemma reset_loop_returns (snap : metadata) (dir : string) (ks : list string) (w : world) :
  (forall k, k ∈ ks -> is_Some (Dict.get snap k)) ->
  (forall k, k ∈ ks -> ~ unreadable (os w) dir k) ->
  exists w', for_each ks (reset_step snap dir) tt w = (Ok tt, w').
Proof.
  revert w. induction ks as [|x ks IH]; intros w Hkeys Hread; [eexists; reflexivity|].
  rewrite for_each_cons.
  pose proof (reset_step_frame snap dir [x] x tt w (list_elem_of_here _ _)) as Hfr.
  assert (Hok : exists w1, reset_step snap dir tt x w = (Ok tt, w1)).
  { rewrite reset_step_run. cbv zeta.
    destruct (Hkeys x (list_elem_of_here _ _)) as [[t c] Hget]. rewrite Hget.
    destruct (files (os w) !! Path.join dir [x]) as [f|] eqn:Hf; [|eexists; reflexivity].
    destruct (readable f) eqn:Hr.
    - destruct (text f) as [c'|] eqn:Ht.
      + destruct (c' =? c)%string; eexists; reflexivity.
      + exfalso. apply (Hread x (list_elem_of_here _ _)). exists f. auto.
    - exfalso. apply (Hread x (list_elem_of_here _ _)). exists f. auto. }
  destruct Hok as [w1 Hw1]. rewrite Hw1 in *. cbn [snd] in Hfr. apply IH.
  - intros k Hk. apply Hkeys. apply list_elem_of_further. assumption.
  - intros k Hk Hbad. apply (Hread k (list_elem_of_further _ _ _ Hk)).
    eapply unreadable_frame; eassumption.
Qed.

Lemma reset_returns (snap : metadata) (dir : string) (w : world) :
  (forall k, k ∈ Dict.keys snap -> ~ unreadable (os w) dir k) ->
  exists w', maybe_reset_timestamps_on_generated_files snap dir w = (Ok tt, w').
Proof.
  intros Hread. rewrite reset_unfold. apply reset_loop_returns; [|assumption].
  intros k Hk. apply get_keys. assumption.
Qed.

(** ** The names of the snapshot *)

Lemma expected_no_sep (srcs : list string) (k : string) :
  k ∈ expected_names srcs -> Str.contains k Path.sep = false.
Proof.
  unfold expected_names. intros Hin. apply list_elem_of_In, in_flat_map in Hin.
  destruct Hin as (src & _ & Hk). apply in_map_iff in Hk as (ext & <- & _).
  apply basename_no_sep.
Qed.

Lemma snapshot_keys (srcs : list string) (dir : string) (w w' : world) (snap : metadata) :
  compute_previous_generated_file_metadata srcs dir w = (Ok snap, w') ->
  forall k, k ∈ Dict.keys snap -> k ∈ expected_names srcs.
Proof.
  rewrite capture_unfold. intros Hrun k Hk. apply get_keys in Hk.
  destruct (capture_names_ok _ _ _ _ _ _ Hrun k) as [_ [(Hin & _) | (_ & Hget)]]; [assumption|].
  rewrite Hget in Hk. destruct Hk as [? Hk]. discriminate Hk.
Qed.

Lemma snapshot_keys_relative (srcs : list string) (dir : string) (w w' : world)
    (snap : metadata) :
  compute_previous_generated_file_metadata srcs dir w = (Ok snap, w') ->
  Forall relative (Dict.keys snap).
Proof.
  intros Hrun. apply Forall_forall. intros k Hk.
  apply no_sep_relative. eapply expected_no_sep. eapply snapshot_keys; eassumption.
Qed.

Lemma snapshot_entry (srcs : list string) (dir : string) (w w' : world) (snap : metadata)
    (k : string) (v : Z * string) :
  compute_previous_generated_file_metadata srcs dir w = (Ok snap, w') ->
  Dict.get snap k = Some v ->
  k ∈ expected_names srcs /\ entry (os w) dir k = Some v.
Proof.
  rewrite capture_unfold. intros Hrun Hget.
  destruct (capture_names_ok _ _ _ _ _ _ Hrun k) as [_ [(Hin & _ & He) | (_ & Hg)]].
  - split; [assumption|congruence].
  - rewrite Hget in Hg. discriminate Hg.
Qed.

(** ** Timestamps of the artifacts *)

(** C1: an artifact of the snapshot that exists after the compiler ran and
    whose text, read again, is the snapshotted text, has after
    [maybe_reset_timestamps_on_generated_files] the modification time the
    snapshot recorded, which is the one it had before the invocation,
    whatever time the compiler left on it. *)
Theorem timestamp_preserved (srcs : list string) (dir : string)
    (before before' after after' : world) (snap : metadata)
    (k : string) (t : Z) (c : string) (f : file) :
  compute_previous_generated_file_metadata srcs dir before = (Ok snap, before') ->
  Dict.get snap k = Some (t, c) ->
  files (os after) !! Path.join dir [k] = Some f ->
  readable f = true ->
  text f = Some c ->
  maybe_reset_timestamps_on_generated_files snap dir after = (Ok tt, after') ->
  (exists f0, files (os before) !! Path.join dir [k] = Some f0 /\ st_mtime f0 = t)
  /\ exists f', files (os after') !! Path.join dir [k] = Some f'
                /\ st_mtime f' = t /\ text f' = Some c.
Proof.
  intros Hcap Hget Hf Hr Ht Hrun.
  destruct (snapshot_entry _ _ _ _ _ _ _ Hcap Hget) as [Hin He].
  split.
  - unfold entry in He. destruct (files (os before) !! Path.join dir [k]) as [f0|]; [|discriminate].
    exists f0. split; [reflexivity|]. destruct (text f0); congruence.
  - exists (File t (Some c) true). split; [|split; reflexivity].
    rewrite reset_unfold in Hrun.
    eapply reset_restores; try eassumption.
    + eapply snapshot_keys_relative; eassumption.
    + apply no_sep_relative. eapply expected_no_sep; eassumption.
    + left. apply get_keys. eauto.
Qed.

Lemma timestamp_preserved_witness :
  (exists f0, files (os sample_before) !! Path.join "/w/out" ["a.js"] = Some f0 /\ st_mtime f0 = 10%Z)
  /\ exists f', files (os (maybe_reset_timestamps_on_generated_files
                             sample_snapshot "/w/out" sample_after).2)
                  !! Path.join "/w/out" ["a.js"] = Some f'
                /\ st_mtime f' = 10%Z /\ text f' = Some "var a;".
Proof.
  apply (timestamp_preserved ["front_end/a.ts"] "/w/out" sample_before
           (compute_previous_generated_file_metadata ["front_end/a.ts"] "/w/out" sample_before).2
           sample_after _ sample_snapshot "a.js" 10 "var a;" (File 20 (Some "var a;") true)).
  - vm_compute. reflexivity.
  - reflexivity.
  - vm_compute. reflexivity.
  - reflexivity.
  - reflexivity.
  - vm_compute. reflexivity.
Defined.

(** C2: the claim fails on an artifact that the compiler wrote again with
    other line endings. The script [a.js] held [var a;] and CR LF and had
    the time 10 when the snapshot was taken; the compiler wrote [var a;]
    and LF, at time 20. The content of the file differs from the one
    before, but both are read as the same text, so
    [maybe_reset_timestamps_on_generated_files] calls [os.utime] and the
    file has the time 10 again: it is not left as the compiler left it. *)
Theorem line_ending_change_is_reset :
  let crlf := String Str.CR (String Str.LF EmptyString) in
  let lf := String Str.LF EmptyString in
  let before := sample_line_ending 10 crlf in
  let after := sample_line_ending 20 lf in
  "var a;" +:+ crlf <> "var a;" +:+ lf
  /\ (compute_previous_generated_file_metadata ["front_end/a.ts"] "/w/out" before).1
     = Ok [("a.js", (10%Z, "var a;" +:+ lf))]
  /\ files (os after) !! "/w/out/a.js" = Some (file_of_bytes 20 ("var a;" +:+ lf))
  /\ exists after',
       maybe_reset_timestamps_on_generated_files
         [("a.js", (10%Z, "var a;" +:+ lf))] "/w/out" after = (Ok tt, after')
       /\ files (os after') !! "/w/out/a.js" = Some (file_of_bytes 10 ("var a;" +:+ lf))
       /\ trace after'
          = [SysExists "/w/out/a.js"; SysOpenRead "/w/out/a.js"; SysUtime "/w/out/a.js" 10].
Proof.
  cbv zeta. split; [discriminate|]. split; [vm_compute; reflexivity|].
  split; [vm_compute; reflexivity|].
  eexists. split; [vm_compute; reflexivity|]. split; vm_compute; reflexivity.
Qed.

(** C9: [maybe_reset_timestamps_on_generated_files] makes its system calls
    on the files of the snapshot's keys only, and they are existence
    tests, reads and [os.utime]; a file that is not the file of a key is
    not looked at and stays as it is; and of no file does the text (or
    whether it exists or can be read) change, only modification times. *)
Theorem reconcile_touches_only_snapshot (snap : metadata) (dir : string) (w : world) :
  let w' := (maybe_reset_timestamps_on_generated_files snap dir w).2 in
  (exists evs, trace w' = trace w ++ evs
               /\ Forall (reconcile_event dir (Dict.keys snap)) evs)
  /\ (forall q, (forall k, k ∈ Dict.keys snap -> Path.join dir [k] <> q) ->
                files (os w') !! q = files (os w) !! q)
  /\ (forall q, content <$> (files (os w') !! q) = content <$> (files (os w) !! q))
  /\ unwritable (os w') = unwritable (os w)
  /\ clock (os w') = clock (os w).
Proof.
  cbv zeta. destruct (reset_frame snap dir w) as (Hu & Hc & Hk & Hf & Hev).
  repeat split; assumption.
Qed.

(** ** What the snapshot holds *)

(** C8, as the code has it: the snapshot leaves the file system as it is;
    an expected artifact that does not exist is left out of it and the loop
    goes on; an expected artifact that exists and cannot be read makes
    [compute_previous_generated_file_metadata] raise the exception of the
    read, which ends the run, since [main] does not catch it; so the
    entries of a snapshot are exactly the expected artifacts that exist,
    all of them read, with their modification time and text. *)
Theorem snapshot_of_existing_artifacts (srcs : list string) (dir : string) (w : world) :
  let r := compute_previous_generated_file_metadata srcs dir w in
  os r.2 = os w
  /\ match r.1 with
     | Ok snap =>
         (forall k, k ∈ expected_names srcs -> ~ unreadable (os w) dir k)
         /\ (forall k v, Dict.get snap k = Some v
                         <-> k ∈ expected_names srcs /\ entry (os w) dir k = Some v)
     | Raise e =>
         (exists k, k ∈ expected_names srcs /\ unreadable (os w) dir k
                    /\ (e = PermissionError (Path.join dir [k])
                        \/ e = UnicodeDecodeError (Path.join dir [k])))
         /\ (forall E opts all_ts_files tsconfig_location,
                Path.dirname tsconfig_location = dir ->
                compile_and_reconcile E opts srcs all_ts_files tsconfig_location w
                = (Raise e, r.2))
     end.
Proof.
  cbv zeta. split.
  - rewrite capture_unfold. apply capture_names_os.
  - destruct (compute_previous_generated_file_metadata srcs dir w) as [[snap|e] w'] eqn:Hrun;
      cbn [fst snd].
    + split.
      * intros k Hk. rewrite capture_unfold in Hrun.
        exact (proj1 (capture_names_ok _ _ _ _ _ _ Hrun k) Hk).
      * intros k v. split; [apply (snapshot_entry _ _ _ _ _ _ _ Hrun)|].
        intros [Hin He]. rewrite capture_unfold in Hrun.
        destruct (capture_names_ok _ _ _ _ _ _ Hrun k) as [_ [(_ & _ & Hg) | ([Hno|Hno] & _)]];
          congruence.
    + split.
      * rewrite capture_unfold in Hrun. eapply capture_names_raise; eassumption.
      * intros E opts all_ts_files loc <-. unfold compile_and_reconcile.
        cbv zeta. rewrite bind_run, Hrun. reflexivity.
Qed.

(** C8, as the claim has it, fails: the script of [a.ts] exists and cannot
    be opened; the snapshot raises instead of leaving it out, and the run
    ends with status 1 before the compiler is started. *)
Lemma snapshot_unreadable_aborts :
  (compute_previous_generated_file_metadata ["front_end/a.ts"] "/w/out" sample_locked).1
  = Raise (PermissionError "/w/out/a.js")
  /\ (script (sample_env 0 "") (sample_options ["front_end/a.ts"]) sample_locked).1 = 1%Z
  /\ Forall (fun e => forall argv, e <> SysPopen argv)
       (trace (script (sample_env 0 "") (sample_options ["front_end/a.ts"]) sample_locked).2).
Proof.
  split; [vm_compute; reflexivity|]. split; [vm_compute; reflexivity|].
  vm_compute. repeat constructor; discriminate.
Qed.

(** ** The names of the generated files *)

(** C10: the name the snapshot looks for is the base name of the source
    with every [.ts] replaced by the extension; when [.ts] occurs in the
    base name once, at its end, that is the base name with its extension
    replaced; when [.ts] occurs also before the end, it is another name,
    and the snapshot of that source has no entry under the name with the
    extension replaced. *)
Theorem generated_names (src ext stem : string) :
  In ext [".d.ts"; ".js"; ".map"] ->
  gen_fname src ext = Str.replace (Path.basename src) ".ts" ext
  /\ (Path.basename src = stem +:+ ".ts" ->
      Str.occurrences (Path.basename src) ".ts" = 1 ->
      gen_fname src ext = stem +:+ ext)
  /\ (Path.basename src = stem +:+ ".ts" ->
      2 <= Str.occurrences (Path.basename src) ".ts" ->
      gen_fname src ext <> stem +:+ ext
      /\ forall dir w snap w',
           compute_previous_generated_file_metadata [src] dir w = (Ok snap, w') ->
           Dict.get snap (stem +:+ ext) = None).
Proof.
  intros Hext.
  assert (Hname : forall e, In e [".d.ts"; ".js"; ".map"] ->
            gen_fname src e = Str.replace (Path.basename src) ".ts" e
            /\ exists b, second e = Some b /\ b <> "t"%char).
  { intros e He. split.
    - unfold gen_fname. apply basename_replace; [discriminate|reflexivity|].
      destruct He as [<-|[<-|[<-|[]]]]; reflexivity.
    - destruct He as [<-|[<-|[<-|[]]]]; eexists; (split; [reflexivity|discriminate]). }
  destruct (Hname ext Hext) as [Hgen (b & Hb & Hbt)].
  split; [exact Hgen|]. split.
  - intros Hstem Hocc. rewrite Hgen, Hstem in *. apply replace_once; [discriminate|assumption].
  - intros Hstem Hocc. rewrite Hstem in *. split.
    + rewrite Hgen. eapply replace_twice; eassumption.
    + intros dir w snap w' Hrun.
      destruct (Dict.get snap (stem +:+ ext)) as [v|] eqn:Hget; [exfalso|reflexivity].
      destruct (snapshot_entry _ _ _ _ _ _ _ Hrun Hget) as [Hin _].
      unfold expected_names in Hin. cbn [flat_map] in Hin. rewrite app_nil_r in Hin.
      apply list_elem_of_In, in_map_iff in Hin as (e & He & Hine).
      destruct (Hname e Hine) as [Hgen' (b' & Hb' & Hbt')].
      rewrite Hgen' in He. revert He. eapply replace_twice; eassumption.
Qed.

Lemma generated_names_witness :
  gen_fname "front_end/a.ts" ".d.ts" = "a.d.ts"
  /\ gen_fname "front_end/a.ts.ts" ".js" = "a.js.js"
  /\ gen_fname "front_end/a.ts.ts" ".js" <> "a.ts.js".
Proof.
  destruct (generated_names "front_end/a.ts" ".d.ts" "a") as (_ & Honce & _);
    [simpl; auto|].
  destruct (generated_names "front_end/a.ts.ts" ".js" "a.ts") as (Hall & _ & Htwice);
    [simpl; auto|].
  split; [apply Honce; reflexivity|]. split; [rewrite Hall; reflexivity|].
  apply Htwice; [reflexivity|vm_compute; lia].
Defined.

(** ** Writing the configuration *)

Lemma maybe_update_run (E : env) (loc : string) (doc : json) (w : world) :
  maybe_update_tsconfig_file E loc doc w =
  let new := json_dumps E doc in
  let w1 := log (SysExists loc) w in
  let w2 := log (SysOpenRead loc) w1 in
  match files (os w) !! loc with
  | None => persist loc new w1
  | Some f =>
      if readable f
      then match text f with
           | Some old => if (new =? old)%string then (Ok 0%Z, w2) else persist loc new w2
           | None => (Raise (UnicodeDecodeError loc), w2)
           end
      else (Raise (PermissionError loc), w2)
  end.
Proof.
  unfold maybe_update_tsconfig_file, persist, read_text, os_path_exists, open_r, fp_read,
    write_text, try_except, print, print_exn, raise, mbind, IO_bind, mret, IO_ret.
  cbv zeta.
  destruct (files (os w) !! loc) as [f|] eqn:Hf.
  - repeat (progress (cbv beta iota zeta; rewrite ?os_log, ?Hf)).
    destruct (readable f); [|reflexivity].
    destruct (text f) as [old|]; [|reflexivity].
    repeat (progress (cbv beta iota zeta; rewrite ?os_log, ?Hf)).
    destruct (json_dumps E doc =? old)%string; cbn [negb]; [reflexivity|].
    repeat (progress (cbv beta iota zeta; rewrite ?os_log, ?Hf)).
    destruct (bool_decide _); [reflexivity|].
    unfold written. rewrite ?os_log, Hf. reflexivity.
  - repeat (progress (cbv beta iota zeta; rewrite ?os_log, ?Hf)).
    destruct (bool_decide _); [reflexivity|].
    unfold written. rewrite ?os_log, Hf. reflexivity.
Qed.

Lemma written_lookup (p s : string) (w : world) :
  files (os (written p s w)) !! p
  = Some (File (clock (os w)) (Some s)
               (match files (os w) !! p with Some f => readable f | None => true end)).
Proof. unfold written. cbn [os files]. apply lookup_insert_eq. Qed.

Lemma os_write_reported (p : string) (w : world) : os (write_reported p w) = os w.
Proof. reflexivity. Qed.

Lemma trace_log2 (e1 e2 : event) (w : world) :
  trace (log e2 (log e1 w)) = trace w ++ [e1; e2].
Proof. rewrite !trace_log, <- app_assoc. reflexivity. Qed.

Lemma trace_written (p s : string) (w : world) (evs : list event) (w0 : world) :
  trace w = trace w0 ++ evs -> trace (written p s w) = trace w0 ++ evs ++ [SysWrite p s].
Proof. intros H. unfold written. cbn [trace]. rewrite H, <- app_assoc. reflexivity. Qed.

Lemma trace_write_reported (p : string) (w : world) (evs : list event) (w0 : world) :
  trace w = trace w0 ++ evs ->
  trace (write_reported p w)
  = trace w0 ++ evs ++
    [SysWriteFailed p;
     Print ("Encountered error while writing generated tsconfig in location " +:+ p +:+ ":");
     PrintExn (PermissionError p)].
Proof.
  intros H. unfold write_reported. rewrite !trace_log, H, <- !app_assoc. reflexivity.
Qed.

(** Membership of an event in an explicit list of events. *)
Ltac event_in H :=
  repeat (apply elem_of_cons in H as [H|H];
          [first [discriminate H | injection H as -> ->; split; reflexivity]|]);
  inversion H.

(** C3, as the code has it: [maybe_update_tsconfig_file] writes nothing
    but the serialized document, at the path it is given, and writes it
    exactly when it can and the file is absent or holds another text; so
    of two calls in a row with the same document the first writes at most
    once and the second does not write. *)
Theorem config_written_when_changed (E : env) (loc : string) (doc : json) (w : world) :
  let new := json_dumps E doc in
  let first := maybe_update_tsconfig_file E loc doc w in
  let second := maybe_update_tsconfig_file E loc doc first.2 in
  exists evs1 evs2,
    trace first.2 = trace w ++ evs1
    /\ trace second.2 = trace first.2 ++ evs2
    /\ (forall p s, SysWrite p s ∈ evs1 -> p = loc /\ s = new)
    /\ (writes evs1 = 1
        <-> ((loc ∉ unwritable (os w))
             /\ (files (os w) !! loc = None
                 \/ exists f old, files (os w) !! loc = Some f /\ readable f = true
                                  /\ text f = Some old /\ old <> new)))
    /\ writes evs1 <= 1
    /\ writes evs2 = 0
    /\ (first.1 = Ok 0%Z -> second.1 = Ok 0%Z /\ os second.2 = os first.2).
Proof.
  cbv zeta. set (new := json_dumps E doc).
  rewrite (maybe_update_run E loc doc w). cbv zeta. fold new.
  set (msg := Print ("Encountered error while writing generated tsconfig in location "
                     +:+ loc +:+ ":")).
  destruct (files (os w) !! loc) as [f|] eqn:Hf.
  - destruct (readable f) eqn:Hr.
    + destruct (text f) as [old|] eqn:Ht.
      * destruct (String.eqb_spec new old) as [Heq|Hne].
        -- cbn [fst snd]. rewrite maybe_update_run. cbv zeta. fold new.
           rewrite ?os_log, Hf, Hr, Ht. subst old. rewrite String.eqb_refl.
           cbn [fst snd].
           exists [SysExists loc; SysOpenRead loc], [SysExists loc; SysOpenRead loc].
           rewrite !trace_log2. split; [reflexivity|]. split; [reflexivity|].
           split; [intros p s Hin; event_in Hin|].
           split; [split; [discriminate|]|].
           { intros [_ [Hnone|(f' & old & Hf' & _ & Ht' & Hne)]]; congruence. }
           split; [cbn; lia|]. split; [reflexivity|]. intros _. split; reflexivity.
        -- unfold persist. rewrite ?os_log. case_bool_decide as Hw.
           ++ cbn [fst snd]. rewrite maybe_update_run. cbv zeta. fold new.
              rewrite ?os_write_reported, ?os_log, Hf, Hr, Ht.
              destruct (String.eqb_spec new old) as [?|_]; [congruence|].
              unfold persist. rewrite ?os_log. rewrite bool_decide_true by assumption.
              cbn [fst snd].
              exists [SysExists loc; SysOpenRead loc; SysWriteFailed loc; msg;
                      PrintExn (PermissionError loc)],
                     [SysExists loc; SysOpenRead loc; SysWriteFailed loc; msg;
                      PrintExn (PermissionError loc)].
              split; [apply (trace_write_reported loc _ [SysExists loc; SysOpenRead loc] w),
                        trace_log2|].
              split; [apply (trace_write_reported loc _ [SysExists loc; SysOpenRead loc]),
                        trace_log2|].
              split; [intros p s Hin; event_in Hin|].
              split; [split; [discriminate|tauto]|].
              split; [cbn; lia|]. split; [reflexivity|]. discriminate.
           ++ cbn [fst snd]. rewrite maybe_update_run. cbv zeta. fold new.
              rewrite written_lookup, ?os_log, Hf, Hr. cbn [readable text].
              rewrite String.eqb_refl.
              cbn [fst snd].
              exists [SysExists loc; SysOpenRead loc; SysWrite loc new],
                     [SysExists loc; SysOpenRead loc].
              split; [apply (trace_written loc new _ [SysExists loc; SysOpenRead loc] w),
                        trace_log2|].
              split; [apply trace_log2|].
              split; [intros p s Hin; event_in Hin|].
              split; [split; [intros _|reflexivity]|].
              { split; [assumption|]. right. exists f, old. repeat split; congruence. }
              split; [cbn; lia|]. split; [reflexivity|]. intros _. split; reflexivity.
      * cbn [fst snd]. rewrite maybe_update_run. cbv zeta.
        rewrite ?os_log, Hf, Hr, Ht.
        cbn [fst snd].
        exists [SysExists loc; SysOpenRead loc], [SysExists loc; SysOpenRead loc].
        rewrite !trace_log2. split; [reflexivity|]. split; [reflexivity|].
        split; [intros p s Hin; event_in Hin|].
        split; [split; [discriminate|]|].
        { intros [_ [Hnone|(f' & old & Hf' & _ & Ht' & Hne)]]; congruence. }
        split; [cbn; lia|]. split; [reflexivity|]. discriminate.
    + cbn [fst snd]. rewrite maybe_update_run. cbv zeta.
      rewrite ?os_log, Hf, Hr.
      cbn [fst snd].
      exists [SysExists loc; SysOpenRead loc], [SysExists loc; SysOpenRead loc].
      rewrite !trace_log2. split; [reflexivity|]. split; [reflexivity|].
      split; [intros p s Hin; event_in Hin|].
      split; [split; [discriminate|]|].
      { intros [_ [Hnone|(f' & old & Hf' & Hr' & _)]]; congruence. }
      split; [cbn; lia|]. split; [reflexivity|]. discriminate.
  - unfold persist. rewrite ?os_log. case_bool_decide as Hw.
    + cbn [fst snd]. rewrite maybe_update_run. cbv zeta. fold new.
      rewrite ?os_write_reported, ?os_log, Hf.
      unfold persist. rewrite ?os_log. rewrite bool_decide_true by assumption.
      cbn [fst snd].
      exists [SysExists loc; SysWriteFailed loc; msg; PrintExn (PermissionError loc)],
             [SysExists loc; SysWriteFailed loc; msg; PrintExn (PermissionError loc)].
      split; [apply (trace_write_reported loc _ [SysExists loc] w), trace_log|].
      split; [apply (trace_write_reported loc _ [SysExists loc]), trace_log|].
      split; [intros p s Hin; event_in Hin|].
      split; [split; [discriminate|tauto]|].
      split; [cbn; lia|]. split; [reflexivity|]. discriminate.
    + cbn [fst snd]. rewrite maybe_update_run. cbv zeta. fold new.
      rewrite written_lookup, ?os_log, Hf. cbn [readable text].
      rewrite String.eqb_refl.
      cbn [fst snd].
      exists [SysExists loc; SysWrite loc new], [SysExists loc; SysOpenRead loc].
      split; [apply (trace_written loc new _ [SysExists loc] w), trace_log|].
      split; [apply trace_log2|].
      split; [intros p s Hin; event_in Hin|].
      split; [split; [intros _|reflexivity]|].
      { split; [assumption|]. left. reflexivity. }
      split; [cbn; lia|]. split; [reflexivity|]. intros _. split; reflexivity.
Qed.

(** C3, as the claim has it, fails: the configuration on disk is already
    the serialized document; two calls in a row return 0 and write nothing,
    not once. *)
Lemma config_current_not_written :
  let first :=
    maybe_update_tsconfig_file (sample_env 0 "") "/w/out/tsconfig.json" (JDict []) sample_current in
  let second :=
    maybe_update_tsconfig_file (sample_env 0 "") "/w/out/tsconfig.json" (JDict []) first.2 in
  trace sample_current = []
  /\ first.1 = Ok 0%Z /\ second.1 = Ok 0%Z
  /\ writes (trace second.2) = 0.
Proof. vm_compute. repeat split; reflexivity. Qed.

(** ** The configuration document *)

Lemma ret_run {A : Type} (a : A) (w : world) : @mret IO _ A a w = (Ok a, w).
Proof. reflexivity. Qed.

Lemma pure_ret {A : Type} (a : A) : pure_io (mret a).
Proof. intros w. reflexivity. Qed.

Lemma pure_raise {A : Type} (e : exn) : pure_io (@raise A e).
Proof. intros w. reflexivity. Qed.

Lemma pure_bind {A B : Type} (m : IO A) (f : A -> IO B) :
  pure_io m -> (forall a, pure_io (f a)) -> pure_io (m ≫= f).
Proof.
  intros Hm Hf w. rewrite bind_run. specialize (Hm w).
  destruct (m w) as [[a|e] w1]; simpl in Hm; subst w1; [apply Hf|reflexivity].
Qed.

Lemma pure_getitem (d : json) (k : string) : pure_io (getitem d k).
Proof.
  destruct d; try apply pure_raise. simpl.
  destruct (Dict.get d k); [apply pure_ret|apply pure_raise].
Qed.

Lemma pure_setitem (d : json) (k : string) (v : json) : pure_io (setitem d k v).
Proof. destruct d; try apply pure_raise. apply pure_ret. Qed.

Lemma pure_setitem2 (d : json) (k1 k2 : string) (v : json) : pure_io (setitem2 d k1 k2 v).
Proof.
  unfold setitem2. apply pure_bind; [apply pure_getitem|]. intros inner.
  apply pure_bind; [apply pure_setitem|]. intros inner'. apply pure_setitem.
Qed.

Lemma pure_if {A : Type} (b : bool) (m1 m2 : IO A) :
  pure_io m1 -> pure_io m2 -> pure_io (if b then m1 else m2).
Proof. destruct b; auto. Qed.

(** Making the document touches nothing. *)
Lemma pure_synthesize (E : env) (opts : options) (doc : json) (loc : string)
    (all_files : list string) :
  pure_io (synthesize E opts doc loc all_files).
Proof.
  unfold synthesize. cbv zeta.
  repeat first
    [ apply pure_setitem2
    | apply pure_setitem
    | apply pure_ret
    | apply pure_if
    | (apply pure_bind; [|intros ?])
    | match goal with |- pure_io (match ?x with _ => _ end) => destruct x end ].
Qed.

(** With the base configuration loaded and the document made, [main] is
    what it does from [maybe_update_tsconfig_file] on. *)
Lemma main_run (E : env) (opts : options) (w : world) (tsconfig : json) :
  configured E opts w tsconfig ->
  main E opts w
  = persist_and_compile E opts tsconfig (given_sources opts) (all_ts_files E opts)
      (output_location E opts) (loaded E w).
Proof.
  intros (f & s & doc & Hf & Hr & Ht & Hload & Hsyn). unfold loaded in *.
  pose proof (pure_synthesize E opts doc (output_location E opts) (all_ts_files E opts)
                (log (SysOpenRead (BASE_TS_CONFIG_LOCATION E)) w)) as Hpure.
  unfold main. rewrite bind_run. unfold open_r. rewrite Hf, Hr.
  rewrite bind_run. unfold try_except, fp_read. rewrite bind_run, Ht.
  rewrite ret_run. cbv beta iota. rewrite Hload, ret_run.
  cbv beta iota zeta. rewrite bind_run.
  fold (output_location E opts) (given_sources opts). fold (all_ts_files E opts).
  destruct (synthesize E opts doc (output_location E opts) (all_ts_files E opts)
              (log (SysOpenRead (BASE_TS_CONFIG_LOCATION E)) w)) as [[d|e] w1];
    simpl in Hsyn, Hpure; [|discriminate Hsyn].
  injection Hsyn as ->. subst w1. reflexivity.
Qed.

Lemma setitem_well_formed (doc : json) (k : string) (v : json) (w : world) :
  well_formed doc -> k <> "compilerOptions" ->
  exists doc', setitem doc k v w = (Ok doc', w) /\ well_formed doc'.
Proof.
  intros (d & co & -> & Hco) Hk. eexists. split; [reflexivity|].
  exists (Dict.setitem d k v), co. split; [reflexivity|].
  rewrite get_setitem. destruct (String.eqb_spec k "compilerOptions"); [congruence|assumption].
Qed.

Lemma setitem2_well_formed (doc : json) (k : string) (v : json) (w : world) :
  well_formed doc ->
  exists doc', setitem2 doc "compilerOptions" k v w = (Ok doc', w) /\ well_formed doc'.
Proof.
  intros (d & co & -> & Hco). unfold setitem2, getitem. rewrite Hco.
  eexists. split; [reflexivity|].
  exists (Dict.setitem d "compilerOptions" (JDict (Dict.setitem co k v))), (Dict.setitem co k v).
  split; [reflexivity|]. rewrite get_setitem. reflexivity.
Qed.

Lemma synthesize_well_formed (E : env) (opts : options) (doc : json) (loc : string)
    (all_files : list string) (w : world) :
  well_formed doc ->
  exists doc', synthesize E opts doc loc all_files w = (Ok doc', w) /\ well_formed doc'.
Proof.
  intros Hwf. unfold synthesize. cbv zeta.
  repeat
    (first
     [ match goal with
     | H : well_formed ?d |- context [setitem2 ?d "compilerOptions" ?k ?v ?w0] =>
         destruct (setitem2_well_formed d k v w0 H) as (? & -> & ?); clear H
     | H : well_formed ?d |- context [setitem ?d ?k ?v ?w0] =>
         destruct (setitem_well_formed d k v w0 H ltac:(discriminate)) as (? & -> & ?); clear H
     | |- context [match ?x with Some _ => _ | None => _ end ?w0] => destruct x
     | |- context [(if ?b then _ else _) ?w0] => destruct b
     | |- context [mret _ _] => rewrite ret_run
     end
     | rewrite bind_run ]; cbv beta iota).
  all: eexists; split; [reflexivity|assumption].
Qed.

(** ** The run *)

(** The system calls of [maybe_update_tsconfig_file] are on the
    configuration, and what it prints is about writing it. *)
Lemma maybe_update_events (E : env) (loc : string) (doc : json) (w : world) :
  exists evs,
    trace (maybe_update_tsconfig_file E loc doc w).2 = trace w ++ evs
    /\ Forall (fun e => e ∈ [SysExists loc; SysOpenRead loc;
                             SysWrite loc (json_dumps E doc); SysWriteFailed loc;
                             Print ("Encountered error while writing generated tsconfig in location "
                                    +:+ loc +:+ ":");
                             PrintExn (PermissionError loc)]) evs.
Proof.
  rewrite maybe_update_run. cbv zeta. unfold persist.
  destruct (files (os w) !! loc) as [f|].
  - destruct (readable f).
    + destruct (text f) as [old|].
      * destruct (json_dumps E doc =? old)%string.
        -- eexists. split; [apply trace_log2|]. repeat constructor; set_solver.
        -- case_bool_decide.
           ++ eexists. split; [apply trace_write_reported, trace_log2|].
              repeat constructor; set_solver.
           ++ eexists. split; [apply trace_written, trace_log2|].
              repeat constructor; set_solver.
      * eexists. split; [apply trace_log2|]. repeat constructor; set_solver.
    + eexists. split; [apply trace_log2|]. repeat constructor; set_solver.
  - case_bool_decide.
    + eexists. split; [apply trace_write_reported, trace_log|]. repeat constructor; set_solver.
    + eexists. split; [apply trace_written, trace_log|]. repeat constructor; set_solver.
Qed.

(** C4: with no source and no [--verify-lib-check], the run ends with
    [maybe_update_tsconfig_file]: no process is started, neither here nor
    on the remote service, and once the configuration is persisted the
    exit status is 0. *)
Theorem no_sources_no_compiler (E : env) (opts : options) (w : world) (tsconfig : json) :
  configured E opts w tsconfig ->
  given_sources opts = [] ->
  verify_lib_check opts = false ->
  let persisted :=
    maybe_update_tsconfig_file E (output_location E opts) tsconfig (loaded E w) in
  (main E opts w).2 = persisted.2
  /\ no_popen w (main E opts w).2
  /\ (persisted.1 = Ok 0%Z -> (main E opts w).1 = Ok 0%Z /\ (script E opts w).1 = 0%Z).
Proof.
  intros Hconf Hsrc Hverify. cbv zeta.
  assert (Hmain : main E opts w
            = match maybe_update_tsconfig_file E (output_location E opts) tsconfig (loaded E w) with
              | (Ok code, w1) => (Ok (if (code =? 1)%Z then 1%Z else 0%Z), w1)
              | (Raise e, w1) => (Raise e, w1)
              end).
  { rewrite (main_run E opts w tsconfig Hconf). unfold persist_and_compile.
    rewrite bind_run, Hsrc, Hverify.
    destruct (maybe_update_tsconfig_file _ _ _ _) as [[code|e] w1]; [|reflexivity].
    destruct (code =? 1)%Z; reflexivity. }
  destruct (maybe_update_events E (output_location E opts) tsconfig (loaded E w))
    as (evs & Htr & Hev).
  unfold script. rewrite Hmain.
  destruct (maybe_update_tsconfig_file _ _ _ _) as [[code|e] w1]; cbn [fst snd] in *.
  - split; [reflexivity|]. split.
    + exists (SysOpenRead (BASE_TS_CONFIG_LOCATION E) :: evs). split.
      * rewrite Htr. unfold loaded. rewrite trace_log, <- app_assoc. reflexivity.
      * constructor; [discriminate|].
        eapply Forall_impl; [exact Hev|]. intros e He argv ->. event_in He.
    + intros Hc. injection Hc as ->. split; reflexivity.
  - split; [reflexivity|]. split.
    + exists (SysOpenRead (BASE_TS_CONFIG_LOCATION E) :: evs). split.
      * rewrite Htr. unfold loaded. rewrite trace_log, <- app_assoc. reflexivity.
      * constructor; [discriminate|].
        eapply Forall_impl; [exact Hev|]. intros e' He argv ->. event_in He.
    + discriminate.
Qed.

(** A template that loads to an object with an object of compiler
    options is always turned into a document. *)
Lemma configured_well_formed (E : env) (opts : options) (w : world)
    (f : file) (s : string) (doc : json) :
  files (os w) !! BASE_TS_CONFIG_LOCATION E = Some f ->
  readable f = true -> text f = Some s ->
  json_loads E s = Some doc -> well_formed doc ->
  exists tsconfig, configured E opts w tsconfig.
Proof.
  intros Hf Hr Ht Hload Hwf.
  destruct (synthesize_well_formed E opts doc (output_location E opts) (all_ts_files E opts)
              (log (SysOpenRead (BASE_TS_CONFIG_LOCATION E)) w) Hwf)
    as (tsconfig & Hsyn & _).
  exists tsconfig, f, s, doc. unfold loaded. rewrite Hsyn. repeat split; assumption.
Qed.

Lemma no_sources_no_compiler_witness :
  let E := sample_env 0 "" in
  let opts := sample_options [] in
  no_popen sample_before (main E opts sample_before).2
  /\ (main E opts sample_before).1 = Ok 0%Z
  /\ (script E opts sample_before).1 = 0%Z.
Proof.
  destruct (no_sources_no_compiler (sample_env 0 "") (sample_options []) sample_before
              sample_tsconfig) as (_ & Hquiet & Hcode).
  - exists (File 1 (Some "base") true), "base", (JDict [("compilerOptions", JDict [])]).
    repeat split; vm_compute; reflexivity.
  - reflexivity.
  - reflexivity.
  - split; [exact Hquiet|]. apply Hcode. vm_compute. reflexivity.
Defined.

(** C6: when the configuration has to be written and writing it fails,
    [main] prints which configuration could not be written and the
    exception of the write, and returns 1 at once: the file system is as
    it was, no artifact was looked at, no process was started, and what
    is printed is not the report of a compiler failure. *)
Theorem config_write_failure_aborts (E : env) (opts : options) (w : world) (tsconfig : json) :
  configured E opts w tsconfig ->
  output_location E opts ∈ unwritable (os w) ->
  (files (os w) !! output_location E opts = None
   \/ exists f old, files (os w) !! output_location E opts = Some f
                    /\ readable f = true /\ text f = Some old
                    /\ old <> json_dumps E tsconfig) ->
  let loc := output_location E opts in
  let looked :=
    match files (os w) !! loc with
    | Some _ => [SysExists loc; SysOpenRead loc]
    | None => [SysExists loc]
    end in
  let reported :=
    [SysWriteFailed loc;
     Print ("Encountered error while writing generated tsconfig in location " +:+ loc +:+ ":");
     PrintExn (PermissionError loc)] in
  main E opts w
  = (Ok 1%Z,
     {| os := os w;
        trace := trace w ++ [SysOpenRead (BASE_TS_CONFIG_LOCATION E)] ++ looked ++ reported |})
  /\ (script E opts w).1 = 1%Z
  /\ (forall cfg, Print ("TypeScript compilation failed. Used tsconfig " +:+ cfg)
                  ∉ [SysOpenRead (BASE_TS_CONFIG_LOCATION E)] ++ looked ++ reported).
Proof.
  intros Hconf Hro Hneed. cbv zeta.
  assert (Hmain : main E opts w
    = (Ok 1%Z,
       {| os := os w;
          trace := trace w ++ [SysOpenRead (BASE_TS_CONFIG_LOCATION E)] ++
            match files (os w) !! output_location E opts with
            | Some _ => [SysExists (output_location E opts); SysOpenRead (output_location E opts)]
            | None => [SysExists (output_location E opts)]
            end ++
            [SysWriteFailed (output_location E opts);
             Print ("Encountered error while writing generated tsconfig in location "
                    +:+ output_location E opts +:+ ":");
             PrintExn (PermissionError (output_location E opts))] |})).
  { rewrite (main_run E opts w tsconfig Hconf). unfold persist_and_compile.
    rewrite bind_run, maybe_update_run. cbv zeta. unfold loaded. rewrite ?os_log.
    destruct Hneed as [Hf | (f & old & Hf & Hr & Ht & Hne)]; rewrite Hf.
    - unfold persist. rewrite ?os_log, bool_decide_true by assumption.
      cbn [Z.eqb Pos.eqb]. rewrite ret_run. f_equal.
      unfold write_reported, log. cbn [os trace]. f_equal.
      rewrite <- !app_assoc. reflexivity.
    - rewrite Hr, Ht. destruct (String.eqb_spec (json_dumps E tsconfig) old); [congruence|].
      unfold persist. rewrite ?os_log, bool_decide_true by assumption.
      cbn [Z.eqb Pos.eqb]. rewrite ret_run. f_equal.
      unfold write_reported, log. cbn [os trace]. f_equal.
      rewrite <- !app_assoc. reflexivity. }
  split; [exact Hmain|]. split; [unfold script; rewrite Hmain; reflexivity|].
  intros cfg Hin.
  apply elem_of_app in Hin as [Hin|Hin]; [event_in Hin|].
  apply elem_of_app in Hin as [Hin|Hin].
  - destruct (files (os w) !! output_location E opts); event_in Hin.
  - apply elem_of_cons in Hin as [Hin|Hin]; [discriminate Hin|].
    apply elem_of_cons in Hin as [Hin|Hin]; [|event_in Hin].
    injection Hin as Hin. cbv [append] in Hin. discriminate Hin.
Qed.

Lemma config_write_failure_aborts_witness :
  let E := sample_env 0 "" in
  let opts := sample_options [] in
  main E opts sample_readonly
  = (Ok 1%Z,
     {| os := os sample_readonly;
        trace := [SysOpenRead "/src/third_party/typescript/../../tsconfig.base.json";
                  SysExists "/w/out/tsconfig.json";
                  SysWriteFailed "/w/out/tsconfig.json";
                  Print "Encountered error while writing generated tsconfig in location /w/out/tsconfig.json:";
                  PrintExn (PermissionError "/w/out/tsconfig.json")] |})
  /\ (script E opts sample_readonly).1 = 1%Z.
Proof.
  destruct (config_write_failure_aborts (sample_env 0 "") (sample_options []) sample_readonly
              sample_tsconfig) as (Hmain & Hcode & _).
  - exists (File 1 (Some "base") true), "base", (JDict [("compilerOptions", JDict [])]).
    repeat split; vm_compute; reflexivity.
  - vm_compute. set_solver.
  - left. vm_compute. reflexivity.
  - split; [rewrite Hmain; vm_compute; reflexivity | exact Hcode].
Defined.

(** ** After the compiler *)

(** An invocation that returns has started one process. *)
Lemma popen_communicate_ok (E : env) (argv : list (option string)) (w w' : world)
    (out : Z * string * string) :
  popen_communicate E argv w = (Ok out, w') ->
  exists args, trace w' = trace w ++ [SysPopen args]
               /\ (out, os w') = Popen E args (os w).
Proof.
  unfold popen_communicate. destruct (mapM id argv) as [args|]; [|discriminate].
  destruct (Popen E args (os w)) as [out' o] eqn:Hp. intros H. injection H as <- <-.
  exists args. split; [reflexivity|]. symmetry. exact Hp.
Qed.

Lemma run_compiler_ok (E : env) (opts : options) (all_files : list string) (loc : string)
    (w w' : world) (rc : Z) (out : string) :
  run_compiler E opts all_files loc w = (Ok (rc, out), w') ->
  exists args stdout stderr,
    trace w' = trace w ++ [SysPopen args]
    /\ ((rc, stdout, stderr), os w') = Popen E args (os w)
    /\ out = stdout +:+ stderr.
Proof.
  unfold run_compiler, runTsc, runTscRemote. cbv zeta.
  destruct (use_rbe opts && _); rewrite bind_run;
    destruct (popen_communicate E _ w) as [[[[rc' so] se]|e] w1] eqn:Hp;
    try discriminate; rewrite ret_run; intros H; injection H as <- <- <-;
    destruct (popen_communicate_ok _ _ _ _ _ Hp) as (args & Htr & Hpo);
    exists args, so, se; repeat split; assumption.
Qed.

(** The compiler started here, not on the remote service, always returns. *)
Lemma run_compiler_local (E : env) (opts : options) (all_files : list string) (loc : string)
    (w : world) :
  use_rbe opts = false ->
  exists rc out w', run_compiler E opts all_files loc w = (Ok (rc, out), w').
Proof.
  intros Hrbe. unfold run_compiler, runTsc, popen_communicate. rewrite Hrbe. cbv zeta.
  cbn [andb mapM]. rewrite bind_run. cbn [mbind option_bind mret option_ret id].
  destruct (Popen E _ (os w)) as [[[rc so] se] o]. rewrite ret_run.
  eexists _, _, _. reflexivity.
Qed.

(** [main] from the snapshot on, when the snapshot is taken and the
    compiler returns. *)
Lemma compile_and_reconcile_run (E : env) (opts : options) (srcs all_files : list string)
    (loc : string) (w w1 w2 : world) (snap : metadata) (rc : Z) (out : string) :
  compute_previous_generated_file_metadata srcs (Path.dirname loc) w = (Ok snap, w1) ->
  run_compiler E opts all_files loc w1 = (Ok (rc, out), w2) ->
  compile_and_reconcile E opts srcs all_files loc w
  = match maybe_reset_timestamps_on_generated_files snap (Path.dirname loc) w2 with
    | (Ok _, w3) =>
        if (rc =? 0)%Z then (Ok 0%Z, w3) else (Ok 1%Z, failure_reported opts out w3)
    | (Raise e, w3) => (Raise e, w3)
    end.
Proof.
  intros Hcap Hrun. unfold compile_and_reconcile. cbv zeta.
  rewrite bind_run, Hcap, bind_run, Hrun. cbv beta iota. rewrite bind_run.
  destruct (maybe_reset_timestamps_on_generated_files snap (Path.dirname loc) w2)
    as [[[]|e] w3]; [|reflexivity].
  destruct (rc =? 0)%Z; reflexivity.
Qed.

(** [main], when the configuration is persisted, there is something to
    compile, the snapshot is taken and the compiler returns. *)
Lemma main_compiled (E : env) (opts : options) (w w1 w2 w3 : world) (tsconfig : json)
    (snap : metadata) (rc : Z) (out : string) :
  configured E opts w tsconfig ->
  maybe_update_tsconfig_file E (output_location E opts) tsconfig (loaded E w) = (Ok 0%Z, w1) ->
  given_sources opts <> [] \/ verify_lib_check opts = true ->
  compute_previous_generated_file_metadata (given_sources opts) (output_directory E opts) w1
  = (Ok snap, w2) ->
  run_compiler E opts (all_ts_files E opts) (output_location E opts) w2 = (Ok (rc, out), w3) ->
  main E opts w
  = match maybe_reset_timestamps_on_generated_files snap (output_directory E opts) w3 with
    | (Ok _, w4) =>
        if (rc =? 0)%Z then (Ok 0%Z, w4) else (Ok 1%Z, failure_reported opts out w4)
    | (Raise e, w4) => (Raise e, w4)
    end.
Proof.
  intros Hconf Hpersist Hwork Hcap Hrun.
  rewrite (main_run E opts w tsconfig Hconf). unfold persist_and_compile.
  rewrite bind_run, Hpersist. cbn [Z.eqb].
  replace ((length (given_sources opts) =? 0)%nat && negb (verify_lib_check opts)) with false.
  - eapply compile_and_reconcile_run; eassumption.
  - destruct Hwork as [Hsrc | ->].
    + destruct (given_sources opts); [congruence|reflexivity].
    + rewrite andb_false_r. reflexivity.
Qed.

(** C5: once the compiler was invoked and returned, whatever it reported,
    [main] next runs [maybe_reset_timestamps_on_generated_files] on what
    the compiler left, with the snapshot taken before; only then, on the
    reconciled files, is a failure reported; and a failure of the compiler
    gives exit status 1. *)
Theorem reconciled_before_failure (E : env) (opts : options) (w w1 w2 w3 : world)
    (tsconfig : json) (snap : metadata) (rc : Z) (out : string) :
  configured E opts w tsconfig ->
  maybe_update_tsconfig_file E (output_location E opts) tsconfig (loaded E w) = (Ok 0%Z, w1) ->
  given_sources opts <> [] \/ verify_lib_check opts = true ->
  compute_previous_generated_file_metadata (given_sources opts) (output_directory E opts) w1
  = (Ok snap, w2) ->
  run_compiler E opts (all_ts_files E opts) (output_location E opts) w2 = (Ok (rc, out), w3) ->
  let reconciled :=
    maybe_reset_timestamps_on_generated_files snap (output_directory E opts) w3 in
  (exists args, trace w3 = trace w2 ++ [SysPopen args])
  /\ (main E opts w).2
     = (match reconciled.1 with
        | Ok _ => if (rc =? 0)%Z then reconciled.2 else failure_reported opts out reconciled.2
        | Raise _ => reconciled.2
        end)
  /\ (rc <> 0%Z -> (script E opts w).1 = 1%Z).
Proof.
  intros Hconf Hpersist Hwork Hcap Hrun. cbv zeta.
  pose proof (main_compiled E opts w w1 w2 w3 tsconfig snap rc out
                Hconf Hpersist Hwork Hcap Hrun) as Hmain.
  split.
  - destruct (run_compiler_ok _ _ _ _ _ _ _ _ Hrun) as (args & _ & _ & Htr & _).
    exists args. exact Htr.
  - unfold script. rewrite Hmain.
    destruct (maybe_reset_timestamps_on_generated_files snap (output_directory E opts) w3)
      as [[[]|e] w4]; cbn [fst snd].
    + destruct (Z.eqb_spec rc 0) as [->|Hrc]; split; try reflexivity; congruence.
    + split; reflexivity.
Qed.

(** C7, as the code has it: after the reconciler, [main] fails exactly
    when the return code of the compiler is not 0; then it prints the
    configuration it was given and the output of the compiler and returns
    1; with return code 0 it prints nothing and returns 0, whatever the
    compiler wrote. *)
Theorem failure_is_nonzero_status (E : env) (opts : options) (w w1 w2 w3 w4 : world)
    (tsconfig : json) (snap : metadata) (rc : Z) (out : string) :
  configured E opts w tsconfig ->
  maybe_update_tsconfig_file E (output_location E opts) tsconfig (loaded E w) = (Ok 0%Z, w1) ->
  given_sources opts <> [] \/ verify_lib_check opts = true ->
  compute_previous_generated_file_metadata (given_sources opts) (output_directory E opts) w1
  = (Ok snap, w2) ->
  run_compiler E opts (all_ts_files E opts) (output_location E opts) w2 = (Ok (rc, out), w3) ->
  maybe_reset_timestamps_on_generated_files snap (output_directory E opts) w3 = (Ok tt, w4) ->
  (rc <> 0%Z ->
   script E opts w
   = (1%Z,
      {| os := os w4;
         trace := trace w4 ++
           [Print "";
            Print ("TypeScript compilation failed. Used tsconfig "
                   +:+ tsconfig_output_location opts);
            Print ""; Print out; Print ""] |}))
  /\ (rc = 0%Z -> script E opts w = (0%Z, w4)).
Proof.
  intros Hconf Hpersist Hwork Hcap Hrun Hreset.
  pose proof (main_compiled E opts w w1 w2 w3 tsconfig snap rc out
                Hconf Hpersist Hwork Hcap Hrun) as Hmain.
  rewrite Hreset in Hmain. unfold script. rewrite Hmain. split.
  - intros Hrc. destruct (Z.eqb_spec rc 0) as [?|_]; [congruence|].
    unfold failure_reported, log. cbn [os trace]. rewrite <- !app_assoc. reflexivity.
  - intros ->. reflexivity.
Qed.

Lemma reconciled_before_failure_witness :
  let E := sample_env 2 "a.ts(1,1): error" in
  let opts := sample_options ["front_end/a.ts"] in
  (script E opts sample_before).1 = 1%Z
  /\ exists evs, trace (main E opts sample_before).2
                 = evs ++ [SysUtime "/w/out/a.js" 10;
                           Print "";
                           Print "TypeScript compilation failed. Used tsconfig out/tsconfig.json";
                           Print ""; Print "a.ts(1,1): error"; Print ""].
Proof.
  set (E := sample_env 2 "a.ts(1,1): error"). set (opts := sample_options ["front_end/a.ts"]).
  set (tsconfig := match (synthesize E opts (JDict [("compilerOptions", JDict [])])
                            (output_location E opts) (all_ts_files E opts) sample_before).1 with
                   | Ok doc => doc
                   | Raise _ => JNull
                   end).
  set (r1 := maybe_update_tsconfig_file E (output_location E opts) tsconfig (loaded E sample_before)).
  set (r2 := compute_previous_generated_file_metadata (given_sources opts)
               (output_directory E opts) r1.2).
  set (r3 := run_compiler E opts (all_ts_files E opts) (output_location E opts) r2.2).
  destruct (reconciled_before_failure E opts sample_before r1.2 r2.2 r3.2 tsconfig
              sample_snapshot 2 "a.ts(1,1): error") as (_ & Hworld & Hcode).
  - exists (File 1 (Some "base") true), "base", (JDict [("compilerOptions", JDict [])]).
    repeat split; vm_compute; reflexivity.
  - vm_compute. reflexivity.
  - left. discriminate.
  - vm_compute. reflexivity.
  - vm_compute. reflexivity.
  - split; [apply Hcode; discriminate|].
    rewrite Hworld. exists (take 15 (trace (main E opts sample_before).2)).
    vm_compute. reflexivity.
Defined.

Lemma failure_is_nonzero_status_witness :
  (script (sample_env 2 "a.ts(1,1): error") (sample_options ["front_end/a.ts"]) sample_before).1
  = 1%Z
  /\ (script (sample_env 0 "a.ts(1,1): warning") (sample_options ["front_end/a.ts"])
        sample_before).1 = 0%Z.
Proof.
  split.
  - set (E := sample_env 2 "a.ts(1,1): error"). set (opts := sample_options ["front_end/a.ts"]).
    set (tsconfig := match (synthesize E opts (JDict [("compilerOptions", JDict [])])
                              (output_location E opts) (all_ts_files E opts) sample_before).1 with
                     | Ok doc => doc
                     | Raise _ => JNull
                     end).
    set (r1 := maybe_update_tsconfig_file E (output_location E opts) tsconfig
                 (loaded E sample_before)).
    set (r2 := compute_previous_generated_file_metadata (given_sources opts)
                 (output_directory E opts) r1.2).
    set (r3 := run_compiler E opts (all_ts_files E opts) (output_location E opts) r2.2).
    set (r4 := maybe_reset_timestamps_on_generated_files sample_snapshot
                 (output_directory E opts) r3.2).
    destruct (failure_is_nonzero_status E opts sample_before r1.2 r2.2 r3.2 r4.2 tsconfig
                sample_snapshot 2 "a.ts(1,1): error") as (Hfail & _).
    + exists (File 1 (Some "base") true), "base", (JDict [("compilerOptions", JDict [])]).
      repeat split; vm_compute; reflexivity.
    + vm_compute. reflexivity.
    + left. discriminate.
    + vm_compute. reflexivity.
    + vm_compute. reflexivity.
    + vm_compute. reflexivity.
    + rewrite Hfail by discriminate. reflexivity.
  - set (E := sample_env 0 "a.ts(1,1): warning"). set (opts := sample_options ["front_end/a.ts"]).
    set (tsconfig := match (synthesize E opts (JDict [("compilerOptions", JDict [])])
                              (output_location E opts) (all_ts_files E opts) sample_before).1 with
                     | Ok doc => doc
                     | Raise _ => JNull
                     end).
    set (r1 := maybe_update_tsconfig_file E (output_location E opts) tsconfig
                 (loaded E sample_before)).
    set (r2 := compute_previous_generated_file_metadata (given_sources opts)
                 (output_directory E opts) r1.2).
    set (r3 := run_compiler E opts (all_ts_files E opts) (output_location E opts) r2.2).
    set (r4 := maybe_reset_timestamps_on_generated_files sample_snapshot
                 (output_directory E opts) r3.2).
    destruct (failure_is_nonzero_status E opts sample_before r1.2 r2.2 r3.2 r4.2 tsconfig
                sample_snapshot 0 "a.ts(1,1): warning") as (_ & Hpass).
    + exists (File 1 (Some "base") true), "base", (JDict [("compilerOptions", JDict [])]).
      repeat split; vm_compute; reflexivity.
    + vm_compute. reflexivity.
    + left. discriminate.
    + vm_compute. reflexivity.
    + vm_compute. reflexivity.
    + vm_compute. reflexivity.
    + rewrite Hpass by reflexivity. reflexivity.
Defined.

(** C7, as the claim has it, fails: the compiler returns 0 and writes a
    diagnostic; the run prints nothing and ends with status 0. *)
Lemma diagnostics_alone_pass :
  let E := sample_env 0 "a.ts(1,1): warning" in
  let opts := sample_options ["front_end/a.ts"] in
  (forall argv o, (Popen E argv o).1 = (0%Z, "a.ts(1,1): warning", EmptyString))
  /\ (script E opts sample_before).1 = 0%Z
  /\ Forall (fun e => forall s, e <> Print s) (trace (script E opts sample_before).2)
  /\ exists argv, SysPopen argv ∈ trace (script E opts sample_before).2.
Proof.
  cbv zeta. split; [reflexivity|]. split; [vm_compute; reflexivity|]. split.
  - vm_compute. repeat constructor; discriminate.
  - eexists. vm_compute. do 10 apply list_elem_of_further. apply list_elem_of_here.
Qed.

(** * Further properties *)

(** ** The fields of the configuration document *)

Lemma setitem_fields (doc : json) (k : string) (v : json) (w : world) :
  well_formed doc -> k <> "compilerOptions" ->
  exists doc',
    setitem doc k v w = (Ok doc', w) /\ well_formed doc'
    /\ (forall k', field doc' k' = if (k =? k')%string then Some v else field doc k')
    /\ (forall k', compiler_option doc' k' = compiler_option doc k').
Proof.
  intros (d & co & -> & Hco) Hk. eexists. split; [reflexivity|].
  assert (Hf : forall k', field (JDict (Dict.setitem d k v)) k'
                 = if (k =? k')%string then Some v else field (JDict d) k')
    by (intros k'; apply get_setitem).
  split; [|split; [exact Hf|]].
  - exists (Dict.setitem d k v), co. split; [reflexivity|].
    rewrite get_setitem. destruct (String.eqb_spec k "compilerOptions"); [congruence|assumption].
  - intros k'. unfold compiler_option. rewrite Hf.
    destruct (String.eqb_spec k "compilerOptions"); [congruence|reflexivity].
Qed.

Lemma setitem2_fields (doc : json) (k : string) (v : json) (w : world) :
  well_formed doc ->
  exists doc',
    setitem2 doc "compilerOptions" k v w = (Ok doc', w) /\ well_formed doc'
    /\ (forall k', k' <> "compilerOptions" -> field doc' k' = field doc k')
    /\ (forall k', compiler_option doc' k'
                   = if (k =? k')%string then Some v else compiler_option doc k').
Proof.
  intros (d & co & -> & Hco). unfold setitem2, getitem. rewrite Hco.
  eexists. split; [reflexivity|]. split; [|split].
  - exists (Dict.setitem d "compilerOptions" (JDict (Dict.setitem co k v))), (Dict.setitem co k v).
    split; [reflexivity|]. rewrite get_setitem. reflexivity.
  - intros k' Hk'. cbn [field]. rewrite get_setitem.
    destruct (String.eqb_spec "compilerOptions" k'); [congruence|reflexivity].
  - intros k'. unfold compiler_option. cbn [field]. rewrite get_setitem, Hco.
    cbn [String.eqb Ascii.eqb Bool.eqb field]. apply get_setitem.
Qed.

(** One assignment of [main] to the document, read field by field. *)
Ltac assign_step :=
  first
    [ match goal with
      | H : well_formed ?d |- context [setitem2 ?d "compilerOptions" ?k ?v ?w0] =>
          let Hwf := fresh "Hwf" in
          let Hfld := fresh "Hfld" in
          let Hopt := fresh "Hopt" in
          destruct (setitem2_fields d k v w0 H) as (? & -> & Hwf & Hfld & Hopt); clear H
      | H : well_formed ?d |- context [setitem ?d ?k ?v ?w0] =>
          let Hwf := fresh "Hwf" in
          let Hfld := fresh "Hfld" in
          let Hopt := fresh "Hopt" in
          destruct (setitem_fields d k v w0 H ltac:(discriminate))
            as (? & -> & Hwf & Hfld & Hopt); clear H
      | |- context [mret _ _] => rewrite ret_run
      end
    | rewrite bind_run ];
  cbv beta iota.

(** The document [main] makes of a template that is an object with an
    object of compiler options, field by field. *)
Lemma synthesize_fields (E : env) (opts : options) (doc : json) (loc : string)
    (all_files : list string) (w : world) :
  well_formed doc ->
  exists doc',
    synthesize E opts doc loc all_files w = (Ok doc', w)
    /\ well_formed doc'
    /\ (forall k, k <> "compilerOptions" ->
                  field doc' k = synthesized_field E opts doc loc all_files k)
    /\ (forall k, compiler_option doc' k = synthesized_option E opts doc loc k).
Proof.
  intros Hwf0. unfold synthesize, synthesized_field, synthesized_option, relative_to_output.
  cbv zeta.
  destruct (deps opts) as [ds|], (verify_lib_check opts), (test_only opts), (no_emit opts);
    cbn [negb]; repeat assign_step;
    (eexists; split; [reflexivity|]; split; [assumption|]; split;
     [ intros k Hk;
       repeat match goal with
         | H : forall k', _ -> field ?x k' = _ |- context [field ?x k] => rewrite (H k Hk)
         | H : forall k', field ?x k' = _ |- context [field ?x k] => rewrite (H k)
         end; reflexivity
     | intros k;
       repeat match goal with
         | H : forall k', compiler_option ?x k' = _ |- context [compiler_option ?x k] =>
             rewrite (H k)
         end; reflexivity ]).
Qed.

(** A template that is not such an object makes the first assignment that
    needs it raise. *)
Lemma synthesize_raises (E : env) (opts : options) (doc : json) (loc : string)
    (all_files : list string) (w : world) :
  ~ well_formed doc ->
  synthesize E opts doc loc all_files w
  = (Raise (match doc with
            | JDict d =>
                match Dict.get d "compilerOptions" with
                | None => KeyError "compilerOptions"
                | Some _ => TypeError
                end
            | _ => TypeError
            end), w).
Proof.
  intros Hbad. unfold synthesize. cbv zeta.
  destruct doc as [| | | | |d]; try reflexivity.
  rewrite bind_run. cbn [setitem]. rewrite ret_run. cbv beta iota.
  assert (Hmod : forall d', Dict.get d' "compilerOptions" = Dict.get d "compilerOptions" ->
            forall (k : json -> IO json),
              (setitem2 (JDict d') "compilerOptions" "module" (JStr (module opts)) ≫= k) w
              = (Raise (match Dict.get d "compilerOptions" with
                        | None => KeyError "compilerOptions"
                        | Some _ => TypeError
                        end), w)).
  { intros d' Hd' k. rewrite bind_run. unfold setitem2, getitem. rewrite Hd'.
    destruct (Dict.get d "compilerOptions") as [inner|] eqn:Hco; [|reflexivity].
    destruct inner; try reflexivity.
    exfalso. apply Hbad. eexists _, _. split; [reflexivity|exact Hco]. }
  destruct (deps opts) as [ds|]; rewrite bind_run.
  - cbn [setitem]. rewrite ret_run. cbv beta iota. apply Hmod.
    rewrite !get_setitem. reflexivity.
  - rewrite ret_run. cbv beta iota. apply Hmod. rewrite get_setitem. reflexivity.
Qed.

Lemma well_formed_dec (doc : json) : well_formed doc \/ ~ well_formed doc.
Proof.
  destruct doc as [| | | | |d]; try (right; intros (? & ? & H & _); discriminate H).
  destruct (Dict.get d "compilerOptions") as [inner|] eqn:Hco.
  - destruct inner; try (right; intros (? & ? & H & H'); injection H as <-; congruence).
    left. eexists _, _. split; [reflexivity|exact Hco].
  - right. intros (? & ? & H & H'). injection H as <-. congruence.
Qed.

(** A document was made: the template was such an object, and the
    document is the one read field by field. *)
Lemma synthesize_ok (E : env) (opts : options) (doc : json) (loc : string)
    (all_files : list string) (w : world) (tsconfig : json) :
  (synthesize E opts doc loc all_files w).1 = Ok tsconfig ->
  well_formed doc
  /\ (forall k, k <> "compilerOptions" ->
                field tsconfig k = synthesized_field E opts doc loc all_files k)
  /\ (forall k, compiler_option tsconfig k = synthesized_option E opts doc loc k).
Proof.
  intros Hrun. destruct (well_formed_dec doc) as [Hwf|Hbad].
  - destruct (synthesize_fields E opts doc loc all_files w Hwf) as (doc' & Heq & _ & Hf & Ho).
    rewrite Heq in Hrun. injection Hrun as <-. auto.
  - rewrite (synthesize_raises E opts doc loc all_files w Hbad) in Hrun. discriminate Hrun.
Qed.

(** X1: the document [main] makes has, whatever the template says, the
    given files made relative to the output directory under [files], and
    in its compiler options the module, the root directory, the type
    roots (those of [node_modules/@types] under [--test-only], none
    otherwise), the output directory [.], the build information file named
    after the configuration, and the libraries [esnext] with those of the
    DOM or of a web worker. *)
Theorem document_fixed_fields (E : env) (opts : options) (doc : json) (loc : string)
    (all_files : list string) (w : world) (tsconfig : json) :
  (synthesize E opts doc loc all_files w).1 = Ok tsconfig ->
  field tsconfig "files"
  = Some (JList (map (fun x => JStr (relative_to_output E loc x)) all_files))
  /\ compiler_option tsconfig "module" = Some (JStr (module opts))
  /\ compiler_option tsconfig "rootDir"
     = Some (JStr (relative_to_output E loc (front_end_directory opts)))
  /\ compiler_option tsconfig "typeRoots"
     = Some (JList (if test_only opts
                    then [JStr (relative_to_output E loc (TYPES_NODE_MODULES_DIRECTORY E))]
                    else []))
  /\ compiler_option tsconfig "outDir" = Some (JStr ".")
  /\ compiler_option tsconfig "tsBuildInfoFile"
     = Some (JStr (Path.basename loc +:+ ".tsbuildinfo"))
  /\ compiler_option tsconfig "lib"
     = Some (JList (JStr "esnext" ::
                    (if is_web_worker opts
                     then [JStr "webworker"; JStr "webworker.iterable"]
                     else [JStr "dom"; JStr "dom.iterable"]))).
Proof.
  intros Hrun. destruct (synthesize_ok _ _ _ _ _ _ _ Hrun) as (_ & Hf & Ho).
  rewrite (Hf "files") by discriminate. rewrite !Ho.
  unfold synthesized_field, synthesized_option.
  destruct (deps opts), (verify_lib_check opts), (test_only opts), (no_emit opts);
    repeat split; reflexivity.
Qed.

Lemma document_fixed_fields_witness :
  let E := sample_env 0 "" in
  let tsconfig :=
    match (synthesize E (sample_options_verify ["a.ts"]) sample_template
             "/w/out/tsconfig.json" ["a.ts"; "/src/global_defs.d.ts"] sample_before).1 with
    | Ok doc => doc
    | Raise _ => JNull
    end in
  field tsconfig "files" = Some (JList [JStr "/w/a.ts"; JStr "/src/global_defs.d.ts"])
  /\ compiler_option tsconfig "outDir" = Some (JStr ".")
  /\ compiler_option tsconfig "tsBuildInfoFile" = Some (JStr "tsconfig.json.tsbuildinfo").
Proof.
  cbv zeta.
  destruct (document_fixed_fields (sample_env 0 "") (sample_options_verify ["a.ts"])
              sample_template "/w/out/tsconfig.json" ["a.ts"; "/src/global_defs.d.ts"]
              sample_before
              (match (synthesize (sample_env 0 "") (sample_options_verify ["a.ts"])
                        sample_template "/w/out/tsconfig.json"
                        ["a.ts"; "/src/global_defs.d.ts"] sample_before).1 with
               | Ok doc => doc
               | Raise _ => JNull
               end))
    as (Hfiles & _ & _ & _ & Hout & Hinfo & _).
  - vm_compute. reflexivity.
  - split; [rewrite Hfiles; reflexivity|]. split; assumption.
Defined.

(** X2: the fields [main] assigns under a flag: [references] holds the
    given dependencies when [--deps] is given, also when it is given none;
    [skipLibCheck] is true unless [--verify-lib-check] is given,
    [moduleResolution] is [node] under [--test-only] and
    [emitDeclarationOnly] is true under [--no-emit]; without its flag each
    of them is what the template has, and not removed. *)
Theorem document_flag_fields (E : env) (opts : options) (doc : json) (loc : string)
    (all_files : list string) (w : world) (tsconfig : json) :
  (synthesize E opts doc loc all_files w).1 = Ok tsconfig ->
  field tsconfig "references"
  = match deps opts with
    | Some ds => Some (JList (map (fun src => JDict [("path", JStr src)]) ds))
    | None => field doc "references"
    end
  /\ compiler_option tsconfig "skipLibCheck"
     = (if verify_lib_check opts then compiler_option doc "skipLibCheck" else Some (JBool true))
  /\ compiler_option tsconfig "moduleResolution"
     = (if test_only opts then Some (JStr "node") else compiler_option doc "moduleResolution")
  /\ compiler_option tsconfig "emitDeclarationOnly"
     = (if no_emit opts then Some (JBool true) else compiler_option doc "emitDeclarationOnly").
Proof.
  intros Hrun. destruct (synthesize_ok _ _ _ _ _ _ _ Hrun) as (_ & Hf & Ho).
  rewrite (Hf "references") by discriminate. rewrite !Ho.
  unfold synthesized_field, synthesized_option.
  destruct (deps opts), (verify_lib_check opts), (test_only opts), (no_emit opts);
    repeat split; reflexivity.
Qed.

Lemma document_flag_fields_witness :
  let tsconfig :=
    match (synthesize (sample_env 0 "") (sample_options_verify ["a.ts"]) sample_template
             "/w/out/tsconfig.json" ["a.ts"] sample_before).1 with
    | Ok doc => doc
    | Raise _ => JNull
    end in
  field tsconfig "references" = Some (JList [JDict [("path", JStr "../core/tsconfig.json")]])
  /\ compiler_option tsconfig "skipLibCheck" = Some (JBool false)
  /\ compiler_option tsconfig "moduleResolution" = Some (JStr "node")
  /\ compiler_option tsconfig "emitDeclarationOnly" = None.
Proof.
  cbv zeta.
  apply (document_flag_fields (sample_env 0 "") (sample_options_verify ["a.ts"])
           sample_template "/w/out/tsconfig.json" ["a.ts"] sample_before).
  vm_compute. reflexivity.
Defined.

(** X3: what [main] does not assign it keeps: a field of the template
    other than [files], [references] and [compilerOptions], and a compiler
    option other than the nine [main] may assign, is in the document as it
    is in the template. *)
Theorem document_keeps_template (E : env) (opts : options) (doc : json) (loc : string)
    (all_files : list string) (w : world) (tsconfig : json) :
  (synthesize E opts doc loc all_files w).1 = Ok tsconfig ->
  (forall k, k ∉ ["files"; "references"; "compilerOptions"] ->
             field tsconfig k = field doc k)
  /\ (forall k, k ∉ ["module"; "skipLibCheck"; "rootDir"; "typeRoots"; "moduleResolution";
                     "emitDeclarationOnly"; "outDir"; "tsBuildInfoFile"; "lib"] ->
                compiler_option tsconfig k = compiler_option doc k).
Proof.
  intros Hrun. destruct (synthesize_ok _ _ _ _ _ _ _ Hrun) as (_ & Hf & Ho).
  assert (Hmiss : forall (a k : string) (l : list string),
            k ∉ l -> a ∈ l -> (a =? k)%string = false).
  { intros a k l Hk Ha. destruct (String.eqb_spec a k) as [->|]; [contradiction|reflexivity]. }
  split.
  - intros k Hk. rewrite Hf by (intros ->; apply Hk; repeat constructor).
    unfold synthesized_field. cbv zeta.
    rewrite (Hmiss "files" k _ Hk), (Hmiss "references" k _ Hk) by (repeat constructor).
    destruct (deps opts); reflexivity.
  - intros k Hk. rewrite Ho. unfold synthesized_option. cbv zeta.
    rewrite (Hmiss "module" k _ Hk), (Hmiss "skipLibCheck" k _ Hk), (Hmiss "rootDir" k _ Hk),
      (Hmiss "typeRoots" k _ Hk), (Hmiss "moduleResolution" k _ Hk),
      (Hmiss "emitDeclarationOnly" k _ Hk), (Hmiss "outDir" k _ Hk),
      (Hmiss "tsBuildInfoFile" k _ Hk), (Hmiss "lib" k _ Hk) by (repeat constructor).
    destruct (verify_lib_check opts), (test_only opts), (no_emit opts); reflexivity.
Qed.

Lemma document_keeps_template_witness :
  let tsconfig :=
    match (synthesize (sample_env 0 "") (sample_options ["a.ts"]) sample_template
             "/w/out/tsconfig.json" ["a.ts"] sample_before).1 with
    | Ok doc => doc
    | Raise _ => JNull
    end in
  field tsconfig "exclude" = Some (JList [JStr "node_modules"])
  /\ compiler_option tsconfig "strict" = Some (JBool true).
Proof.
  cbv zeta.
  destruct (document_keeps_template (sample_env 0 "") (sample_options ["a.ts"])
              sample_template "/w/out/tsconfig.json" ["a.ts"] sample_before
              (match (synthesize (sample_env 0 "") (sample_options ["a.ts"]) sample_template
                        "/w/out/tsconfig.json" ["a.ts"] sample_before).1 with
               | Ok doc => doc
               | Raise _ => JNull
               end)) as (Hfield & Hoption).
  - vm_compute. reflexivity.
  - split.
    + rewrite (Hfield "exclude"); [reflexivity|].
      intros H. event_in H.
    + rewrite (Hoption "strict"); [reflexivity|].
      intros H. event_in H.
Defined.

(** ** A base configuration [main] cannot use *)

(** [main] up to the making of the document, when the base configuration
    loads. *)
Lemma main_loaded (E : env) (opts : options) (w : world) (f : file) (s : string) (doc : json) :
  files (os w) !! BASE_TS_CONFIG_LOCATION E = Some f ->
  readable f = true -> text f = Some s -> json_loads E s = Some doc ->
  main E opts w
  = (synthesize E opts doc (output_location E opts) (all_ts_files E opts)
     ≫= fun tsconfig =>
          persist_and_compile E opts tsconfig (given_sources opts) (all_ts_files E opts)
            (output_location E opts)) (loaded E w).
Proof.
  intros Hf Hr Ht Hload. unfold main. rewrite bind_run. unfold open_r. rewrite Hf, Hr.
  rewrite bind_run. unfold try_except, fp_read. rewrite bind_run, Ht.
  rewrite ret_run. cbv beta iota. rewrite Hload, ret_run. reflexivity.
Qed.

(** X4: a base configuration that loads to an object without
    [compilerOptions] ends the run with the [KeyError] of the first
    assignment to a compiler option, which nobody catches: the exit status
    is 1, the base configuration was opened and nothing else was looked at,
    written or started. *)
Theorem template_without_compiler_options (E : env) (opts : options) (w : world)
    (f : file) (s : string) (d : list (string * json)) :
  files (os w) !! BASE_TS_CONFIG_LOCATION E = Some f ->
  readable f = true -> text f = Some s ->
  json_loads E s = Some (JDict d) ->
  Dict.get d "compilerOptions" = None ->
  main E opts w = (Raise (KeyError "compilerOptions"), loaded E w)
  /\ script E opts w
     = (1%Z, {| os := os w;
                trace := trace w ++ [SysOpenRead (BASE_TS_CONFIG_LOCATION E);
                                     PrintExn (KeyError "compilerOptions")] |}).
Proof.
  intros Hf Hr Ht Hload Hco.
  assert (Hmain : main E opts w = (Raise (KeyError "compilerOptions"), loaded E w)).
  { rewrite (main_loaded E opts w f s (JDict d) Hf Hr Ht Hload), bind_run.
    rewrite synthesize_raises.
    - rewrite Hco. reflexivity.
    - intros (d' & co & Hd & Hd'). injection Hd as <-. congruence. }
  split; [exact Hmain|]. unfold script. rewrite Hmain. unfold loaded, log. cbn [os trace].
  rewrite <- app_assoc. reflexivity.
Qed.

Lemma template_without_compiler_options_witness :
  script (sample_env_loading (JDict [("files", JList [])])) (sample_options ["a.ts"]) sample_before
  = (1%Z, {| os := os sample_before;
             trace := [SysOpenRead "/src/third_party/typescript/../../tsconfig.base.json";
                       PrintExn (KeyError "compilerOptions")] |}).
Proof.
  apply (template_without_compiler_options (sample_env_loading (JDict [("files", JList [])]))
           (sample_options ["a.ts"]) sample_before (File 1 (Some "base") true) "base"
           [("files", JList [])]).
  - vm_compute. reflexivity.
  - reflexivity.
  - reflexivity.
  - reflexivity.
  - reflexivity.
Defined.

(** X5: a base configuration that is opened and then does not decode, or
    that [json.loads] does not accept, makes [main] print that loading
    the root configuration failed and the exception, and return 1; nothing
    else was looked at, written or started. *)
Theorem base_configuration_rejected (E : env) (opts : options) (w : world) (f : file) :
  files (os w) !! BASE_TS_CONFIG_LOCATION E = Some f ->
  readable f = true ->
  match text f with
  | Some s => json_loads E s = None
  | None => True
  end ->
  main E opts w
  = (Ok 1%Z,
     {| os := os w;
        trace := trace w ++
          [SysOpenRead (BASE_TS_CONFIG_LOCATION E);
           Print "Encountered error while loading root tsconfig:";
           PrintExn (match text f with
                     | Some _ => JSONDecodeError
                     | None => UnicodeDecodeError (BASE_TS_CONFIG_LOCATION E)
                     end)] |}).
Proof.
  intros Hf Hr Hbad. unfold main. rewrite bind_run. unfold open_r. rewrite Hf, Hr.
  rewrite bind_run. unfold try_except, fp_read. rewrite bind_run.
  destruct (text f) as [s|].
  - rewrite ret_run. cbv beta iota. rewrite Hbad.
    unfold raise, print, print_exn. rewrite !bind_run, ret_run. cbv beta iota.
    unfold log. cbn [os trace]. rewrite <- !app_assoc. reflexivity.
  - unfold raise, print, print_exn. cbv beta iota. rewrite !bind_run, ret_run.
    cbv beta iota. unfold log. cbn [os trace]. rewrite <- !app_assoc. reflexivity.
Qed.

Lemma base_configuration_rejected_witness :
  main (sample_env 0 "") (sample_options ["a.ts"]) sample_garbled
  = (Ok 1%Z,
     {| os := os sample_garbled;
        trace := [SysOpenRead "/src/third_party/typescript/../../tsconfig.base.json";
                  Print "Encountered error while loading root tsconfig:";
                  PrintExn JSONDecodeError] |}).
Proof.
  rewrite (base_configuration_rejected (sample_env 0 "") (sample_options ["a.ts"])
             sample_garbled (File 1 (Some "{") true)).
  - reflexivity.
  - vm_compute. reflexivity.
  - reflexivity.
  - reflexivity.
Defined.

(** ** The configuration on disk *)

(** X6: when [maybe_update_tsconfig_file] returns 0, the file at the
    path holds the serialized document and can be read; no other file
    changed; and when the file held that text already, nothing changed at
    all, its modification time included. *)
Theorem configuration_on_disk (E : env) (loc : string) (doc : json) (w w' : world) :
  maybe_update_tsconfig_file E loc doc w = (Ok 0%Z, w') ->
  (exists f, files (os w') !! loc = Some f
             /\ text f = Some (json_dumps E doc) /\ readable f = true)
  /\ (forall q, q <> loc -> files (os w') !! q = files (os w) !! q)
  /\ unwritable (os w') = unwritable (os w)
  /\ ((exists f, files (os w) !! loc = Some f /\ text f = Some (json_dumps E doc)) ->
      os w' = os w).
Proof.
  rewrite maybe_update_run. cbv zeta. unfold persist.
  destruct (files (os w) !! loc) as [f|] eqn:Hf.
  - destruct (readable f) eqn:Hr; [|discriminate].
    destruct (text f) as [old|] eqn:Ht; [|discriminate].
    destruct (String.eqb_spec (json_dumps E doc) old) as [Heq|Hne].
    + intros H. injection H as <-. rewrite ?os_log. split; [|auto].
      exists f. rewrite Heq. auto.
    + rewrite ?os_log. case_bool_decide as Hw; [discriminate|].
      intros H. injection H as <-. split; [|split; [|split]].
      * rewrite written_lookup, ?os_log, Hf, Hr. eexists. split; [reflexivity|]. auto.
      * intros q Hq. unfold written. cbn [os files]. rewrite lookup_insert_ne by congruence.
        reflexivity.
      * reflexivity.
      * intros (f' & Hf' & Ht'). congruence.
  - rewrite ?os_log. case_bool_decide as Hw; [discriminate|].
    intros H. injection H as <-. split; [|split; [|split]].
    + rewrite written_lookup, ?os_log, Hf. eexists. split; [reflexivity|]. auto.
    + intros q Hq. unfold written. cbn [os files]. rewrite lookup_insert_ne by congruence.
      reflexivity.
    + reflexivity.
    + intros (f' & Hf' & _). congruence.
Qed.

Lemma configuration_on_disk_witness :
  let w' :=
    (maybe_update_tsconfig_file (sample_env 0 "") "/w/out/tsconfig.json" sample_template
       sample_before).2 in
  (exists f, files (os w') !! "/w/out/tsconfig.json" = Some f
             /\ text f = Some (sample_dumps sample_template) /\ readable f = true)
  /\ files (os w') !! "/w/out/a.js" = files (os sample_before) !! "/w/out/a.js".
Proof.
  cbv zeta.
  destruct (configuration_on_disk (sample_env 0 "") "/w/out/tsconfig.json" sample_template
              sample_before
              (maybe_update_tsconfig_file (sample_env 0 "") "/w/out/tsconfig.json"
                 sample_template sample_before).2) as (Hheld & Hframe & _).
  - vm_compute. reflexivity.
  - split; [exact Hheld|]. apply Hframe. discriminate.
Defined.

(** ** The names the snapshot looks for *)

Lemma basename_idempotent (p : string) : Path.basename (Path.basename p) = Path.basename p.
Proof. apply basename_plain, basename_no_sep. Qed.

(** X7: the names the snapshot looks for depend on the base name of the
    source only and hold no separator: the artifacts of a source are
    looked for in the output directory itself, wherever the source is,
    and sources with one base name share their entries. *)
Theorem expected_names_of_base_name (src src' : string) :
  Path.basename src = Path.basename src' ->
  expected_names [src] = expected_names [src']
  /\ expected_names [src] = expected_names [Path.basename src]
  /\ Forall (fun k => Str.contains k Path.sep = false) (expected_names [src]).
Proof.
  intros Hbase.
  assert (Hgen : forall s ext, In ext [".d.ts"; ".js"; ".map"] ->
            gen_fname s ext = Str.replace (Path.basename s) ".ts" ext).
  { intros s ext Hext. unfold gen_fname. apply basename_replace; [discriminate|reflexivity|].
    destruct Hext as [<-|[<-|[<-|[]]]]; reflexivity. }
  assert (Hnames : forall s, expected_names [s]
            = map (fun ext => Str.replace (Path.basename s) ".ts" ext) [".d.ts"; ".js"; ".map"]).
  { intros s. unfold expected_names. cbn [flat_map]. rewrite app_nil_r.
    apply map_ext_in. intros ext Hext. apply Hgen. assumption. }
  split; [rewrite !Hnames, Hbase; reflexivity|]. split.
  - rewrite !Hnames, basename_idempotent. reflexivity.
  - apply Forall_forall. intros k Hk. eapply expected_no_sep. exact Hk.
Qed.

Lemma expected_names_of_base_name_witness :
  expected_names ["front_end/sdk/a.ts"] = expected_names ["front_end/ui/a.ts"]
  /\ expected_names ["front_end/sdk/a.ts"] = ["a.d.ts"; "a.js"; "a.map"].
Proof.
  destruct (expected_names_of_base_name "front_end/sdk/a.ts" "front_end/ui/a.ts")
    as (Hsame & Hbase & _); [reflexivity|].
  split; [exact Hsame|]. rewrite Hbase. reflexivity.
Defined.

Lemma replace_absent (old new s : string) :
  Str.occurrences s old = 0 -> Str.replace_from old new 0 s = s.
Proof.
  induction s as [|c s IH]; intros Hocc; [reflexivity|].
  cbn [Str.occurrences] in Hocc.
  destruct (Str.startswith (String c s) old) eqn:Hs; [discriminate Hocc|].
  rewrite (replace_from_miss _ _ _ _ Hs), IH by exact Hocc. reflexivity.
Qed.

(** X8: for a source whose base name holds no [.ts], a script or a
    declaration given as it is, the snapshot looks, for each of the three
    extensions, for a file with the base name of the source itself. *)
Theorem expected_name_without_ts (src ext : string) :
  In ext [".d.ts"; ".js"; ".map"] ->
  Str.occurrences (Path.basename src) ".ts" = 0 ->
  gen_fname src ext = Path.basename src.
Proof.
  intros Hext Hocc. unfold gen_fname.
  rewrite basename_replace; [|discriminate|reflexivity|].
  - change (Str.replace (Path.basename src) ".ts" ext)
      with (Str.replace_from ".ts" ext 0 (Path.basename src)).
    apply replace_absent. exact Hocc.
  - destruct Hext as [<-|[<-|[<-|[]]]]; reflexivity.
Qed.

Lemma expected_name_without_ts_witness :
  gen_fname "front_end/third_party/lib.js" ".d.ts" = "lib.js".
Proof.
  apply (expected_name_without_ts "front_end/third_party/lib.js" ".d.ts").
  - simpl. auto.
  - reflexivity.
Defined.

(** ** A forced check without sources *)

(** X9: with no source and [--verify-lib-check], the compiler is invoked
    all the same, on the global declaration files alone; the snapshot is
    empty, so between persisting the configuration and the invocation, and
    after it, [main] makes no system call, and the outcome is that of the
    compiler. *)
Theorem verify_without_sources (E : env) (opts : options) (w w1 w2 : world)
    (tsconfig : json) (rc : Z) (out : string) :
  configured E opts w tsconfig ->
  given_sources opts = [] ->
  verify_lib_check opts = true ->
  maybe_update_tsconfig_file E (output_location E opts) tsconfig (loaded E w) = (Ok 0%Z, w1) ->
  run_compiler E opts (all_ts_files E opts) (output_location E opts) w1 = (Ok (rc, out), w2) ->
  main E opts w
  = (if (rc =? 0)%Z then (Ok 0%Z, w2) else (Ok 1%Z, failure_reported opts out w2))
  /\ all_ts_files E opts = GLOBAL_TYPESCRIPT_DEFINITION_FILES E
  /\ exists args, trace w2 = trace w1 ++ [SysPopen args].
Proof.
  intros Hconf Hsrc Hverify Hpersist Hrun.
  split; [|split].
  - rewrite (main_compiled E opts w w1 w1 w2 tsconfig [] rc out Hconf Hpersist);
      [reflexivity|auto| |assumption].
    rewrite Hsrc. reflexivity.
  - unfold all_ts_files. rewrite Hsrc. reflexivity.
  - destruct (run_compiler_ok _ _ _ _ _ _ _ _ Hrun) as (args & _ & _ & Htr & _).
    exists args. exact Htr.
Qed.

Lemma verify_without_sources_witness :
  let E := sample_env 0 "" in
  let opts := sample_options_verify [] in
  (main E opts sample_before).1 = Ok 0%Z
  /\ exists evs, trace (main E opts sample_before).2
                 = evs ++ [SysPopen
                             ["/usr/bin/node";
                              "/src/third_party/typescript/../../node_modules/typescript/bin/tsc";
                              "-p"; "/w/out/tsconfig.json"]].
Proof.
  intros E opts.
  set (tsconfig := match (synthesize E opts (JDict [("compilerOptions", JDict [])])
                            (output_location E opts) (all_ts_files E opts) sample_before).1 with
                   | Ok doc => doc
                   | Raise _ => JNull
                   end).
  set (r1 := maybe_update_tsconfig_file E (output_location E opts) tsconfig (loaded E sample_before)).
  set (r2 := run_compiler E opts (all_ts_files E opts) (output_location E opts) r1.2).
  destruct (verify_without_sources E opts sample_before r1.2 r2.2 tsconfig 0 "")
    as (Hmain & _ & _).
  - exists (File 1 (Some "base") true), "base", (JDict [("compilerOptions", JDict [])]).
    repeat split; vm_compute; reflexivity.
  - reflexivity.
  - reflexivity.
  - vm_compute. reflexivity.
  - vm_compute. reflexivity.
  - rewrite Hmain. split; [reflexivity|].
    exists (take 3 (trace r2.2)). vm_compute. reflexivity.
Defined.

(** ** Reconciling again *)

Lemma unreadable_content (o o' : os_state) (dir k : string) :
  (forall q, content <$> (files o' !! q) = content <$> (files o !! q)) ->
  unreadable o dir k -> unreadable o' dir k.
Proof.
  intros Hc (f & Hf & Hbad). specialize (Hc (Path.join dir [k])). rewrite Hf in Hc.
  destruct (files o' !! Path.join dir [k]) as [f'|] eqn:Hf'; [|discriminate Hc].
  exists f'. split; [exact Hf'|]. injection Hc as Ht Hr. rewrite Ht, Hr. exact Hbad.
Qed.

(** A reconciler that returned could read the files of its keys. *)
Lemma reset_loop_readable (snap : metadata) (dir : string) (ks : list string) (w w' : world) :
  for_each ks (reset_step snap dir) tt w = (Ok tt, w') ->
  forall k, k ∈ ks -> ~ unreadable (os w) dir k.
Proof.
  revert w. induction ks as [|x ks IH]; intros w Hrun k Hk; [inversion Hk|].
  rewrite for_each_cons in Hrun.
  pose proof (reset_step_frame snap dir [x] x tt w (list_elem_of_here _ _)) as Hfr.
  destruct (reset_step snap dir tt x w) as [[[]|e] w1] eqn:Hstep; [|discriminate Hrun].
  cbn [snd] in Hfr. apply elem_of_cons in Hk as [->|Hk].
  - rewrite reset_step_run in Hstep. cbv zeta in Hstep.
    intros (f & Hf & Hbad). rewrite Hf in Hstep.
    destruct (Dict.get snap x) as [[t c]|]; [|discriminate Hstep].
    destruct (readable f); [|discriminate Hstep].
    destruct (text f); [|discriminate Hstep].
    destruct Hbad; discriminate.
  - intros Hbad. apply (IH w1 Hrun k Hk).
    destruct Hfr as (_ & _ & Hc & _). eapply unreadable_content; eassumption.
Qed.

Lemma reset_loop_settled (snap : metadata) (dir : string) (ks : list string) (w : world) :
  settled snap dir (os w) ->
  os (for_each ks (reset_step snap dir) tt w).2 = os w.
Proof.
  intros Hset. revert w Hset. induction ks as [|x ks IH]; intros w Hset; [reflexivity|].
  rewrite for_each_cons.
  assert (Hstep : os (reset_step snap dir tt x w).2 = os w).
  { rewrite reset_step_run. cbv zeta.
    destruct (files (os w) !! Path.join dir [x]) as [f|] eqn:Hf; [|reflexivity].
    destruct (Dict.get snap x) as [[t c]|] eqn:Hget; [|reflexivity].
    destruct (readable f) eqn:Hr; [|reflexivity].
    destruct (text f) as [c'|] eqn:Ht; [|reflexivity].
    destruct (String.eqb_spec c' c) as [->|]; [|reflexivity].
    unfold touched. cbn [snd os]. rewrite ?os_log.
    rewrite <- (Hset x t c f Hget Hf Hr Ht).
    replace (File (st_mtime f) (text f) (readable f)) with f by (destruct f; reflexivity).
    rewrite insert_id by exact Hf. destruct (os w). reflexivity. }
  destruct (reset_step snap dir tt x w) as [[[]|e] w1]; cbn [snd] in *; [|exact Hstep].
  rewrite IH; [exact Hstep|]. rewrite Hstep. exact Hset.
Qed.

(** X10: reconciling a second time changes nothing: after a run of
    [maybe_reset_timestamps_on_generated_files] that returned, a second
    one with the same snapshot returns too and leaves the file system as
    the first left it. *)
Theorem reconcile_again (snap : metadata) (dir : string) (w w' : world) :
  Forall relative (Dict.keys snap) ->
  maybe_reset_timestamps_on_generated_files snap dir w = (Ok tt, w') ->
  exists w'', maybe_reset_timestamps_on_generated_files snap dir w' = (Ok tt, w'')
              /\ os w'' = os w'.
Proof.
  intros Hrel Hrun.
  pose proof (reset_frame snap dir w) as Hfr. rewrite Hrun in Hfr. cbn [snd] in Hfr.
  destruct Hfr as (_ & _ & Hc & _).
  rewrite reset_unfold in Hrun.
  destruct (reset_returns snap dir w') as [w'' Hagain].
  { intros k Hk Hbad. apply (reset_loop_readable snap dir _ w w' Hrun k Hk).
    eapply unreadable_content; [|exact Hbad]. intros q. symmetry. apply Hc. }
  exists w''. split; [exact Hagain|].
  rewrite reset_unfold in Hagain.
  pose proof (reset_loop_settled snap dir (Dict.keys snap) w') as Hos.
  rewrite Hagain in Hos. apply Hos.
  intros k t c f' Hget Hf' Hr' Ht'.
  specialize (Hc (Path.join dir [k])). rewrite Hf' in Hc.
  destruct (files (os w) !! Path.join dir [k]) as [f|] eqn:Hf; [|discriminate Hc].
  injection Hc as Ht Hr.
  assert (Hk : k ∈ Dict.keys snap) by (apply get_keys; eauto).
  pose proof (reset_restores snap dir (Dict.keys snap) k t c w w' f Hrel
                (proj1 (Forall_forall _ _) Hrel k Hk) Hget Hf) as Hres.
  rewrite Hf' in Hres. injection Hres as ->; [reflexivity|congruence|congruence|auto|exact Hrun].
Qed.

Lemma reconcile_again_witness :
  exists w'',
    maybe_reset_timestamps_on_generated_files sample_snapshot "/w/out"
      (maybe_reset_timestamps_on_generated_files sample_snapshot "/w/out" sample_after).2
    = (Ok tt, w'')
    /\ os w'' = os (maybe_reset_timestamps_on_generated_files sample_snapshot "/w/out"
                      sample_after).2.
Proof.
  apply (reconcile_again sample_snapshot "/w/out" sample_after).
  - repeat constructor.
  - vm_compute. reflexivity.
Defined.

(** ** An artifact whose text changed *)



(** ** The exit status *)

Lemma compile_and_reconcile_status (E : env) (opts : options) (srcs all_files : list string)
    (loc : string) (w w' : world) (code : Z) :
  compile_and_reconcile E opts srcs all_files loc w = (Ok code, w') ->
  code = 0%Z \/ code = 1%Z.
Proof.
  unfold compile_and_reconcile. cbv zeta. rewrite bind_run.
  destruct (compute_previous_generated_file_metadata _ _ w) as [[snap|e] w1]; [|discriminate].
  rewrite bind_run.
  destruct (run_compiler E opts all_files loc w1) as [[[rc out]|e] w2]; [|discriminate].
  cbv beta iota. rewrite bind_run.
  destruct (maybe_reset_timestamps_on_generated_files _ _ w2) as [[[]|e] w3]; [|discriminate].
  destruct (negb (rc =? 0)%Z).
  - unfold print. rewrite !bind_run, ret_run. intros H. injection H as <- _. auto.
  - rewrite ret_run. intros H. injection H as <- _. auto.
Qed.

Lemma main_status (E : env) (opts : options) (w w' : world) (code : Z) :
  main E opts w = (Ok code, w') -> code = 0%Z \/ code = 1%Z.
Proof.
  unfold main. rewrite bind_run.
  destruct (open_r (BASE_TS_CONFIG_LOCATION E) w) as [[f|e] w0]; [|discriminate].
  rewrite bind_run.
  destruct (try_except _ _ w0) as [[[doc|]|e] w1]; [| |discriminate].
  - cbv zeta. rewrite bind_run.
    destruct (synthesize E opts doc _ _ w1) as [[tsconfig|e] w2]; [|discriminate].
    unfold persist_and_compile. rewrite bind_run.
    destruct (maybe_update_tsconfig_file E _ tsconfig w2) as [[c|e] w3]; [|discriminate].
    destruct (c =? 1)%Z; [rewrite ret_run; intros H; injection H as <- _; auto|].
    destruct (_ && _); [rewrite ret_run; intros H; injection H as <- _; auto|].
    apply compile_and_reconcile_status.
  - rewrite ret_run. intros H. injection H as <- _. auto.
Qed.

Lemma script_status (E : env) (opts : options) (w : world) :
  (script E opts w).1 = 0%Z \/ (script E opts w).1 = 1%Z.
Proof.
  unfold script. destruct (main E opts w) as [[code|e] w'] eqn:Hmain; cbn [fst].
  - eapply main_status. exact Hmain.
  - right. reflexivity.
Qed.

(** X11: the exit status of the script is 0, 1 or 2, and it is 2 exactly
    when [argparse] rejects the command line. Once the command line is
    parsed the status is 0 or 1, whatever the options, the files found
    and the return code of the compiler: a failure of the compiler turns
    any return code into 1, and an exception nobody catches ends the
    script with 1. *)
Theorem exit_status_is_0_1_or_2 (E : env) (parse_args : list string -> parse_result)
    (argv : list string) (w : world) :
  let status := (run E parse_args argv w).1 in
  (status = 0%Z \/ status = 1%Z \/ status = 2%Z)
  /\ (status = 2%Z <-> exists message, parse_args argv = ErrorExit message)
  /\ (forall opts, parse_args argv = Namespace opts -> status = 0%Z \/ status = 1%Z).
Proof.
  cbv zeta. unfold run. destruct (parse_args argv) as [opts|help|message]; cbn [fst].
  - pose proof (script_status E opts w) as Hs. split; [tauto|]. split.
    + split; [intros H2; destruct Hs as [Hs|Hs]; rewrite Hs in H2; discriminate|].
      intros [message Hm]. discriminate.
    + intros opts' _. exact Hs.
  - split; [auto|]. split; [|intros opts H; discriminate].
    split; [discriminate|]. intros [message Hm]. discriminate.
  - split; [auto|]. split; [|intros opts H; discriminate].
    split; [eauto|reflexivity].
Qed.

(** ** A build that changes nothing *)

(** [maybe_update_tsconfig_file] changes no file but the configuration. *)
Lemma maybe_update_frame (E : env) (loc : string) (doc : json) (w : world) (q : string) :
  q <> loc ->
  files (os (maybe_update_tsconfig_file E loc doc w).2) !! q = files (os w) !! q.
Proof.
  intros Hq. rewrite maybe_update_run. cbv zeta. unfold persist.
  assert (Hw : forall w0, os w0 = os w ->
            files (os (written loc (json_dumps E doc) w0)) !! q = files (os w) !! q).
  { intros w0 Hw0. unfold written. cbn [os files]. rewrite lookup_insert_ne by congruence.
    rewrite Hw0. reflexivity. }
  destruct (files (os w) !! loc) as [f|].
  - destruct (readable f); [|reflexivity].
    destruct (text f) as [old|]; [|reflexivity].
    destruct (json_dumps E doc =? old)%string; [reflexivity|].
    case_bool_decide; [reflexivity|]. apply Hw. reflexivity.
  - case_bool_decide; [reflexivity|]. apply Hw. reflexivity.
Qed.

(** X12: a whole run over an artifact the compiler does not change: when
    an expected artifact, which is not the configuration itself, has the
    same text after the compiler ran as before the run, then after [main]
    it has the modification time it had before the run, whatever time the
    compiler left on it and whether or not the compiler failed; and the
    exit status is that of the compiler. *)
Theorem unchanged_artifact_keeps_time (E : env) (opts : options) (w w1 w2 w3 w4 : world)
    (tsconfig : json) (snap : metadata) (rc : Z) (out : string)
    (k : string) (f0 f3 : file) (c : string) :
  configured E opts w tsconfig ->
  maybe_update_tsconfig_file E (output_location E opts) tsconfig (loaded E w) = (Ok 0%Z, w1) ->
  compute_previous_generated_file_metadata (given_sources opts) (output_directory E opts) w1
  = (Ok snap, w2) ->
  run_compiler E opts (all_ts_files E opts) (output_location E opts) w2 = (Ok (rc, out), w3) ->
  maybe_reset_timestamps_on_generated_files snap (output_directory E opts) w3 = (Ok tt, w4) ->
  k ∈ expected_names (given_sources opts) ->
  Path.join (output_directory E opts) [k] <> output_location E opts ->
  files (os w) !! Path.join (output_directory E opts) [k] = Some f0 ->
  text f0 = Some c ->
  files (os w3) !! Path.join (output_directory E opts) [k] = Some f3 ->
  text f3 = Some c -> readable f3 = true ->
  files (os (main E opts w).2) !! Path.join (output_directory E opts) [k]
  = Some (File (st_mtime f0) (Some c) true)
  /\ (script E opts w).1 = (if (rc =? 0)%Z then 0%Z else 1%Z).
Proof.
  intros Hconf Hpersist Hcap Hrun Hreset Hk Hloc Hf0 Ht0 Hf3 Ht3 Hr3.
  set (dir := output_directory E opts) in *.
  assert (Hwork : given_sources opts <> [] \/ verify_lib_check opts = true).
  { left. intros Hnil. rewrite Hnil in Hk. inversion Hk. }
  pose proof (main_compiled E opts w w1 w2 w3 tsconfig snap rc out
                Hconf Hpersist Hwork Hcap Hrun) as Hmain.
  fold dir in Hmain. rewrite Hreset in Hmain.
  assert (Hget : Dict.get snap k = Some (st_mtime f0, c)).
  { pose proof (maybe_update_frame E (output_location E opts) tsconfig (loaded E w) _ Hloc)
      as Hsame.
    rewrite Hpersist in Hsame. cbn [snd] in Hsame. unfold loaded in Hsame.
    rewrite os_log, Hf0 in Hsame.
    pose proof Hcap as Hcap'. rewrite capture_unfold in Hcap'.
    destruct (capture_names_ok _ _ _ _ _ _ Hcap' k) as [_ Hcase].
    assert (He : entry (os w1) dir k = Some (st_mtime f0, c))
      by (unfold entry; rewrite Hsame, Ht0; reflexivity).
    rewrite He in Hcase.
    destruct Hcase as [(_ & _ & Hg) | ([Hno|Hno] & _)]; [exact Hg|contradiction|discriminate]. }
  assert (Hfinal : files (os w4) !! Path.join dir [k] = Some (File (st_mtime f0) (Some c) true)).
  { rewrite reset_unfold in Hreset.
    eapply (reset_restores snap dir (Dict.keys snap) k (st_mtime f0) c w3 w4 f3);
      try eassumption.
    - eapply snapshot_keys_relative. exact Hcap.
    - apply no_sep_relative. eapply expected_no_sep. exact Hk.
    - left. apply get_keys. eauto. }
  unfold script. rewrite Hmain. destruct (rc =? 0)%Z; cbn [fst snd]; split; auto.
Qed.

Lemma unchanged_artifact_keeps_time_witness :
  let E := sample_env 2 "a.ts(1,1): error" in
  let opts := sample_options ["front_end/a.ts"] in
  files (os sample_before) !! "/w/out/a.js" = Some (File 10 (Some "var a;") true)
  /\ files (os sample_after) !! "/w/out/a.js" = Some (File 20 (Some "var a;") true)
  /\ files (os (main E opts sample_before).2) !! "/w/out/a.js"
     = Some (File 10 (Some "var a;") true)
  /\ (script E opts sample_before).1 = 1%Z.
Proof.
  intros E opts.
  set (tsconfig := match (synthesize E opts (JDict [("compilerOptions", JDict [])])
                            (output_location E opts) (all_ts_files E opts) sample_before).1 with
                   | Ok doc => doc
                   | Raise _ => JNull
                   end).
  set (r1 := maybe_update_tsconfig_file E (output_location E opts) tsconfig (loaded E sample_before)).
  set (r2 := compute_previous_generated_file_metadata (given_sources opts)
               (output_directory E opts) r1.2).
  set (r3 := run_compiler E opts (all_ts_files E opts) (output_location E opts) r2.2).
  set (r4 := maybe_reset_timestamps_on_generated_files sample_snapshot
               (output_directory E opts) r3.2).
  split; [vm_compute; reflexivity|]. split; [vm_compute; reflexivity|].
  apply (unchanged_artifact_keeps_time E opts sample_before r1.2 r2.2 r3.2 r4.2 tsconfig
           sample_snapshot 2 "a.ts(1,1): error" "a.js"
           (File 10 (Some "var a;") true) (File 20 (Some "var a;") true) "var a;").
  - exists (File 1 (Some "base") true), "base", (JDict [("compilerOptions", JDict [])]).
    repeat split; vm_compute; reflexivity.
  - vm_compute. reflexivity.
  - vm_compute. reflexivity.
  - vm_compute. reflexivity.
  - vm_compute. reflexivity.
  - vm_compute. repeat constructor.
  - vm_compute. discriminate.
  - vm_compute. reflexivity.
  - reflexivity.
  - vm_compute. reflexivity.
  - reflexivity.
  - reflexivity.
Defined.

(** ** What a run does to the outside world *)

Lemma emits_nothing {A : Type} (P : event -> Prop) (m : IO A) : pure_io m -> emits P m.
Proof. intros Hm w. exists []. rewrite Hm, app_nil_r. split; [reflexivity|constructor]. Qed.

Lemma emits_one {A : Type} (P : event -> Prop) (m : IO A) (e : event) :
  P e -> (forall w, trace (m w).2 = trace w ++ [e]) -> emits P m.
Proof. intros He Hm w. exists [e]. split; [apply Hm|]. constructor; [exact He|constructor]. Qed.

Lemma emits_bind_ok {A B : Type} (P : event -> Prop) (m : IO A) (f : A -> IO B) :
  emits P m ->
  (forall w a w', m w = (Ok a, w') -> emits P (f a)) ->
  emits P (m ≫= f).
Proof.
  intros Hm Hf w. rewrite bind_run. destruct (Hm w) as (evs1 & Ht1 & He1).
  destruct (m w) as [[a|e] w1] eqn:Hrun; cbn [snd] in Ht1.
  - destruct (Hf w a w1 Hrun w1) as (evs2 & Ht2 & He2).
    exists (evs1 ++ evs2). rewrite Ht2, Ht1, app_assoc. split; [reflexivity|].
    apply Forall_app. split; assumption.
  - exists evs1. split; assumption.
Qed.

Lemma emits_bind {A B : Type} (P : event -> Prop) (m : IO A) (f : A -> IO B) :
  emits P m -> (forall a, emits P (f a)) -> emits P (m ≫= f).
Proof. intros Hm Hf. apply emits_bind_ok; [exact Hm|]. intros _ a _ _. apply Hf. Qed.

Lemma emits_try {A : Type} (P : event -> Prop) (body : IO A) (handler : exn -> IO A) :
  emits P body -> (forall e, emits P (handler e)) -> emits P (try_except body handler).
Proof.
  intros Hb Hh w. unfold try_except. destruct (Hb w) as (evs1 & Ht1 & He1).
  destruct (body w) as [[a|e] w1]; cbn [snd] in Ht1.
  - exists evs1. split; assumption.
  - destruct (Hh e w1) as (evs2 & Ht2 & He2).
    exists (evs1 ++ evs2). rewrite Ht2, Ht1, app_assoc. split; [reflexivity|].
    apply Forall_app. split; assumption.
Qed.

Lemma emits_for_each {A S : Type} (P : event -> Prop) (l : list A) (body : S -> A -> IO S)
    (s : S) :
  (forall s x, x ∈ l -> emits P (body s x)) -> emits P (for_each l body s).
Proof.
  revert s. induction l as [|x l IH]; intros s Hbody.
  - apply emits_nothing. intros w. reflexivity.
  - cbn [for_each]. apply emits_bind.
    + apply Hbody. apply list_elem_of_here.
    + intros s'. apply IH. intros s0 y Hy. apply Hbody. apply list_elem_of_further. exact Hy.
Qed.

Lemma emits_ext {A : Type} (P : event -> Prop) (m m' : IO A) :
  (forall w, m w = m' w) -> emits P m' -> emits P m.
Proof. intros Heq Hm w. rewrite Heq. apply Hm. Qed.

Lemma emits_exists (P : event -> Prop) (p : string) :
  P (SysExists p) -> emits P (os_path_exists p).
Proof. intros H. eapply emits_one; [exact H|]. reflexivity. Qed.

Lemma emits_stat (P : event -> Prop) (p : string) :
  P (SysStat p) -> emits P (os_stat_st_mtime p).
Proof.
  intros H. eapply emits_one; [exact H|]. intros w. unfold os_stat_st_mtime.
  destruct (files (os w) !! p); reflexivity.
Qed.

Lemma emits_open (P : event -> Prop) (p : string) :
  P (SysOpenRead p) -> emits P (open_r p).
Proof.
  intros H. eapply emits_one; [exact H|]. intros w. unfold open_r.
  destruct (files (os w) !! p) as [f|]; [destruct (readable f)|]; reflexivity.
Qed.

Lemma emits_read (P : event -> Prop) (p : string) (fp : file) : emits P (fp_read p fp).
Proof. apply emits_nothing. intros w. unfold fp_read. destruct (text fp); reflexivity. Qed.

Lemma emits_read_text (P : event -> Prop) (p : string) :
  P (SysOpenRead p) -> emits P (read_text p).
Proof.
  intros H. unfold read_text. apply emits_bind; [apply emits_open; exact H|].
  intros fp. apply emits_read.
Qed.

Lemma emits_print (P : event -> Prop) (s : string) : P (Print s) -> emits P (print s).
Proof. intros H. eapply emits_one; [exact H|]. reflexivity. Qed.

Lemma emits_print_exn (P : event -> Prop) (e : exn) : P (PrintExn e) -> emits P (print_exn e).
Proof. intros H. eapply emits_one; [exact H|]. reflexivity. Qed.

Lemma emits_ret {A : Type} (P : event -> Prop) (a : A) : emits P (mret a).
Proof. apply emits_nothing, pure_ret. Qed.

Lemma emits_raise {A : Type} (P : event -> Prop) (e : exn) : emits P (@raise A e).
Proof. apply emits_nothing, pure_raise. Qed.

Lemma emits_popen (E : env) (P : event -> Prop) (argv : list (option string)) :
  (forall args, P (SysPopen args)) -> emits P (popen_communicate E argv).
Proof.
  intros H w. unfold popen_communicate. destruct (mapM id argv) as [args|].
  - destruct (Popen E args (os w)) as [out o]. exists [SysPopen args].
    split; [reflexivity|]. constructor; [apply H|constructor].
  - exists []. rewrite app_nil_r. split; [reflexivity|constructor].
Qed.

Lemma emits_run_compiler (E : env) (P : event -> Prop) (opts : options)
    (all_files : list string) (loc : string) :
  (forall args, P (SysPopen args)) -> emits P (run_compiler E opts all_files loc).
Proof.
  intros H. unfold run_compiler, runTsc, runTscRemote. cbv zeta.
  destruct (use_rbe opts && _);
    (apply emits_bind; [apply emits_popen; exact H|]; intros [[rc so] se]; apply emits_ret).
Qed.

Lemma emits_maybe_update (E : env) (P : event -> Prop) (loc : string) (doc : json) :
  P (SysExists loc) -> P (SysOpenRead loc) ->
  (forall s, P (SysWrite loc s)) -> P (SysWriteFailed loc) ->
  (forall s, P (Print s)) -> (forall e, P (PrintExn e)) ->
  emits P (maybe_update_tsconfig_file E loc doc).
Proof.
  intros H1 H2 H3 H4 H5 H6 w.
  destruct (maybe_update_events E loc doc w) as (evs & Htr & Hev).
  exists evs. split; [exact Htr|]. eapply Forall_impl; [exact Hev|].
  intros e He. repeat (apply elem_of_cons in He as [->|He]; [auto|]). inversion He.
Qed.

Lemma emits_capture (P : event -> Prop) (srcs : list string) (dir : string) :
  (forall k, k ∈ expected_names srcs ->
             P (SysExists (Path.join dir [k])) /\ P (SysStat (Path.join dir [k]))
             /\ P (SysOpenRead (Path.join dir [k]))) ->
  emits P (compute_previous_generated_file_metadata srcs dir).
Proof.
  intros HP. eapply emits_ext; [intros w; apply capture_unfold|].
  apply emits_for_each. intros g k Hk. destruct (HP k Hk) as (He & Hs & Ho).
  unfold capture_step. cbv zeta. apply emits_bind; [apply emits_exists; exact He|].
  intros [|]; [|apply emits_ret].
  apply emits_bind; [apply emits_stat; exact Hs|]. intros mtime.
  apply emits_bind; [apply emits_read_text; exact Ho|]. intros contents. apply emits_ret.
Qed.

Lemma emits_reset (P : event -> Prop) (snap : metadata) (dir : string) :
  (forall k, k ∈ Dict.keys snap ->
             P (SysExists (Path.join dir [k])) /\ P (SysOpenRead (Path.join dir [k]))
             /\ forall t, P (SysUtime (Path.join dir [k]) t)) ->
  emits P (maybe_reset_timestamps_on_generated_files snap dir).
Proof.
  intros HP w. destruct (reset_frame snap dir w) as (_ & _ & _ & _ & evs & Htr & Hev).
  exists evs. split; [exact Htr|]. eapply Forall_impl; [exact Hev|].
  intros e (k & Hk & Hcase). destruct (HP k Hk) as (He & Ho & Hu).
  destruct Hcase as [->|[->|[t ->]]]; auto.
Qed.

(** X14: in a run that does not use the remote service, whatever its
    other options and whatever it finds, [main] looks only at the base
    configuration, at the configuration it writes and at the expected
    artifacts in the output directory; it writes no file but the
    configuration; and it sets the time of no file but an expected
    artifact. What else changes is done by the compiler it starts. (A
    remote run lists the TypeScript library directory as well.) *)
Theorem local_run_is_confined (E : env) (opts : options) (w : world) :
  use_remote_execution opts = false ->
  exists evs, trace (main E opts w).2 = trace w ++ evs /\ Forall (confined E opts) evs.
Proof.
  intros _. revert w. change (emits (confined E opts) (main E opts)).
  assert (Hart : forall k, k ∈ expected_names (given_sources opts) ->
            artifact E opts (Path.join (output_directory E opts) [k]))
    by (intros k Hk; exists k; auto).
  unfold main. apply emits_bind; [apply emits_open; left; reflexivity|]. intros root.
  apply emits_bind.
  { apply emits_try.
    - apply emits_bind; [apply emits_read|]. intros s.
      destruct (json_loads E s); [apply emits_ret|apply emits_raise].
    - intros e. apply emits_bind; [apply emits_print; exact I|]. intros _.
      apply emits_bind; [apply emits_print_exn; exact I|]. intros _. apply emits_ret. }
  intros [doc|]; [|apply emits_ret]. cbv zeta.
  apply emits_bind; [apply emits_nothing, pure_synthesize|]. intros tsconfig.
  unfold persist_and_compile. fold (output_location E opts) (given_sources opts).
  apply emits_bind.
  { apply emits_maybe_update; cbn [confined]; auto. }
  intros code. destruct (code =? 1)%Z; [apply emits_ret|].
  destruct (_ && _); [apply emits_ret|].
  unfold compile_and_reconcile. cbv zeta. fold (output_directory E opts).
  apply emits_bind_ok.
  { apply emits_capture. intros k Hk. cbn [confined]. specialize (Hart k Hk). tauto. }
  intros w1 snap w2 Hcap.
  apply emits_bind; [apply emits_run_compiler; intros; exact I|]. intros [rc out].
  apply emits_bind.
  { apply emits_reset. intros k Hk. cbn [confined].
    pose proof (Hart k (snapshot_keys _ _ _ _ _ Hcap k Hk)). repeat split; auto. }
  intros _. destruct (negb (rc =? 0)%Z); [|apply emits_ret].
  repeat (apply emits_bind; [apply emits_print; exact I|]; intros _). apply emits_ret.
Qed.

Lemma local_run_is_confined_witness :
  exists evs,
    trace (main (sample_env 3 "a.ts(1,1): error") (sample_options ["front_end/a.ts"])
             sample_before).2
    = trace sample_before ++ evs
    /\ Forall (confined (sample_env 3 "a.ts(1,1): error") (sample_options ["front_end/a.ts"]))
              evs.
Proof.
  apply (local_run_is_confined (sample_env 3 "a.ts(1,1): error")
           (sample_options ["front_end/a.ts"]) sample_before).
  reflexivity.
Defined.

(** ** The configuration the compiler reads *)

(** The process of an invocation that returned: its arguments end with
    [-p] and the configuration, as it is or relative to the working
    directory. *)
Lemma run_compiler_argv (E : env) (opts : options) (all_files : list string) (loc : string)
    (w w' : world) (rc : Z) (out : string) :
  run_compiler E opts all_files loc w = (Ok (rc, out), w') ->
  exists args stdout stderr,
    Popen E args (os w) = ((rc, stdout, stderr), os w')
    /\ out = stdout +:+ stderr
    /\ exists pre cfg, args = pre ++ ["-p"; cfg]
                       /\ (cfg = loc \/ cfg = relpath E loc (getcwd E)).
Proof.
  unfold run_compiler, runTsc, runTscRemote. cbv zeta.
  destruct (use_rbe opts && _).
  - rewrite bind_run. unfold popen_communicate.
    destruct (rewrapper_binary opts) as [rb|]; [|discriminate].
    destruct (rewrapper_cfg opts) as [rcfg|]; [|discriminate].
    destruct (rewrapper_exec_root opts) as [root|]; [|discriminate].
    cbn [mapM mbind option_bind mret option_ret id].
    match goal with |- context [Popen E ?a (os w)] => set (args := a) end.
    destruct (Popen E args (os w)) as [[[rc' so] se] o] eqn:Hp. rewrite ret_run.
    intros H. injection H as <- <- <-. exists args, so, se.
    split; [exact Hp|]. split; [reflexivity|].
    eexists (take 13 args), _. split; [reflexivity|]. right. reflexivity.
  - rewrite bind_run. unfold popen_communicate.
    cbn [mapM mbind option_bind mret option_ret id].
    match goal with |- context [Popen E ?a (os w)] => set (args := a) end.
    destruct (Popen E args (os w)) as [[[rc' so] se] o] eqn:Hp. rewrite ret_run.
    intros H. injection H as <- <- <-. exists args, so, se.
    split; [exact Hp|]. split; [reflexivity|].
    exists [NODE_LOCATION E; TSC_LOCATION E], loc. split; [reflexivity|]. left. reflexivity.
Qed.

(** X15: the compiler reads the document [main] made: when the
    configuration was persisted, the snapshot taken and the compiler
    returned, the process was started with [-p] and the configuration as
    its last arguments, on a file system in which the configuration holds
    the serialized document, the snapshot having changed nothing. *)
Theorem compiler_reads_configuration (E : env) (opts : options) (w w1 w2 w3 : world)
    (tsconfig : json) (snap : metadata) (rc : Z) (out : string) :
  maybe_update_tsconfig_file E (output_location E opts) tsconfig w = (Ok 0%Z, w1) ->
  compute_previous_generated_file_metadata (given_sources opts) (output_directory E opts) w1
  = (Ok snap, w2) ->
  run_compiler E opts (all_ts_files E opts) (output_location E opts) w2 = (Ok (rc, out), w3) ->
  exists args stdout stderr,
    Popen E args (os w1) = ((rc, stdout, stderr), os w3)
    /\ out = stdout +:+ stderr
    /\ (exists pre cfg, args = pre ++ ["-p"; cfg]
                        /\ (cfg = output_location E opts
                            \/ cfg = relpath E (output_location E opts) (getcwd E)))
    /\ exists f, files (os w1) !! output_location E opts = Some f
                 /\ text f = Some (json_dumps E tsconfig).
Proof.
  intros Hpersist Hcap Hrun.
  assert (Hos : os w2 = os w1).
  { pose proof (capture_names_os (output_directory E opts)
                  (expected_names (given_sources opts)) [] w1) as H.
    rewrite <- capture_unfold, Hcap in H. exact H. }
  destruct (run_compiler_argv _ _ _ _ _ _ _ _ Hrun) as (args & so & se & Hp & Hout & Hargs).
  exists args, so, se. rewrite <- Hos. split; [exact Hp|]. split; [exact Hout|].
  split; [exact Hargs|].
  rewrite Hos. clear -Hpersist. revert Hpersist.
  rewrite maybe_update_run. cbv zeta. unfold persist.
  destruct (files (os w) !! output_location E opts) as [f|] eqn:Hf.
  - destruct (readable f) eqn:Hr; [|discriminate].
    destruct (text f) as [old|] eqn:Ht; [|discriminate].
    destruct (String.eqb_spec (json_dumps E tsconfig) old) as [Heq|Hne].
    + intros H. injection H as <-. rewrite ?os_log. exists f. rewrite Heq. auto.
    + case_bool_decide as Hw; [discriminate|]. intros H. injection H as <-.
      rewrite written_lookup. eexists. split; reflexivity.
  - case_bool_decide as Hw; [discriminate|]. intros H. injection H as <-.
    rewrite written_lookup. eexists. split; reflexivity.
Qed.

Lemma compiler_reads_configuration_witness :
  let E := sample_env 0 "" in
  let opts := sample_options ["front_end/a.ts"] in
  let w1 := (maybe_update_tsconfig_file E (output_location E opts) sample_template
               sample_before).2 in
  exists args stdout stderr,
    Popen E args (os w1) = ((0%Z, stdout, stderr), sample_compile (os w1))
    /\ EmptyString = stdout +:+ stderr
    /\ (exists pre cfg, args = pre ++ ["-p"; cfg]
                        /\ (cfg = "/w/out/tsconfig.json"
                            \/ cfg = relpath E "/w/out/tsconfig.json" (getcwd E)))
    /\ exists f, files (os w1) !! "/w/out/tsconfig.json" = Some f
                 /\ text f = Some (sample_dumps sample_template).
Proof.
  intros E opts w1.
  set (r2 := compute_previous_generated_file_metadata (given_sources opts)
               (output_directory E opts) w1).
  set (r3 := run_compiler E opts (all_ts_files E opts) (output_location E opts) r2.2).
  apply (compiler_reads_configuration E opts sample_before w1 r2.2 r3.2 sample_template
           sample_snapshot 0 "").
  - vm_compute. reflexivity.
  - vm_compute. reflexivity.
  - vm_compute. reflexivity.
Defined.

(** ** Success is silent *)

Lemma loud_app_l (evs1 evs2 : list event) :
  ~ Forall silent evs1 -> ~ Forall silent (evs1 ++ evs2).
Proof. intros H1 H. apply H1. apply Forall_app in H. tauto. Qed.

Lemma loud_app_r (evs1 evs2 : list event) :
  ~ Forall silent evs2 -> ~ Forall silent (evs1 ++ evs2).
Proof. intros H2 H. apply H2. apply Forall_app in H. tauto. Qed.

Lemma reports_ret0 : reports (mret 0%Z).
Proof.
  intros w. exists []. rewrite app_nil_r. split; [reflexivity|]. cbn. split; [constructor|auto].
Qed.

(** After a step that printed nothing the rest decides; after a step
    that printed, the rest returns 1 at once. *)
Lemma reports_bind {A : Type} (m : IO A) (f : A -> IO Z) :
  (forall w, exists evs,
      trace (m w).2 = trace w ++ evs
      /\ match (m w).1 with
         | Ok a =>
             (Forall silent evs /\ reports (f a))
             \/ (~ Forall silent evs /\ forall w', f a w' = (Ok 1%Z, w'))
         | Raise _ => Forall silent evs
         end) ->
  reports (m ≫= f).
Proof.
  intros Hm w. rewrite bind_run. destruct (Hm w) as (evs1 & Ht1 & Hcase).
  destruct (m w) as [[a|e] w1]; cbn [fst snd] in *.
  - destruct Hcase as [[Hs Hf] | [Hl Hf]].
    + destruct (Hf w1) as (evs2 & Ht2 & Hres). exists (evs1 ++ evs2).
      rewrite Ht2, Ht1, app_assoc. split; [reflexivity|].
      destruct ((f a w1).1) as [code|e].
      * rewrite Hres. rewrite Forall_app. tauto.
      * apply Forall_app. tauto.
    + rewrite Hf. exists evs1. split; [exact Ht1|]. cbn [fst].
      split; [discriminate|contradiction].
  - exists evs1. split; assumption.
Qed.

Lemma reports_bind_silent {A : Type} (m : IO A) (f : A -> IO Z) :
  emits silent m -> (forall a, reports (f a)) -> reports (m ≫= f).
Proof.
  intros Hm Hf. apply reports_bind. intros w. destruct (Hm w) as (evs & Ht & Hs).
  exists evs. split; [exact Ht|]. destruct ((m w).1); [left; auto|exact Hs].
Qed.

Lemma reports_failure (opts : options) (stderr : string) :
  reports (print "";;
           print ("TypeScript compilation failed. Used tsconfig "
                  +:+ tsconfig_output_location opts);;
           print "";; print stderr;; print "";; mret 1%Z).
Proof.
  intros w. unfold print. rewrite !bind_run, ret_run. cbv beta iota. cbn [fst snd].
  eexists [_; _; _; _; _]. split.
  - rewrite !trace_log, <- !app_assoc. reflexivity.
  - split; [discriminate|]. intros H. inversion H as [|? ? Hbad]. destruct Hbad.
Qed.

Lemma reports_compile_and_reconcile (E : env) (opts : options) (srcs all_files : list string)
    (loc : string) :
  reports (compile_and_reconcile E opts srcs all_files loc).
Proof.
  unfold compile_and_reconcile. cbv zeta.
  apply reports_bind_silent; [apply emits_capture; intros; cbn; auto|]. intros snap.
  apply reports_bind_silent; [apply emits_run_compiler; intros; exact I|]. intros [rc out].
  apply reports_bind_silent; [apply emits_reset; intros; cbn; auto|]. intros _.
  destruct (negb (rc =? 0)%Z); [apply reports_failure|apply reports_ret0].
Qed.

Lemma reports_persist_and_compile (E : env) (opts : options) (tsconfig : json)
    (srcs all_files : list string) (loc : string) :
  reports (persist_and_compile E opts tsconfig srcs all_files loc).
Proof.
  unfold persist_and_compile. apply reports_bind. intros w.
  assert (Hrest : reports (if (0 =? 1)%Z then mret 1%Z
                           else if (length srcs =? 0)%nat && negb (verify_lib_check opts)
                                then mret 0%Z
                                else compile_and_reconcile E opts srcs all_files loc)).
  { cbn [Z.eqb]. destruct (_ && _); [apply reports_ret0|apply reports_compile_and_reconcile]. }
  rewrite maybe_update_run. cbv zeta. unfold persist.
  assert (Hwrite : forall w0 evs0, trace w0 = trace w ++ evs0 -> Forall silent evs0 ->
            exists evs,
              trace (if bool_decide (loc ∈ unwritable (os w0))
                     then (Ok 1%Z, write_reported loc w0)
                     else (Ok 0%Z, written loc (json_dumps E tsconfig) w0)).2 = trace w ++ evs
              /\ match (if bool_decide (loc ∈ unwritable (os w0))
                        then (Ok 1%Z, write_reported loc w0)
                        else (Ok 0%Z, written loc (json_dumps E tsconfig) w0)).1 with
                 | Ok a =>
                     (Forall silent evs
                      /\ reports (if (a =? 1)%Z then mret 1%Z
                                  else if (length srcs =? 0)%nat && negb (verify_lib_check opts)
                                       then mret 0%Z
                                       else compile_and_reconcile E opts srcs all_files loc))
                     \/ (~ Forall silent evs
                         /\ forall w', (if (a =? 1)%Z then mret 1%Z
                                        else if (length srcs =? 0)%nat
                                                && negb (verify_lib_check opts)
                                             then mret 0%Z
                                             else compile_and_reconcile E opts srcs all_files loc)
                                         w' = (Ok 1%Z, w'))
                 | Raise _ => Forall silent evs
                 end).
  { intros w0 evs0 Ht0 Hs0. case_bool_decide as Hw; cbn [fst snd].
    - eexists. split; [apply trace_write_reported; exact Ht0|]. right. split.
      + apply loud_app_r. intros H. inversion H as [|? ? _ H']. inversion H' as [|? ? Hbad].
        destruct Hbad.
      + intros w'. reflexivity.
    - eexists. split; [apply trace_written; exact Ht0|]. left. split; [|exact Hrest].
      apply Forall_app. split; [exact Hs0|]. repeat constructor. }
  destruct (files (os w) !! loc) as [f|].
  - destruct (readable f).
    + destruct (text f) as [old|].
      * destruct (json_dumps E tsconfig =? old)%string.
        -- eexists. split; [apply trace_log2|]. left. split; [repeat constructor|exact Hrest].
        -- apply Hwrite with (evs0 := [SysExists loc; SysOpenRead loc]);
             [apply trace_log2|repeat constructor].
      * eexists. split; [apply trace_log2|]. repeat constructor.
    + eexists. split; [apply trace_log2|]. repeat constructor.
  - apply Hwrite with (evs0 := [SysExists loc]); [apply trace_log|repeat constructor].
Qed.

Lemma reports_main (E : env) (opts : options) : reports (main E opts).
Proof.
  unfold main. apply reports_bind_silent; [apply emits_open; exact I|]. intros root.
  apply reports_bind. intros w.
  assert (Hloud : forall e,
            exists evs,
              trace (log (PrintExn e)
                       (log (Print "Encountered error while loading root tsconfig:") w))
              = trace w ++ evs /\ ~ Forall silent evs).
  { intros e. eexists. split; [apply trace_log2|]. intros H. inversion H as [|? ? Hbad].
    destruct Hbad. }
  unfold try_except, fp_read. rewrite bind_run.
  destruct (text root) as [s|].
  - rewrite ret_run. cbv beta iota.
    destruct (json_loads E s) as [doc|].
    + rewrite ret_run. exists []. rewrite app_nil_r. split; [reflexivity|].
      left. split; [constructor|]. cbv zeta.
      apply reports_bind_silent; [apply emits_nothing, pure_synthesize|]. intros tsconfig.
      apply reports_persist_and_compile.
    + unfold raise, print, print_exn. rewrite !bind_run, ret_run. cbv beta iota.
      destruct (Hloud JSONDecodeError) as (evs & Ht & Hl).
      exists evs. split; [exact Ht|]. right. split; [exact Hl|]. intros w'. reflexivity.
  - unfold raise, print, print_exn. cbv beta iota. rewrite !bind_run, ret_run. cbv beta iota.
    destruct (Hloud (UnicodeDecodeError (BASE_TS_CONFIG_LOCATION E))) as (evs & Ht & Hl).
    exists evs. split; [exact Ht|]. right. split; [exact Hl|]. intros w'. reflexivity.
Qed.

Lemma script_reports (E : env) (opts : options) (w : world) :
  exists evs,
    trace (script E opts w).2 = trace w ++ evs
    /\ ((script E opts w).1 = 0%Z <-> Forall silent evs).
Proof.
  destruct (reports_main E opts w) as (evs & Ht & Hres). unfold script.
  destruct (main E opts w) as [[code|e] w']; cbn [fst snd] in *.
  - exists evs. split; assumption.
  - exists (evs ++ [PrintExn e]). rewrite trace_log, Ht, app_assoc. split; [reflexivity|].
    split; [discriminate|]. intros H. apply Forall_app in H as [_ H].
    inversion H as [|? ? Hbad]. destruct Hbad.
Qed.

(** X16: once the command line is parsed, the exit status of the script
    is 0 exactly when the run printed nothing: every failure, of loading
    the base configuration, of writing the configuration, of the
    compiler, or an exception nobody caught, comes with a message, and a
    run that succeeded is silent. The two exits of [argparse] print: the
    help, with status 0, and the reason a command line is rejected, with
    status 2. *)
Theorem parsed_success_is_silent (E : env) (parse_args : list string -> parse_result)
    (argv : list string) (w : world) :
  exists evs,
    trace (run E parse_args argv w).2 = trace w ++ evs
    /\ match parse_args argv with
       | Namespace _ => (run E parse_args argv w).1 = 0%Z <-> Forall silent evs
       | HelpExit help => (run E parse_args argv w).1 = 0%Z /\ evs = [Print help]
       | ErrorExit message => (run E parse_args argv w).1 = 2%Z /\ evs = [Print message]
       end.
Proof.
  unfold run. destruct (parse_args argv) as [opts|help|message].
  - apply script_reports.
  - eexists. split; [apply trace_log|]. split; reflexivity.
  - eexists. split; [apply trace_log|]. split; reflexivity.
Qed.
